(** * Source validation service: a shallow embedding of ValidationService.ts

    The service receives a bag of uploaded files, splits it into compiler
    metadata documents and source files, indexes the sources by the
    keccak256 hash of their content (under several newline
    normalisations) and, for every metadata document, sorts the declared
    sources into found, missing and invalid ones.

    Conventions of the embedding:
    - a JavaScript string is a [string]; its characters are the code
      units below 256;
    - a value produced by [JSON.parse] is a [JSON] tree; [undefined] is
      [None] in [option JSON];
    - an object used as a dictionary with string keys ([StringMap],
      [MissingSources], [InvalidSources]) is the [gmap string _] of its
      own properties, written through [assign_prop]; a [Map] is a [gmap]
      as well;
    - a function that may throw returns a [result];
    - the service is the one built without a logger
      ([new ValidationService()]), so the logging branches are dead. *)

From Stdlib Require Import Ascii.
From stdpp Require Import base option list gmap strings pretty fin_maps.

#[local] Set Warnings "-register-all,-clear-no-such-hyp".
#[local] Set Default Proof Using "Type".

(** ** Values and exceptions *)

Inductive JSON : Type :=
| JNull
| JBool (b : bool)
| JNum (lexeme : string)
| JStr (s : string)
| JArr (items : list JSON)
| JObj (props : list (string * JSON)).

(** The exceptions the code can raise: the two built-in ones and
    [new Error(msg)]. *)
Inductive exn : Type :=
| TypeError
| SyntaxError
| Error (msg : string).

Inductive result (A : Type) : Type :=
| Ok (a : A)
| Throw (e : exn).
Arguments Ok {A} a.
Arguments Throw {A} e.

#[global] Instance result_ret : MRet result := @Ok.
#[global] Instance result_bind : MBind result := λ A B f m,
  match m with
  | Ok a => f a
  | Throw e => Throw e
  end.

(** [foldM] runs a loop body over the elements of a list, from left to
    right, and stops at the first exception. *)
Fixpoint foldM {A S : Type} (body : S → A → result S) (s : S) (l : list A)
  : result S :=
  match l with
  | [] => Ok s
  | x :: l' => s' ← body s x; foldM body s' l'
  end.

(** ** Property access, enumeration and truthiness *)

Definition chars (s : string) : list JSON :=
  (λ c, JStr (String c EmptyString)) <$> String.list_ascii_of_string s.

Definition indexed (l : list JSON) : list (string * JSON) :=
  imap (λ i v, (pretty i, v)) l.

(** The enumerable own properties of a value: the properties of an
    object, the indices of an array or of a string. *)
Definition props_of (v : JSON) : list (string * JSON) :=
  match v with
  | JObj ps => ps
  | JArr items => indexed items
  | JStr s => indexed (chars s)
  | _ => []
  end.

Fixpoint assoc (k : string) (ps : list (string * JSON)) : option JSON :=
  match ps with
  | [] => None
  | (k', v) :: ps' => if decide (k = k') then Some v else assoc k ps'
  end.

(** [v.k] or [v[k]]: reading a property of [null] or [undefined] throws. *)
Definition getProp (v : option JSON) (k : string) : result (option JSON) :=
  match v with
  | None | Some JNull => Throw TypeError
  | Some o => Ok (assoc k (props_of o))
  end.

(** [object[k] = v] on an object that was created as [{}], seen through
    its own properties. The key [__proto__] names the accessor that such
    an object inherits from [Object.prototype]: the assignment runs the
    setter, which adds no own property (a string or [undefined] is
    ignored, an object becomes the prototype of the map, from which the
    service reads nothing). *)
Definition assign_prop {A : Type} (k : string) (v : A) (m : gmap string A)
  : gmap string A :=
  if decide (k = "__proto__") then m else <[k := v]> m.

(** A property list denotes an object in which the first binding of a
    key is the one that counts; [uniq] keeps that binding only. *)
Fixpoint uniq (ps : list (string * JSON)) : list (string * JSON) :=
  match ps with
  | [] => []
  | (k, v) :: ps' => (k, v) :: filter (λ kv, kv.1 ≠ k) (uniq ps')
  end.

(** [for (const k in v)] with [v[k]] at hand; over [null] and
    [undefined] the loop body never runs. *)
Definition entries (v : option JSON) : list (string * JSON) :=
  match v with
  | None => []
  | Some o => uniq (props_of o)
  end.

(** [Object.keys(v)] for a value that is neither [null] nor [undefined]. *)
Definition keys (v : JSON) : list string := (uniq (props_of v)).*1.

Definition is_nonzero_digit (c : ascii) : bool :=
  bool_decide (49 ≤ nat_of_ascii c ≤ 57)%nat.

Fixpoint mantissa_nonzero (s : string) : bool :=
  match s with
  | EmptyString => false
  | String c s' =>
      if bool_decide (c = "e"%char ∨ c = "E"%char) then false
      else is_nonzero_digit c || mantissa_nonzero s'
  end.

(** [if (v)], [!!v]. A number is falsy when it is zero, which for a
    JSON literal means that its mantissa holds no digit but 0 (a literal
    so small that it reads as zero is outside the model). *)
Definition truthy (v : option JSON) : bool :=
  match v with
  | None | Some JNull => false
  | Some (JBool b) => b
  | Some (JNum lexeme) => mantissa_nonzero lexeme
  | Some (JStr s) => bool_decide (s ≠ EmptyString)
  | Some (JArr _) | Some (JObj _) => true
  end.

(** ** Files *)

(** [PathContent] of the core package: the path label is optional. *)
Record PathContent : Type := mkPathContent {
  path : option string;
  content : string
}.

Record MissingSource : Type := mkMissing {
  missing_keccak256 : option JSON;
  missing_urls : option JSON
}.

Record InvalidSource : Type := mkInvalid {
  expectedHash : option JSON;
  calculatedHash : string;
  msg : string
}.

(** What [rearrangeSources] returns: the own properties of the four
    objects. [queried] is a ghost field: the source paths for which
    [byHash.get] was called, latest first. *)
Record Rearranged : Type := mkRearranged {
  foundSources : gmap string string;
  missingSources : gmap string MissingSource;
  invalidSources : gmap string InvalidSource;
  metadata2provided : gmap string (option string);
  queried : list string
}.

Definition mismatch_msg : string :=
  "The keccak256 given in the metadata and the calculated keccak256 of the source content in metadata don't match".

(** [String(v)], the conversion that [JSON.parse] and [==] apply to a
    value that is not a string. *)
Fixpoint toStr (Number_toString : string → string) (v : JSON) : string :=
  match v with
  | JNull => "null"
  | JBool true => "true"
  | JBool false => "false"
  | JNum lexeme => Number_toString lexeme
  | JStr s => s
  | JArr items =>
      String.concat ","
        (map (λ x, match x with
                   | JNull => EmptyString
                   | _ => toStr Number_toString x
                   end) items)
  | JObj _ => "[object Object]"
  end.

(** ** Strings *)

Definition dquote : ascii := "034"%char.
Definition backslash : ascii := "\"%char.
Definition CR : ascii := "013"%char.
Definition LF : ascii := "010"%char.

Definition str (c : ascii) : string := String c EmptyString.

(** [s.startsWith(p)], with the rest of [s] after the prefix. *)
Fixpoint strip_prefix (p s : string) : option string :=
  match p, s with
  | EmptyString, _ => Some s
  | String a p', String b s' => if decide (a = b) then strip_prefix p' s' else None
  | String _ _, EmptyString => None
  end.

(** [s.slice(n)] *)
Fixpoint slice (n : nat) (s : string) : string :=
  match n, s with
  | O, _ => s
  | S n', String _ s' => slice n' s'
  | S _, EmptyString => EmptyString
  end.

(** Does [s] contain [p]? This is [s.match(re)] for a pattern [re] that
    is a plain literal. *)
Fixpoint contains (p s : string) : bool :=
  match strip_prefix p s with
  | Some _ => true
  | None =>
      match s with
      | EmptyString => false
      | String _ s' => contains p s'
      end
  end.

(** *** The variators of file content *)

(** [content.replace(/\r?\n/g, "\r\n")] *)
Fixpoint toCRLF (s : string) : string :=
  match s with
  | EmptyString => EmptyString
  | String c s' =>
      if decide (c = LF) then String CR (String LF (toCRLF s'))
      else if decide (c = CR) then
        match s' with
        | String d s'' =>
            if decide (d = LF) then String CR (String LF (toCRLF s''))
            else String c (toCRLF s')
        | EmptyString => String c EmptyString
        end
      else String c (toCRLF s')
  end.

(** [content.replace(/\r\n/g, "\n")] *)
Fixpoint toLF (s : string) : string :=
  match s with
  | EmptyString => EmptyString
  | String c s' =>
      if decide (c = CR) then
        match s' with
        | String d s'' =>
            if decide (d = LF) then String LF (toLF s'')
            else String c (toLF s')
        | EmptyString => String c EmptyString
        end
      else String c (toLF s')
  end.

(** White space and line terminators below code unit 256: tab, line
    feed, vertical tab, form feed, carriage return, space and the
    no-break space. *)
Definition is_white (c : ascii) : bool :=
  let n := nat_of_ascii c in
  bool_decide (9 ≤ n ≤ 13 ∨ n = 32 ∨ n = 160)%nat.

(** [content.trimEnd()] *)
Fixpoint trimEnd (s : string) : string :=
  match s with
  | EmptyString => EmptyString
  | String c s' =>
      match trimEnd s' with
      | EmptyString => if is_white c then EmptyString else String c EmptyString
      | t => String c t
      end
  end.

Definition CONTENT_VARIATORS : list (string → string) :=
  [ (λ content, content);
    (λ content, toCRLF content);
    (λ content, toLF content) ].

Definition ENDING_VARIATORS : list (string → string) :=
  [ (λ content, content);
    (λ content, trimEnd content);
    (λ content, trimEnd content +:+ str LF);
    (λ content, trimEnd content +:+ str CR +:+ str LF);
    (λ content, content +:+ str LF);
    (λ content, content +:+ str CR +:+ str LF) ].

(** [generateVariations]: the two nested loops push one variation per
    pair of variators, content variator outermost. *)
Definition generateVariations (pathContent : PathContent) : list PathContent :=
  let original := content pathContent in
  let variations :=
    contentVariator ← CONTENT_VARIATORS;
    let variatedContent := contentVariator original in
    endingVariator ← ENDING_VARIATORS;
    [endingVariator variatedContent] in
  (λ c, mkPathContent (path pathContent) c) <$> variations.

(** ** The JSON reader

    [JSON_parse] is [JSON.parse] on a string: the grammar of RFC 8259,
    the last of several equal keys wins and keeps the place of the
    first, and keys that are array indices come first, in ascending
    order. A [\u] escape above [ÿ] is outside the model of strings
    and is not read. *)

Definition is_digit (c : ascii) : bool :=
  bool_decide (48 ≤ nat_of_ascii c ≤ 57)%nat.

Definition is_json_space (c : ascii) : bool :=
  let n := nat_of_ascii c in
  bool_decide (n = 32 ∨ n = 9 ∨ n = 10 ∨ n = 13)%nat.

Fixpoint skip_ws (s : string) : string :=
  match s with
  | String c s' => if is_json_space c then skip_ws s' else s
  | EmptyString => s
  end.

(** The longest prefix of digits, and the rest. *)
Fixpoint digits (s : string) : string * string :=
  match s with
  | String c s' =>
      if is_digit c then let '(d, r) := digits s' in (String c d, r)
      else (EmptyString, s)
  | EmptyString => (EmptyString, s)
  end.

Definition hex_value (c : ascii) : option nat :=
  let n := nat_of_ascii c in
  if bool_decide (48 ≤ n ≤ 57)%nat then Some (n - 48)%nat
  else if bool_decide (65 ≤ n ≤ 70)%nat then Some (n - 55)%nat
  else if bool_decide (97 ≤ n ≤ 102)%nat then Some (n - 87)%nat
  else None.

(** The characters of a string literal after its opening quote, up to
    the closing one. *)
Fixpoint read_string (s : string) : option (string * string) :=
  match s with
  | EmptyString => None
  | String c s' =>
      if decide (c = dquote) then Some (EmptyString, s')
      else if decide (c = backslash) then
        match s' with
        | String "u" (String h1 (String h2 (String h3 (String h4 s'')))) =>
            a ← hex_value h1; b ← hex_value h2;
            x ← hex_value h3; y ← hex_value h4;
            if decide (a = 0 ∧ b = 0)%nat then
              '(t, r) ← read_string s'';
              Some (String (ascii_of_nat (16 * x + y)) t, r)
            else None
        | String e s'' =>
            d ← (if decide (e = dquote) then Some dquote
                 else if decide (e = backslash) then Some backslash
                 else match e with
                      | "/" => Some "/"
                      | "b" => Some "008"
                      | "f" => Some "012"
                      | "n" => Some LF
                      | "r" => Some CR
                      | "t" => Some "009"
                      | _ => None
                      end)%char;
            '(t, r) ← read_string s'';
            Some (String d t, r)
        | EmptyString => None
        end
      else if bool_decide (nat_of_ascii c < 32)%nat then None
      else '(t, r) ← read_string s'; Some (String c t, r)
  end.

(** A number literal: its text, and the rest. *)
Definition read_number (s : string) : option (string * string) :=
  let '(sign, s0) :=
    match s with
    | String "-" r => ("-", r)
    | _ => (EmptyString, s)
    end in
  let '(int, s1) := digits s0 in
  match int with
  | EmptyString => None
  | String "0" (String _ _) => None
  | _ =>
      '(frac, s2) ←
        match s1 with
        | String "." r =>
            let '(f, r') := digits r in
            if decide (f = EmptyString) then None else Some ("." +:+ f, r')
        | _ => Some (EmptyString, s1)
        end;
      '(exp, s3) ←
        match s2 with
        | String e r =>
            if decide (e = "e" ∨ e = "E")%char then
              let '(sg, r0) :=
                match r with
                | String "+" r' => ("+", r')
                | String "-" r' => ("-", r')
                | _ => (EmptyString, r)
                end in
              let '(d, r') := digits r0 in
              if decide (d = EmptyString) then None
              else Some (str e +:+ sg +:+ d, r')
            else Some (EmptyString, s2)
        | EmptyString => Some (EmptyString, s2)
        end;
      Some (sign +:+ int +:+ frac +:+ exp, s3)
  end.

Fixpoint decimal_value (acc : N) (s : string) : N :=
  match s with
  | EmptyString => acc
  | String c s' => decimal_value (10 * acc + N.of_nat (nat_of_ascii c - 48)) s'
  end.

(** The array index a property key denotes, if it is one: a canonical
    decimal numeral below 2^32 - 1. *)
Definition array_index (k : string) : option N :=
  match digits k with
  | (String c d, EmptyString) =>
      if decide (c = "0"%char ∧ d ≠ EmptyString) then None
      else
        let n := decimal_value 0 k in
        if decide ((String.length k ≤ 10)%nat ∧ (n < 4294967295)%N)
        then Some n else None
  | _ => None
  end.

(** Where a new key goes: before the first key that is not an index or
    is a greater index, if it is an index itself; at the end otherwise. *)
Fixpoint add_prop (k : string) (v : JSON) (ps : list (string * JSON))
  : list (string * JSON) :=
  match ps with
  | [] => [(k, v)]
  | (k', v') :: ps' =>
      match array_index k, array_index k' with
      | Some n, Some n' =>
          if decide (n < n')%N then (k, v) :: ps
          else (k', v') :: add_prop k v ps'
      | Some _, None => (k, v) :: ps
      | None, _ => (k', v') :: add_prop k v ps'
      end
  end.

(** [o[k] = v] on the object under construction. *)
Definition set_prop (k : string) (v : JSON) (ps : list (string * JSON))
  : list (string * JSON) :=
  if decide (k ∈ ps.*1)
  then (λ kv, if decide (kv.1 = k) then (k, v) else kv) <$> ps
  else add_prop k v ps.

Fixpoint read_value (fuel : nat) (s : string) : option (JSON * string) :=
  match fuel with
  | O => None
  | S fuel =>
      match skip_ws s with
      | String "n" r => r' ← strip_prefix "ull" r; Some (JNull, r')
      | String "t" r => r' ← strip_prefix "rue" r; Some (JBool true, r')
      | String "f" r => r' ← strip_prefix "alse" r; Some (JBool false, r')
      | String "[" r =>
          match skip_ws r with
          | String "]" r' => Some (JArr [], r')
          | _ => read_items fuel [] r
          end
      | String "{" r =>
          match skip_ws r with
          | String "}" r' => Some (JObj [], r')
          | _ => read_members fuel [] r
          end
      | String c r as s0 =>
          if decide (c = dquote) then
            '(t, r') ← read_string r; Some (JStr t, r')
          else
            '(n, r') ← read_number s0; Some (JNum n, r')
      | EmptyString => None
      end
  end
with read_items (fuel : nat) (acc : list JSON) (s : string)
  : option (JSON * string) :=
  match fuel with
  | O => None
  | S fuel =>
      '(v, r) ← read_value fuel s;
      match skip_ws r with
      | String "," r' => read_items fuel (v :: acc) r'
      | String "]" r' => Some (JArr (rev (v :: acc)), r')
      | _ => None
      end
  end
with read_members (fuel : nat) (acc : list (string * JSON)) (s : string)
  : option (JSON * string) :=
  match fuel with
  | O => None
  | S fuel =>
      match skip_ws s with
      | String q r =>
          if decide (q = dquote) then
            '(k, r0) ← read_string r;
            match skip_ws r0 with
            | String ":" r1 =>
                '(v, r2) ← read_value fuel r1;
                let acc := set_prop k v acc in
                match skip_ws r2 with
                | String "," r3 => read_members fuel acc r3
                | String "}" r3 => Some (JObj acc, r3)
                | _ => None
                end
            | _ => None
            end
          else None
      | EmptyString => None
      end
  end.

(** Every call reads at least one character, so the fuel, twice the
    length of the text, is never what stops the reader. [None] is the
    [SyntaxError]. *)
Definition JSON_parse (text : string) : option JSON :=
  '(v, r) ← read_value (2 * String.length text + 2) text;
  if decide (skip_ws r = EmptyString) then Some v else None.

(** Test data is written with an apostrophe for the quotation mark. *)
Fixpoint dq (s : string) : string :=
  match s with
  | EmptyString => EmptyString
  | String c s' => String (if decide (c = "'"%char) then dquote else c) (dq s')
  end.

(** ** Keccak-256

    The hash behind [Web3.utils.keccak256], on the bytes of a string and
    printed as 0x and 64 hexadecimal digits. The theorems below hold for
    any hash function; this one instantiates them on examples. *)
Module Keccak.

Definition lane_mask : N := 0xFFFFFFFFFFFFFFFF%N.

Definition rotl (w : N) (n : N) : N :=
  N.land (N.lor (N.shiftl w n) (N.shiftr w (64 - n))) lane_mask.

Definition lane (st : list N) (i : nat) : N := nth i st 0%N.

Definition xors (l : list N) : N := foldr N.lxor 0%N l.

Definition rotation_offsets : list N :=
  [ 0; 1; 62; 28; 27;  36; 44; 6; 55; 20;  3; 10; 43; 25; 39;
    41; 45; 15; 21; 8;  18; 2; 61; 56; 14 ]%N.

Definition round_constants : list N :=
  [ 0x0000000000000001; 0x0000000000008082; 0x800000000000808A;
    0x8000000080008000; 0x000000000000808B; 0x0000000080000001;
    0x8000000080008081; 0x8000000000008009; 0x000000000000008A;
    0x0000000000000088; 0x0000000080008009; 0x000000008000000A;
    0x000000008000808B; 0x800000000000008B; 0x8000000000008089;
    0x8000000000008003; 0x8000000000008002; 0x8000000000000080;
    0x000000000000800A; 0x800000008000000A; 0x8000000080008081;
    0x8000000000008080; 0x0000000080000001; 0x8000000080008008 ]%N.

Definition theta (st : list N) : list N :=
  let c := (λ x, xors ((λ y, lane st (x + 5 * y)) <$> seq 0 5)) <$> seq 0 5 in
  let d := (λ x, N.lxor (lane c ((x + 4) mod 5))
                        (rotl (lane c ((x + 1) mod 5)) 1)) <$> seq 0 5 in
  imap (λ i a, N.lxor a (lane d (i mod 5))) st.

Definition rho_pi (st : list N) : list N :=
  (λ j, let x := ((j mod 5) + 3 * (j / 5)) mod 5 in
        let y := j mod 5 in
        rotl (lane st (x + 5 * y)) (nth (x + 5 * y) rotation_offsets 0%N))
  <$> seq 0 25.

Definition chi (st : list N) : list N :=
  (λ j, let x := j mod 5 in
        let y := j / 5 in
        N.lxor (lane st j)
          (N.land (N.lxor (lane st ((x + 1) mod 5 + 5 * y)) lane_mask)
                  (lane st ((x + 2) mod 5 + 5 * y))))
  <$> seq 0 25.

Definition iota (rc : N) (st : list N) : list N :=
  match st with
  | a :: st' => N.lxor a rc :: st'
  | [] => []
  end.

Definition keccak_f (st : list N) : list N :=
  foldl (λ st rc, iota rc (chi (rho_pi (theta st)))) st round_constants.

Definition rate : nat := 136.

(** The message followed by the padding 0x01, 0x00 ..., 0x80. *)
Definition pad (bytes : list N) : list N :=
  let fill := (rate - 1 - (length bytes mod rate))%nat in
  match fill with
  | O => bytes ++ [0x81%N]
  | S k => bytes ++ [0x01%N] ++ replicate k 0%N ++ [0x80%N]
  end.

(** Eight bytes, least significant first, make a lane. *)
Fixpoint lanes_of (fuel : nat) (bytes : list N) : list N :=
  match fuel with
  | O => []
  | S fuel =>
      match bytes with
      | [] => []
      | _ =>
          foldr (λ b acc, (b + 256 * acc)%N) 0%N (take 8 bytes)
          :: lanes_of fuel (drop 8 bytes)
      end
  end.

Fixpoint absorb (fuel : nat) (st : list N) (bytes : list N) : list N :=
  match fuel with
  | O => st
  | S fuel =>
      match bytes with
      | [] => st
      | _ =>
          let block := lanes_of 17 (take rate bytes) in
          let st' := imap (λ i a, N.lxor a (nth i block 0%N)) st in
          absorb fuel (keccak_f st') (drop rate bytes)
      end
  end.

Definition bytes_of_lane (w : N) : list N :=
  (λ i, N.land (N.shiftr w (8 * N.of_nat i)) 0xFF%N) <$> seq 0 8.

Definition hex_digit (n : N) : ascii :=
  ascii_of_N (if decide (n < 10)%N then 48 + n else 87 + n).

Definition hex_of_byte (b : N) : string :=
  String (hex_digit (N.shiftr b 4)) (String (hex_digit (N.land b 0xF)) EmptyString).

Definition digest (bytes : list N) : list N :=
  let padded := pad bytes in
  let st := absorb (S (length padded)) (replicate 25 0%N) padded in
  mjoin (bytes_of_lane <$> take 4 st).

Definition keccak256 (s : string) : string :=
  "0x" +:+ String.concat EmptyString
    (hex_of_byte <$> digest (N_of_ascii <$> String.list_ascii_of_string s)).

End Keccak.

(** ** The two patterns of the classifier *)

(** [HARDHAT_OUTPUT_FORMAT_REGEX], a literal between quotation marks. *)
Definition HARDHAT_OUTPUT_FORMAT : string :=
  str dquote +:+ "hh-sol-build-info-1" +:+ str dquote.

(** [NESTED_METADATA_REGEX] is an opening literal, a lazy [.*?] and a
    closing literal. *)
Definition NESTED_OPENING : string :=
  dq "'{\'compiler\':{\'version\'".
Definition NESTED_CLOSING : string :=
  dq "},\'version\':1}'".

(** [.] matches any character but a line terminator. *)
Definition is_line_terminator (c : ascii) : bool :=
  bool_decide (c = LF ∨ c = CR).

(** The shortest run of characters matched by [.*?] that is followed by
    the closing literal, with that literal. *)
Fixpoint lazy_until (closing s : string) : option string :=
  match strip_prefix closing s with
  | Some _ => Some closing
  | None =>
      match s with
      | EmptyString => None
      | String c s' =>
          if is_line_terminator c then None
          else m ← lazy_until closing s'; Some (String c m)
      end
  end.

(** [content.match(NESTED_METADATA_REGEX)]: the leftmost match, [None]
    when there is none. *)
Fixpoint match_nested (s : string) : option string :=
  let here :=
    rest ← strip_prefix NESTED_OPENING s;
    m ← lazy_until NESTED_CLOSING rest;
    Some (NESTED_OPENING +:+ m) in
  match here with
  | Some m => Some m
  | None =>
      match s with
      | EmptyString => None
      | String _ s' => match_nested s'
      end
  end.

(** ** Buffers, archives and directories *)

(** What an archive leaves in its staging directory: regular files,
    directories with their entries in the order [readdirSync] lists
    them, or something that is neither. Every entry exists. *)
Inductive Tree (A : Type) : Type :=
| TFile (a : A)
| TDir (children : list (string * Tree A))
| TOther.
Arguments TFile {A} a.
Arguments TDir {A} children.
Arguments TOther {A}.

(** A buffer is seen through the two things the service does with it:
    [new AdmZip(buffer)] either throws, and then the buffer is read as
    text with [toString()], or succeeds, and then [extractAllTo(tmpDir)]
    leaves a directory, or nothing at all for an archive without
    entries, or throws an error of the library for an archive that is
    damaged. *)
Inductive Buffer : Type :=
| Plain (text : string)
| Zip (extracted : option (list (string * Tree Buffer)))
| Damaged (e : exn).

Record PathBuffer : Type := mkPathBuffer {
  buffer_path : option string;
  buffer : Buffer
}.

(** [Path.join(dir, name)] for a name that [readdirSync] returned. *)
Definition Path_join (dir name : string) : string := dir +:+ "/" +:+ name.

(** What the file system holds at a path that exists: a regular file,
    a directory with its entries in the order [readdirSync] lists them,
    or something that is neither (a link to something that exists, a
    socket). An entry of a directory for which [fs.existsSync] is false,
    a link to nowhere, holds [None]. *)
Inductive Node (A : Type) : Type :=
| NFile (a : A)
| NDir (children : list (string * option (Node A)))
| NOther.
Arguments NFile {A} a.
Arguments NDir {A} children.
Arguments NOther {A}.

Definition nonexistent (path : string) : exn :=
  Error ("Encountered a nonexistent path: " +:+ path).

(** [traversePathRecursively] below a path that exists: the calls of
    [worker], in order. The test of [fs.existsSync] is made again for
    every entry of a directory, and what was visited before it fails is
    lost with the exception. *)
Fixpoint visit {A : Type} (path : string) (n : Node A)
  : result (list (string * A)) :=
  match n with
  | NFile a => Ok [(path, a)]
  | NDir children =>
      (fix each (l : list (string * option (Node A)))
         : result (list (string * A)) :=
         match l with
         | [] => Ok []
         | (nestedName, child) :: l' =>
             let nestedPath := Path_join path nestedName in
             found ← match child with
                     | Some c => visit nestedPath c
                     | None => Throw (nonexistent nestedPath)
                     end;
             rest ← each l';
             Ok (found ++ rest)
         end) children
  | NOther => Ok []
  end.

Definition traversePathRecursively {A : Type} (path : string)
    (node : option (Node A)) : result (list (string * A)) :=
  match node with
  | None => Throw (nonexistent path)
  | Some n => visit path n
  end.

(** The staging directory as the file system holds it. *)
Fixpoint staged {A : Type} (t : Tree A) : Node A :=
  match t with
  | TFile a => NFile a
  | TDir children =>
      NDir ((fix each (l : list (string * Tree A))
               : list (string * option (Node A)) :=
               match l with
               | [] => []
               | (name, child) :: l' => (name, Some (staged child)) :: each l'
               end) children)
  | TOther => NOther
  end.

(** The regular files of a staging directory with their paths, in the
    order of the directories. *)
Fixpoint walk {A : Type} (path : string) (t : Tree A) : list (string * A) :=
  match t with
  | TFile a => [(path, a)]
  | TDir children =>
      (fix each (l : list (string * Tree A)) : list (string * A) :=
         match l with
         | [] => []
         | (nestedName, child) :: l' =>
             walk (Path_join path nestedName) child ++ each l'
         end) children
  | TOther => []
  end.

(** [unzip]: the files of the staging directory, their paths cut after
    the directory name. [stamp] is the time stamp and random number that
    name the directory. The second traversal only removes the files. *)
Definition unzip (stamp : string)
    (extracted : option (list (string * Tree Buffer)))
  : result (list PathBuffer) :=
  let tmpDir := "tmp-unzipped-" +:+ stamp in
  found ← traversePathRecursively tmpDir
            (option_map (λ children, staged (TDir children)) extracted);
  Ok (map (λ f : string * Buffer,
             mkPathBuffer (Some (slice (String.length tmpDir + 1) f.1)) f.2)
          found).

(** The loop of [traverseAndUnzipFiles]. [unzip] appends to the array
    the loop runs over, so the array is a queue: [done] counts the
    archives opened so far and [stamp done] names the next staging
    directory. For a damaged archive [extractAllTo] throws inside
    [unzip], before anything is appended. [None] means that the fuel
    ran out. *)
Fixpoint unzipLoop (fuel : nat) (stamp : nat → string) (done : nat)
    (queue : list PathBuffer) : option (result (list PathBuffer)) :=
  match fuel with
  | O => None
  | S fuel =>
      match queue with
      | [] => Some (Ok [])
      | file :: rest =>
          match buffer file with
          | Zip extracted =>
              match unzip (stamp done) extracted with
              | Ok members => unzipLoop fuel stamp (S done) (rest ++ members)
              | Throw e => Some (Throw e)
              end
          | Damaged e => Some (Throw e)
          | Plain _ =>
              r ← unzipLoop fuel stamp done rest;
              Some (inputFiles ← r; Ok (file :: inputFiles))
          end
      end
  end.

Definition tree_weight {A : Type} (w : A → nat) : Tree A → nat :=
  fix go (t : Tree A) : nat :=
    match t with
    | TFile a => w a
    | TDir children =>
        (fix each (l : list (string * Tree A)) : nat :=
           match l with
           | [] => O
           | (_, child) :: l' => go child + each l'
           end) children
    | TOther => O
    end.

(** The number of buffers in a buffer, itself included. *)
Fixpoint buffer_weight (b : Buffer) : nat :=
  match b with
  | Plain _ => 1
  | Zip None => 1
  | Zip (Some children) => S (tree_weight buffer_weight (TDir children))
  | Damaged _ => 1
  end.

Definition queue_weight (queue : list PathBuffer) : nat :=
  sum_list_with (λ file, buffer_weight (buffer file)) queue.

(** The loop runs once per buffer, so this much fuel is enough
    ([unzipLoop_enough] below). *)
Definition traverseAndUnzipFiles (stamp : nat → string)
    (files : list PathBuffer) : result (list PathBuffer) :=
  default (Ok []) (unzipLoop (S (queue_weight files)) stamp 0 files).

(** [pathBuffer.buffer.toString()] of a buffer that is not an archive. *)
Definition toString (b : Buffer) : string :=
  match b with
  | Plain text => text
  | Zip _ | Damaged _ => EmptyString
  end.

Section Validation.

(** The platform functions the service calls and that compute on
    numbers or bytes are parameters of the development:
    - [keccak256] is [Web3.utils.keccak256] on strings (for the empty
      string the library returns [null], which no declared hash that is
      a string equals: the statements about the hash of a content are
      about contents that are not empty);
    - [keccak256_rejects v] is what the library throws for a value [v]
      that is not a string, which depends on its version;
    - [Number_toString] is [String(n)] for the number a JSON literal
      denotes;
    - [numeric_loose_eq s v] is [s == v] for a number or a boolean [v],
      which compares IEEE doubles. *)
Variable keccak256 : string → string.
Variable keccak256_rejects : JSON → exn.
Variable Number_toString : string → string.
Variable numeric_loose_eq : string → JSON → bool.

(** [Path.resolve] depends on the working directory and is a parameter
    as well. *)
Variable Path_resolve : string → string.

(** [s == v] for a string [s]. *)
Definition loose_eq (s : string) (v : option JSON) : bool :=
  match v with
  | None | Some JNull => false
  | Some (JStr t) => bool_decide (s = t)
  | Some (JArr _ as o) | Some (JObj _ as o) =>
      bool_decide (s = toStr Number_toString o)
  | Some n => numeric_loose_eq s n
  end.

(** [Web3.utils.keccak256(v)]: the library hashes strings and rejects
    every other value a JSON document can hold. The resolver calls it
    on truthy values only. *)
Definition keccak256_any (v : option JSON) : result string :=
  match v with
  | Some (JStr s) => Ok (keccak256 s)
  | Some other => Throw (keccak256_rejects other)
  | None => Throw (keccak256_rejects JNull)
  end.

(** [byHash.get(k)]: the keys of the index are strings, and [Map]
    compares keys without conversion. *)
Definition byHash_get (byHash : gmap string PathContent) (k : option JSON)
  : option PathContent :=
  match k with
  | Some (JStr h) => byHash !! h
  | _ => None
  end.

Definition markFound (st : Rearranged) (sourcePath c : string) : Rearranged :=
  mkRearranged (assign_prop sourcePath c (foundSources st)) (missingSources st)
    (invalidSources st) (metadata2provided st) (queried st).

Definition markMissing (st : Rearranged) (sourcePath : string)
    (m : MissingSource) : Rearranged :=
  mkRearranged (foundSources st) (assign_prop sourcePath m (missingSources st))
    (invalidSources st) (metadata2provided st) (queried st).

Definition markInvalid (st : Rearranged) (sourcePath : string)
    (i : InvalidSource) : Rearranged :=
  mkRearranged (foundSources st) (missingSources st)
    (assign_prop sourcePath i (invalidSources st)) (metadata2provided st)
    (queried st).

Definition markProvided (st : Rearranged) (sourcePath : string)
    (p : option string) : Rearranged :=
  mkRearranged (foundSources st) (missingSources st) (invalidSources st)
    (assign_prop sourcePath p (metadata2provided st)) (queried st).

Definition markQueried (st : Rearranged) (sourcePath : string) : Rearranged :=
  mkRearranged (foundSources st) (missingSources st) (invalidSources st)
    (metadata2provided st) (sourcePath :: queried st).

(** The last statement of the loop body:
    [if (file && file.content) found else missing]. A truthy content is
    a string at this point: the inline one went through [keccak256_any],
    the other one comes from the index. *)
Definition fileOrMissing (st : Rearranged) (sourcePath : string)
    (fileContent expected : option JSON) (info : JSON) : result Rearranged :=
  if truthy fileContent then
    match fileContent with
    | Some (JStr c) => Ok (markFound st sourcePath c)
    | _ => Throw TypeError
    end
  else
    urls ← getProp (Some info) "urls";
    Ok (markMissing st sourcePath (mkMissing expected urls)).

(** One turn of the loop of [rearrangeSources]. *)
Definition resolveSource (byHash : gmap string PathContent)
    (st : Rearranged) (entry : string * JSON) : result Rearranged :=
  let '(sourcePath, sourceInfoFromMetadata) := entry in
  fileContent ← getProp (Some sourceInfoFromMetadata) "content";
  expected ← getProp (Some sourceInfoFromMetadata) "keccak256";
  if truthy fileContent then
    contentHash ← keccak256_any fileContent;
    if negb (loose_eq contentHash expected) then
      Ok (markInvalid st sourcePath
            (mkInvalid expected contentHash mismatch_msg))
    else
      fileOrMissing st sourcePath fileContent expected sourceInfoFromMetadata
  else
    let st := markQueried st sourcePath in
    match byHash_get byHash expected with
    | Some pathContent =>
        fileOrMissing (markProvided st sourcePath (path pathContent))
          sourcePath (Some (JStr (content pathContent))) expected
          sourceInfoFromMetadata
    | None =>
        fileOrMissing st sourcePath fileContent expected
          sourceInfoFromMetadata
    end.

Definition emptyRearranged : Rearranged := mkRearranged ∅ ∅ ∅ ∅ [].

Definition rearrangeSources (metadata : option JSON)
    (byHash : gmap string PathContent) : result Rearranged :=
  sources ← getProp metadata "sources";
  foldM (resolveSource byHash) emptyRearranged (entries sources).

(** *** The hash index *)

(** [storeByHash]: [byHash.set] replaces what the key held. *)
Definition storeByHash (files : list PathContent) : gmap string PathContent :=
  foldl (λ byHash pathContent,
           foldl (λ byHash variation,
                    <[keccak256 (content variation) := variation]> byHash)
                 byHash (generateVariations pathContent))
        ∅ files.

(** *** Classification *)

(** [isMetadata(obj)] throws on [null]. *)
Definition isMetadata (obj : option JSON) : result bool :=
  language ← getProp obj "language";
  match language with
  | Some (JStr l) =>
      if decide (l = "Solidity") then
        compiler ← getProp obj "compiler";
        Ok (truthy compiler)
      else Ok false
  | _ => Ok false
  end.

(** [JSON.parse(v)] turns [v] into a string first. *)
Definition parse (v : JSON) : result JSON :=
  match JSON_parse (toStr Number_toString v) with
  | Some obj => Ok obj
  | None => Throw SyntaxError
  end.

(** [extractMetadataFromString]: whatever is thrown inside is caught;
    [None] is the [null] it returns. *)
Definition extractMetadataFromString (file : JSON) : option JSON :=
  let attempt : result (option JSON) :=
    obj ← parse file;
    first ← isMetadata (Some obj);
    if first : bool then Ok (Some obj)
    else
      obj ← parse obj;
      second ← isMetadata (Some obj);
      if second : bool then Ok (Some obj) else Ok None in
  match attempt with
  | Ok metadata => metadata
  | Throw _ => None
  end.

(** The text a template literal gives for a value. *)
Definition template (v : option JSON) : string :=
  match v with
  | None => "undefined"
  | Some o => toStr Number_toString o
  end.

Definition assertObjectSize (object : option JSON) (expectedSize : nat)
  : result unit :=
  if negb (truthy object) then
    Throw (Error ("Cannot assert for " +:+ template object +:+ "."))
  else
    let objectSize := length (keys (default JNull object)) in
    if decide (objectSize ≠ expectedSize) then
      Throw (Error ("Error in size assertion! Actual size: "
                    +:+ pretty objectSize +:+ ". Expected size: "
                    +:+ pretty expectedSize +:+ "."))
    else Ok ().

(** [extractHardhatMetadataAndSources]. The content of a source is a
    string by the type of [PathContent]; a truthy content of another
    type is rejected here, where the code would carry it along until
    [content.replace] throws. *)
Definition extractHardhatMetadataAndSources (hardhatFile : PathContent)
  : result (list (option JSON) * list PathContent) :=
  hardhatJson ← parse (JStr (content hardhatFile));
  input ← getProp (Some hardhatJson) "input";
  hardhatSourceFilesObject ← getProp input "sources";
  hardhatSourceFiles ←
    foldM (λ (acc : list PathContent) (entry : string * JSON),
             c ← getProp (Some entry.2) "content";
             if truthy c then
               match c with
               | Some (JStr text) =>
                   Ok (acc ++ [mkPathContent (Some entry.1) text])
               | _ => Throw TypeError
               end
             else Ok acc)
          [] (entries hardhatSourceFilesObject);
  output ← getProp (Some hardhatJson) "output";
  contractsObject ← getProp output "contracts";
  hardhatMetadataFiles ←
    foldM (λ (acc : list (option JSON)) (byPath : string * JSON),
             foldM (λ (acc : list (option JSON)) (contract : string * JSON),
                      metadata ← getProp (Some contract.2) "metadata";
                      match metadata with
                      | Some text =>
                          if truthy metadata
                          then Ok (acc ++ [extractMetadataFromString text])
                          else Ok acc
                      | None => Ok acc
                      end)
                   acc (entries (Some byPath.2)))
          [] (entries contractsObject);
  Ok (hardhatMetadataFiles, hardhatSourceFiles).

Record Split : Type := mkSplit {
  metadataFiles : list (option JSON);
  sourceFiles : list PathContent;
  malformedMetadataFiles : list (option string)
}.

(** [Boolean(path)] *)
Definition truthy_path (p : option string) : bool :=
  match p with
  | Some s => bool_decide (s ≠ EmptyString)
  | None => false
  end.

(** The metadata that the loop of [splitFiles] finds in a file that is
    not a build report: the file itself or, failing that, the first
    metadata string nested in it. *)
Definition findMetadata (fileContent : string) : option JSON :=
  let metadata := extractMetadataFromString (JStr fileContent) in
  if truthy metadata then metadata
  else
    match match_nested fileContent with
    | Some matchRes => extractMetadataFromString (JStr matchRes)
    | None => metadata
    end.

(** [this.assertObjectSize(metadata.settings.compilationTarget, 1)],
    the statement that [splitFiles] tries. *)
Definition checkTarget (metadata : option JSON) : result unit :=
  settings ← getProp metadata "settings";
  compilationTarget ← getProp settings "compilationTarget";
  assertObjectSize compilationTarget 1.

(** One turn of the loop of [splitFiles]. *)
Definition classify (st : Split) (file : PathContent) : result Split :=
  if contains HARDHAT_OUTPUT_FORMAT (content file) then
    hardhat ← extractHardhatMetadataAndSources file;
    Ok (mkSplit (metadataFiles st ++ hardhat.1) (sourceFiles st ++ hardhat.2)
          (malformedMetadataFiles st))
  else
    let metadata := findMetadata (content file) in
    if truthy metadata then
      match checkTarget metadata with
      | Ok _ =>
          Ok (mkSplit (metadataFiles st ++ [metadata]) (sourceFiles st)
                (malformedMetadataFiles st))
      | Throw _ =>
          Ok (mkSplit (metadataFiles st) (sourceFiles st)
                (malformedMetadataFiles st ++ [path file]))
      end
    else
      Ok (mkSplit (metadataFiles st) (sourceFiles st ++ [file])
            (malformedMetadataFiles st)).

Definition not_found_msg : string :=
  "Metadata file not found. Did you include " +:+ str dquote
  +:+ "metadata.json" +:+ str dquote +:+ "?".

(** [malformedMetadataFiles.join(", ")], for paths that are all there. *)
Definition join_paths (paths : list (option string)) : string :=
  String.concat ", " (default EmptyString <$> paths).

(** [responsibleFiles]: the paths when every one of them is truthy,
    their number otherwise. *)
Definition responsible (malformed : list (option string)) : string :=
  if forallb truthy_path malformed then join_paths malformed
  else pretty (length malformed) +:+ " metadata files".

Definition splitFiles (files : list PathContent)
  : result (list (option JSON) * list PathContent) :=
  st ← foldM classify (mkSplit [] [] []) files;
  match malformedMetadataFiles st with
  | _ :: _ =>
      Throw (Error ("Malformed settings.compilationTarget in: "
                    +:+ responsible (malformedMetadataFiles st)))
  | [] =>
      match metadataFiles st with
      | [] => Throw (Error not_found_msg)
      | _ :: _ => Ok (metadataFiles st, sourceFiles st)
      end
  end.

(** *** Checked contracts *)

(** Modelled from the spec: the class [CheckedContract] of the core
    package is not part of the sources at hand. A checked contract owns
    one metadata document and the three maps of its sources; it is valid
    when nothing is missing and nothing is invalid. *)
Record CheckedContract : Type := mkCheckedContract {
  metadata : option JSON;
  solidity : gmap string string;
  missing : gmap string MissingSource;
  invalid : gmap string InvalidSource
}.

Definition isValid (c : CheckedContract) : bool :=
  bool_decide (missing c = ∅) && bool_decide (invalid c = ∅).

Definition pathContentArrayToStringMap (pathContentArr : list PathContent)
  : gmap string string :=
  foldl (λ (stringMapResult : gmap string string) (e : nat * PathContent),
           let '(i, elem) := e in
           if truthy_path (path elem)
           then assign_prop (default EmptyString (path elem)) (content elem)
                  stringMapResult
           else assign_prop ("path-" +:+ pretty i) (content elem)
                  stringMapResult)
        ∅ (imap pair pathContentArr).

Definition parsedFiles (unzippedFiles : list PathBuffer) : list PathContent :=
  (λ pathBuffer,
     mkPathContent (buffer_path pathBuffer) (toString (buffer pathBuffer)))
  <$> unzippedFiles.

(** [useAllSources]: [Object.assign(target, source)] assigns every own
    property of the source to the target. The sources of a contract are
    what the resolver found or an earlier widening of that: a map
    without the key [__proto__] ([rearrangeSources_own] and
    [useAllSources_own] below), so that every assignment is an
    insertion and the result is the union in which the contract wins. *)
Definition useAllSources (stamp : nat → string) (contract : CheckedContract)
    (files : list PathBuffer) : result CheckedContract :=
  unzippedFiles ← traverseAndUnzipFiles stamp files;
  split ← splitFiles (parsedFiles unzippedFiles);
  let stringMapSourceFiles := pathContentArrayToStringMap split.2 in
  let stringMapSourceFiles := solidity contract ∪ stringMapSourceFiles in
  Ok (mkCheckedContract (metadata contract) stringMapSourceFiles
        (missing contract) (invalid contract)).

(** [extractUnused]: the paths of the input files that no metadata
    document used, appended to [unused]. *)
Definition extractUnused (inputFiles : list PathContent)
    (usedFiles unused : list (option string)) : list (option string) :=
  unused ++ filter (λ file, file ∉ usedFiles) (path <$> inputFiles).

(** One turn of [metadataFiles.forEach] in [checkFiles]: the contracts
    checked so far and the files used so far. [Object.values] lists the
    provided paths, which only feed a set. *)
Definition checkMetadata (byHash : gmap string PathContent)
    (acc : list CheckedContract * list (option string))
    (metadata : option JSON)
  : result (list CheckedContract * list (option string)) :=
  r ← rearrangeSources metadata byHash;
  let currentUsedFiles := (map_to_list (metadata2provided r)).*2 in
  let checkedContract :=
    mkCheckedContract metadata (foundSources r) (missingSources r)
      (invalidSources r) in
  Ok (acc.1 ++ [checkedContract], acc.2 ++ currentUsedFiles).

(** [checkFiles] returns the contracts and leaves the unused paths in
    the array [unused], when the caller gave one. *)
Definition checkFiles (stamp : nat → string) (files : list PathBuffer)
    (unused : option (list (option string)))
  : result (list CheckedContract * option (list (option string))) :=
  unzippedFiles ← traverseAndUnzipFiles stamp files;
  split ← splitFiles (parsedFiles unzippedFiles);
  let byHash := storeByHash split.2 in
  checked ← foldM (checkMetadata byHash) ([], []) split.1;
  Ok (checked.1, extractUnused split.2 checked.2 <$> unused).

(** *** Reading from the file system *)

(** [fs] gives the node at a path, [None] when nothing exists there. *)

(** The loop of [checkPaths]: the files read so far and the collector
    of the paths that do not exist. The collector is an array of the
    caller: what the loop has pushed to it stays there when the call
    throws, so the loop gives it back beside its outcome. An exception
    of the traversal ends the loop. *)
Fixpoint collectPaths (fs : string → option (Node Buffer))
    (paths : list string) (files : list PathBuffer)
    (ignoring : option (list string))
  : result (list PathBuffer) * option (list string) :=
  match paths with
  | [] => (Ok files, ignoring)
  | path :: rest =>
      match fs path with
      | Some _ =>
          match traversePathRecursively path (fs path) with
          | Ok found =>
              collectPaths fs rest
                (files ++ map (λ f : string * Buffer,
                                 mkPathBuffer (Some (Path_resolve f.1)) f.2)
                              found)
                ignoring
          | Throw e => (Throw e, ignoring)
          end
      | None =>
          collectPaths fs rest files
            ((λ ignored, ignored ++ [path]) <$> ignoring)
      end
  end.

(** [checkPaths]: what the call returns or throws, and the collector
    as the call leaves it. *)
Definition checkPaths (stamp : nat → string)
    (fs : string → option (Node Buffer)) (paths : list string)
    (ignoring : option (list string))
  : result (list CheckedContract) * option (list string) :=
  let collected := collectPaths fs paths [] ignoring in
  (files ← collected.1;
   checked ← checkFiles stamp files None;
   Ok checked.1,
   collected.2).

(** ** The vocabulary of the statements *)

Definition walk_each {A : Type} (path : string)
    (children : list (string * Tree A)) : list (string * A) :=
  children ≫= λ e, walk (Path_join path e.1) e.2.

(** The members of an extracted archive, named from the staging
    directory. *)
Definition members (children : list (string * Tree Buffer)) : list PathBuffer :=
  (λ f, mkPathBuffer (Some (slice 1 f.1)) f.2) <$> walk EmptyString (TDir children).

(** Two runs agree when both return the same value or both throw. *)
Definition agree {A : Type} (r1 r2 : result A) : Prop :=
  match r1, r2 with
  | Ok a1, Ok a2 => a1 = a2
  | Throw _, Throw _ => True
  | _, _ => False
  end.

(** How one turn of the loop changes the three maps. *)
Inductive sorted_into (st : Rearranged) (k : string) (st' : Rearranged) : Prop :=
| into_found c :
    foundSources st' = assign_prop k c (foundSources st) →
    missingSources st' = missingSources st →
    invalidSources st' = invalidSources st →
    sorted_into st k st'
| into_missing m :
    foundSources st' = foundSources st →
    missingSources st' = assign_prop k m (missingSources st) →
    invalidSources st' = invalidSources st →
    sorted_into st k st'
| into_invalid i :
    foundSources st' = foundSources st →
    missingSources st' = missingSources st →
    invalidSources st' = assign_prop k i (invalidSources st) →
    sorted_into st k st'.

(** The three maps sort the paths [ks]. *)
Definition partitioned (st : Rearranged) (ks : list string) : Prop :=
  (dom (foundSources st) ## dom (missingSources st))
  ∧ (dom (foundSources st) ## dom (invalidSources st))
  ∧ (dom (missingSources st) ## dom (invalidSources st))
  ∧ dom (foundSources st) ∪ dom (missingSources st) ∪ dom (invalidSources st)
    = list_to_set ks
  ∧ size (foundSources st) + size (missingSources st) + size (invalidSources st)
    = length ks.

(** The keys that an object created as [{}] can hold as own
    properties after assignments. *)
Definition own_paths (ks : list string) : list string :=
  filter (λ k, k ≠ "__proto__") ks.

Definition sourcePaths (metadata : option JSON) : list string :=
  match getProp metadata "sources" with
  | Ok sources => (entries sources).*1
  | Throw _ => []
  end.

(** What the resolver holds about one source path. *)
Definition about (st : Rearranged) (k : string)
  : option string * option MissingSource * option InvalidSource
    * option (option string) * bool :=
  (foundSources st !! k, missingSources st !! k, invalidSources st !! k,
   metadata2provided st !! k, bool_decide (k ∈ queried st)).

Definition index_variation (byHash : gmap string PathContent)
    (variation : PathContent) : gmap string PathContent :=
  <[keccak256 (content variation) := variation]> byHash.




(** [fs.existsSync(path)] *)
Definition existsSync (fs : string → option (Node Buffer)) (path : string)
  : bool :=
  match fs path with
  | Some _ => true
  | None => false
  end.

(** The contract that [checkFiles] builds for a metadata document. *)
Definition checkedContract (byHash : gmap string PathContent)
    (metadata : option JSON) (c : CheckedContract) : Prop :=
  ∃ r, rearrangeSources metadata byHash = Ok r ∧
       c = mkCheckedContract metadata (foundSources r) (missingSources r)
             (invalidSources r).



(** The source that a build report gives for an entry of
    [input.sources] whose content is a string: none when the string is
    empty. *)
Definition source_of (entry : string * JSON) : option PathContent :=
  match assoc "content" (props_of entry.2) with
  | Some (JStr text) =>
      if decide (text = EmptyString) then None
      else Some (mkPathContent (Some entry.1) text)
  | _ => None
  end.

(** Every content in the sources of a build report is a string, or is
    falsy. *)
Definition typed_contents (sourcesObject : option JSON) : Prop :=
  Forall (λ entry : string * JSON,
            match assoc "content" (props_of entry.2) with
            | Some (JStr _) => True
            | c => truthy c = false
            end)
         (entries sourcesObject).

(** A metadata document with exactly one compilation target. *)
Definition single_target (metadata : option JSON) : Prop :=
  ∃ settings target,
    getProp metadata "settings" = Ok settings
    ∧ getProp settings "compilationTarget" = Ok (Some target)
    ∧ length (keys target) = 1.

Definition isOk {A : Type} (r : result A) : bool :=
  match r with
  | Ok _ => true
  | Throw _ => false
  end.

(** The paths that the loop of [checkPaths] gets to: all of them,
    unless the traversal of one of them throws. *)
Fixpoint reached (fs : string → option (Node Buffer)) (paths : list string)
  : list string :=
  match paths with
  | [] => []
  | path :: rest =>
      path :: match fs path with
              | Some node =>
                  if isOk (visit path node) then reached fs rest else []
              | None => reached fs rest
              end
  end.

(** Does every entry at and below the node exist? *)
Fixpoint intact {A : Type} (n : Node A) : bool :=
  match n with
  | NDir children =>
      (fix each (l : list (string * option (Node A))) : bool :=
         match l with
         | [] => true
         | (_, child) :: l' =>
             match child with
             | Some c => intact c
             | None => false
             end && each l'
         end) children
  | _ => true
  end.

(** The regular files at and below a node, each with the names on the
    way down to it, in the order of the directories. *)
Fixpoint node_segments {A : Type} (n : Node A) : list (list string * A) :=
  match n with
  | NFile a => [([], a)]
  | NDir children =>
      (fix each (l : list (string * option (Node A)))
         : list (list string * A) :=
         match l with
         | [] => []
         | (nestedName, child) :: l' =>
             match child with
             | Some c => (λ f, (nestedName :: f.1, f.2)) <$> node_segments c
             | None => []
             end ++ each l'
         end) children
  | NOther => []
  end.

Definition no_build_report (file : PathContent) : bool :=
  negb (contains HARDHAT_OUTPUT_FORMAT (content file)).

(** A decimal numeral starts with a digit. *)
Definition starts_with_digit (s : string) : Prop :=
  match s with
  | String c _ => is_digit c = true
  | EmptyString => False
  end.

(** Does the character occur in the string? *)
Fixpoint occurs (c : ascii) (s : string) : bool :=
  match s with
  | EmptyString => false
  | String d s' => bool_decide (c = d) || occurs c s'
  end.

Fixpoint all_white (s : string) : bool :=
  match s with
  | EmptyString => true
  | String c s' => is_white c && all_white s'
  end.

Fixpoint last_char (s : string) : option ascii :=
  match s with
  | EmptyString => None
  | String c EmptyString => Some c
  | String _ s' => last_char s'
  end.

(** Does the loop of [splitFiles] find a metadata document in the
    file? *)
Definition has_metadata (file : PathContent) : bool :=
  truthy (findMetadata (content file)).

(** Does the compilation target of that document pass the check? *)
Definition target_ok (file : PathContent) : bool :=
  isOk (checkTarget (findMetadata (content file))).

(** [isZip]: does [new AdmZip(file)] succeed? *)
Definition isZip (file : Buffer) : bool :=
  match file with
  | Zip _ | Damaged _ => true
  | Plain _ => false
  end.

(** The number of buffers within a buffer that are no archives. *)
Fixpoint plain_leaves (b : Buffer) : nat :=
  match b with
  | Plain _ => 1
  | Zip None | Damaged _ => 0
  | Zip (Some children) => tree_weight plain_leaves (TDir children)
  end.

(** What the leaves of a tree give together, in order. *)
Definition tree_collect {A B : Type} (f : A → list B) : Tree A → list B :=
  fix go (t : Tree A) : list B :=
    match t with
    | TFile a => f a
    | TDir children =>
        (fix each (l : list (string * Tree A)) : list B :=
           match l with
           | [] => []
           | (_, child) :: l' => go child ++ each l'
           end) children
    | TOther => []
    end.

(** What is wrong with the archives within a buffer: [None] for an
    archive without entries, the error of the library for a damaged
    one. *)
Fixpoint faults (b : Buffer) : list (option exn) :=
  match b with
  | Plain _ => []
  | Zip None => [None]
  | Zip (Some children) => tree_collect faults (TDir children)
  | Damaged e => [Some e]
  end.

(** The regular files of a tree, each with the names on the way down to
    it, in the order of the directories. *)
Fixpoint segments {A : Type} (t : Tree A) : list (list string * A) :=
  match t with
  | TFile a => [([], a)]
  | TDir children =>
      (fix each (l : list (string * Tree A)) : list (list string * A) :=
         match l with
         | [] => []
         | (nestedName, child) :: l' =>
             ((λ f, (nestedName :: f.1, f.2)) <$> segments child) ++ each l'
         end) children
  | TOther => []
  end.

(** The key under which [pathContentArrayToStringMap] files the element
    at index [i]. *)
Definition stringMap_key (i : nat) (elem : PathContent) : string :=
  if truthy_path (path elem) then default EmptyString (path elem)
  else "path-" +:+ pretty i.

(** Did a metadata document of the batch resolve a source to the file
    at that path? *)
Definition used_by (byHash : gmap string PathContent)
    (mds : list (option JSON)) (file : option string) : Prop :=
  ∃ metadata r sourcePath,
    metadata ∈ mds
    ∧ rearrangeSources metadata byHash = Ok r
    ∧ metadata2provided r !! sourcePath = Some file.

(** * Facts *)

Lemma assign_prop_ne {A : Type} (k : string) (v : A) (m : gmap string A) :
  k ≠ "__proto__" → assign_prop k v m = <[k := v]> m.
Proof. intros Hk. unfold assign_prop. by rewrite decide_False. Qed.

Lemma lookup_assign_prop_ne {A : Type} (k k' : string) (v : A)
    (m : gmap string A) :
  k' ≠ k → assign_prop k' v m !! k = m !! k.
Proof.
  intros Hk. unfold assign_prop. destruct (decide _); [done|].
  by rewrite lookup_insert_ne.
Qed.

Lemma lookup_assign_prop_eq {A : Type} (k : string) (v : A) (m : gmap string A) :
  k ≠ "__proto__" → assign_prop k v m !! k = Some v.
Proof. intros Hk. by rewrite assign_prop_ne, lookup_insert_eq. Qed.

Lemma lookup_assign_prop_proto {A : Type} (k : string) (v : A)
    (m : gmap string A) :
  assign_prop k v m !! "__proto__" = m !! "__proto__".
Proof.
  unfold assign_prop. destruct (decide _) as [|Hk]; [done|].
  by rewrite lookup_insert_ne.
Qed.

Lemma bind_Ok {A B} (m : result A) (f : A → result B) (b : B) :
  m ≫= f = Ok b → ∃ a, m = Ok a ∧ f a = Ok b.
Proof. destruct m as [a|e]; simpl; [eauto | discriminate]. Qed.

Lemma uniq_NoDup ps : NoDup (uniq ps).*1.
Proof.
  induction ps as [|[k v] ps IH]; simpl; [constructor|].
  constructor.
  - intros Hin. apply list_elem_of_fmap in Hin as [kv [-> Hkv]].
    apply list_elem_of_filter in Hkv as [Hne _]. done.
  - clear -IH. induction (uniq ps) as [|[k' v'] l IHl]; simpl; [constructor|].
    inversion IH; subst. rewrite filter_cons. simpl.
    case_decide; simpl; [|by apply IHl].
    constructor; [|by apply IHl].
    intros Hin. apply list_elem_of_fmap in Hin as [kv [-> Hkv]].
    apply list_elem_of_filter in Hkv as [_ Hkv].
    match goal with H : _ ∉ _ |- _ => apply H end.
    apply list_elem_of_fmap. eauto.
Qed.

(** Induction on directory trees, with the hypothesis on every child. *)
Lemma Tree_forall_ind {A : Type} (P : Tree A → Prop) :
  (∀ a, P (TFile a)) →
  (∀ children, Forall (λ e, P e.2) children → P (TDir children)) →
  P TOther →
  ∀ t, P t.
Proof.
  intros Hfile Hdir Hother.
  fix go 1. intros [a|children|]; [apply Hfile| |apply Hother].
  apply Hdir. induction children as [|[name child] children IH];
    constructor; [apply go|apply IH].
Qed.

Lemma walk_TDir {A : Type} path (children : list (string * Tree A)) :
  walk path (TDir children) = walk_each path children.
Proof.
  unfold walk_each. cbn [walk].
  induction children as [|[name child] children IH]; [done|].
  rewrite IH. done.
Qed.

Lemma append_assoc (a b c : string) : (a +:+ b) +:+ c = a +:+ (b +:+ c).
Proof.
  induction a as [|x a IH]; [done|].
  change (String x ((a +:+ b) +:+ c) = String x (a +:+ (b +:+ c))). by f_equal.
Qed.

(** The paths below [p +:+ q] are the paths below [q], with [p] in
    front. *)
Lemma walk_prefix {A : Type} (p q : string) (t : Tree A) :
  walk (p +:+ q) t = (λ f, (p +:+ f.1, f.2)) <$> walk q t.
Proof.
  revert q. induction t as [a|children IH|] using Tree_forall_ind;
    intros q; [done| |done].
  rewrite !walk_TDir. unfold walk_each.
  induction children as [|[name child] children IHc]; [done|].
  apply Forall_cons in IH as [IH1 IH]. cbn [mbind list_bind fst snd] in *.
  rewrite fmap_app, <- IHc by done. f_equal.
  unfold Path_join. rewrite append_assoc. apply IH1.
Qed.

Lemma append_nil_r (s : string) : s +:+ EmptyString = s.
Proof.
  induction s as [|c s IH]; [done|].
  change (String c (s +:+ EmptyString) = String c s). by f_equal.
Qed.

Lemma slice_S_append (p s : string) :
  slice (String.length p + 1) (p +:+ s) = slice 1 s.
Proof. induction p as [|c p IH]; [done|]. apply IH. Qed.

Lemma walk_from_root {A : Type} (p : string) (t : Tree A) :
  walk p t = (λ f, (p +:+ f.1, f.2)) <$> walk EmptyString t.
Proof. rewrite <- (append_nil_r p) at 1. apply walk_prefix. Qed.

Lemma staged_TDir {A : Type} (children : list (string * Tree A)) :
  staged (TDir children) = NDir ((λ e, (e.1, Some (staged e.2))) <$> children).
Proof.
  cbn [staged]. f_equal.
  induction children as [|[name child] children IH]; [done|].
  rewrite IH. done.
Qed.

(** The traversal of a staging directory does not throw. *)
Lemma visit_staged {A : Type} (path : string) (t : Tree A) :
  visit path (staged t) = Ok (walk path t).
Proof.
  revert path. induction t as [a|children IH|] using Tree_forall_ind;
    intros path; [done| |done].
  rewrite staged_TDir, walk_TDir. unfold walk_each. cbn [visit].
  induction children as [|[name child] children IHc]; [done|].
  apply Forall_cons in IH as [IH1 IH].
  cbn [fmap list_fmap mbind list_bind fst snd] in *.
  rewrite IH1. cbn [mbind result_bind]. rewrite IHc by done. done.
Qed.

Lemma unzip_members stamp children :
  unzip stamp (Some children) = Ok (members children).
Proof.
  unfold unzip, members, traversePathRecursively, option_map.
  rewrite visit_staged. cbn [mbind result_bind]. f_equal.
  rewrite (walk_from_root ("tmp-unzipped-" +:+ stamp)).
  change map with (@fmap list _). rewrite <- list_fmap_compose.
  apply list_fmap_ext. intros i [f b] _. cbn [compose fst snd]. f_equal.
  f_equal. apply slice_S_append.
Qed.

Lemma unzip_nothing stamp :
  unzip stamp None
  = Throw (Error ("Encountered a nonexistent path: tmp-unzipped-" +:+ stamp)).
Proof. done. Qed.

Lemma agree_refl {A : Type} (r : result A) : agree r r.
Proof. by destruct r. Qed.

Lemma agree_bind {A B : Type} (r1 r2 : result A) (f : A → result B) :
  agree r1 r2 → agree (r1 ≫= f) (r2 ≫= f).
Proof. destruct r1, r2; cbn; try done. intros ->. apply agree_refl. Qed.

Lemma walk_weight (w : Buffer → nat) path (t : Tree Buffer) :
  sum_list_with (λ f, w f.2) (walk path t) = tree_weight w t.
Proof.
  revert path. induction t as [a|children IH|] using Tree_forall_ind;
    intros path; [cbn; lia| |done].
  rewrite walk_TDir. unfold walk_each. cbn [tree_weight].
  induction children as [|[name child] children IHc]; [done|].
  apply Forall_cons in IH as [IH1 IH]. cbn [mbind list_bind fst snd] in *.
  rewrite sum_list_with_app, IH1, IHc by done. done.
Qed.

Lemma members_weight children :
  queue_weight (members children) = tree_weight buffer_weight (TDir children).
Proof.
  unfold queue_weight, members.
  rewrite <- (walk_weight buffer_weight EmptyString (TDir children)).
  induction (walk EmptyString (TDir children)) as [|f l IH]; [done|].
  cbn. by rewrite <- IH.
Qed.

Lemma queue_weight_app q1 q2 :
  queue_weight (q1 ++ q2) = queue_weight q1 + queue_weight q2.
Proof. apply sum_list_with_app. Qed.

Lemma buffer_weight_pos b : 0 < buffer_weight b.
Proof. destruct b as [|[|]|]; cbn; lia. Qed.

(** The fuel [traverseAndUnzipFiles] gives is enough. *)
Lemma unzipLoop_enough fuel stamp done queue :
  queue_weight queue < fuel → is_Some (unzipLoop fuel stamp done queue).
Proof.
  revert done queue. induction fuel as [|fuel IH]; intros done queue Hw; [lia|].
  destruct queue as [|[p b] rest]; [by eexists|]. cbn [unzipLoop buffer].
  change (buffer_weight b + queue_weight rest < S fuel) in Hw.
  destruct b as [text|[children|]|e].
  - destruct (IH done rest) as [r Hr]; [cbn in Hw; lia|]. rewrite Hr. by eexists.
  - rewrite unzip_members. apply IH.
    rewrite queue_weight_app, members_weight. cbn in Hw. cbn. lia.
  - by eexists.
  - by eexists.
Qed.

(** The names of the staging directories do not show in what the loop
    returns. *)
Lemma unzipLoop_stamp fuel stamp1 done1 stamp2 done2 queue :
  match unzipLoop fuel stamp1 done1 queue, unzipLoop fuel stamp2 done2 queue with
  | Some r1, Some r2 => agree r1 r2
  | None, None => True
  | _, _ => False
  end.
Proof.
  revert done1 done2 queue. induction fuel as [|fuel IH];
    intros done1 done2 queue; [done|].
  destruct queue as [|[p b] rest]; [done|]. cbn [unzipLoop buffer].
  destruct b as [text|[children|]|e].
  - specialize (IH done1 done2 rest).
    destruct (unzipLoop fuel stamp1 done1 rest) as [r1|],
             (unzipLoop fuel stamp2 done2 rest) as [r2|]; try done.
    cbn. by apply agree_bind.
  - rewrite !unzip_members. apply IH.
  - done.
  - done.
Qed.

Lemma traverseAndUnzipFiles_stamp stamp1 stamp2 files :
  agree (traverseAndUnzipFiles stamp1 files) (traverseAndUnzipFiles stamp2 files).
Proof.
  unfold traverseAndUnzipFiles.
  pose proof (unzipLoop_stamp (S (queue_weight files)) stamp1 0 stamp2 0 files) as H.
  destruct (unzipLoop _ stamp1 _ _), (unzipLoop _ stamp2 _ _); try done.
Qed.

Lemma fileOrMissing_sorted st k c e info st' :
  fileOrMissing st k c e info = Ok st' → sorted_into st k st'.
Proof.
  unfold fileOrMissing. destruct (truthy c).
  - destruct c as [[| | |s| |]|]; try discriminate.
    intros [= <-]. by eapply into_found.
  - intros H. apply bind_Ok in H as (urls & _ & [= <-]).
    by eapply into_missing.
Qed.

Lemma resolveSource_sorted byHash st k info st' :
  resolveSource byHash st (k, info) = Ok st' → sorted_into st k st'.
Proof.
  unfold resolveSource. intros H.
  apply bind_Ok in H as (c & _ & H). apply bind_Ok in H as (e & _ & H).
  destruct (truthy c).
  - apply bind_Ok in H as (h & _ & H).
    destruct (negb _).
    + injection H as <-. by eapply into_invalid.
    + by eapply fileOrMissing_sorted.
  - destruct (byHash_get _ _) as [pc|];
      apply fileOrMissing_sorted in H; destruct H; simpl in *;
      [eapply into_found|eapply into_missing|eapply into_invalid
      |eapply into_found|eapply into_missing|eapply into_invalid]; eauto.
Qed.

Lemma sorted_partitioned st k st' ks :
  k ∉ ks → partitioned st ks → sorted_into st k st' →
  partitioned st' (ks ++ own_paths [k]).
Proof.
  (* the solvers below would otherwise depend on the parameters *)
  clear keccak256 keccak256_rejects Number_toString numeric_loose_eq Path_resolve.
  intros Hk (D1 & D2 & D3 & U & N) Hs. unfold own_paths.
  rewrite filter_cons, filter_nil.
  destruct (decide (k = "__proto__")) as [->|Hown].
  { rewrite decide_False by (by intros ?). rewrite app_nil_r.
    assert (foundSources st' = foundSources st
            ∧ missingSources st' = missingSources st
            ∧ invalidSources st' = invalidSources st) as (Hf & Hm & Hi)
      by (by destruct Hs as [c -> -> ->|m -> -> ->|i -> -> ->]).
    unfold partitioned. rewrite Hf, Hm, Hi. done. }
  rewrite decide_True by done.
  assert ((k ∉ dom (foundSources st)) ∧ (k ∉ dom (missingSources st))
          ∧ (k ∉ dom (invalidSources st))) as (F & M & I).
  { assert (k ∉ (list_to_set ks : gset string)) as Hn
      by (by rewrite elem_of_list_to_set).
    rewrite <- U in Hn. rewrite !not_elem_of_union in Hn. tauto. }
  unfold partitioned. rewrite list_to_set_app_L, length_app, <- U. simpl.
  rewrite union_empty_r_L.
  destruct Hs as [c -> -> ->|m -> -> ->|i -> -> ->];
    rewrite assign_prop_ne by done;
    rewrite ?dom_insert_L;
    rewrite map_size_insert_None by (by apply not_elem_of_dom);
    (split; [|split; [|split; [|split]]]); try lia; set_solver.
Qed.

Lemma own_paths_app (ks1 ks2 : list string) :
  own_paths (ks1 ++ ks2) = own_paths ks1 ++ own_paths ks2.
Proof. apply filter_app. Qed.

Lemma foldM_resolve_partitioned byHash l st st' ks :
  NoDup (ks ++ l.*1) → partitioned st (own_paths ks) →
  foldM (resolveSource byHash) st l = Ok st' →
  partitioned st' (own_paths (ks ++ l.*1)).
Proof.
  revert st ks. induction l as [|[k v] l IH]; intros st ks ND P H.
  - injection H as <-. by rewrite app_nil_r.
  - cbn [foldM] in H. apply bind_Ok in H as (st1 & H1 & H).
    apply resolveSource_sorted in H1.
    rewrite fmap_cons, cons_middle, app_assoc in ND |- *. cbn [fst] in *.
    apply (IH st1); [done| |done]. rewrite own_paths_app.
    apply (sorted_partitioned st); [|done..].
    apply NoDup_app in ND as (ND & _ & _).
    apply NoDup_app in ND as (_ & ND & _).
    intros Hin. apply list_elem_of_filter in Hin as [_ Hin].
    eapply ND; [done|]. by left.
Qed.

(** X26. The source paths of the three maps that [rearrangeSources]
    returns are pairwise disjoint, together they are the paths that the
    metadata document declares, the path [__proto__] left aside, and so
    the three maps have as many entries as the document has such
    sources. *)
Theorem rearrangeSources_partition (metadata : option JSON)
    (byHash : gmap string PathContent) (r : Rearranged) :
  rearrangeSources metadata byHash = Ok r →
  (dom (foundSources r) ## dom (missingSources r))
  ∧ (dom (foundSources r) ## dom (invalidSources r))
  ∧ (dom (missingSources r) ## dom (invalidSources r))
  ∧ dom (foundSources r) ∪ dom (missingSources r) ∪ dom (invalidSources r)
    = list_to_set (own_paths (sourcePaths metadata))
  ∧ size (foundSources r) + size (missingSources r) + size (invalidSources r)
    = length (own_paths (sourcePaths metadata)).
Proof.
  unfold rearrangeSources, sourcePaths. intros H.
  apply bind_Ok in H as (sources & -> & H).
  apply (foldM_resolve_partitioned _ _ _ _ []) in H; [done| |].
  - simpl. destruct sources; simpl; [apply uniq_NoDup|constructor].
  - unfold partitioned. simpl. rewrite !dom_empty_L, !map_size_empty.
    set_solver.
Qed.

Lemma fileOrMissing_other st k k' c e info st' :
  k' ≠ k → fileOrMissing st k' c e info = Ok st' → about st' k = about st k.
Proof.
  intros Hne. unfold fileOrMissing, about. destruct (truthy c).
  - destruct c as [[| | |s| |]|]; try discriminate.
    intros [= <-]. simpl. by rewrite lookup_assign_prop_ne.
  - intros H. apply bind_Ok in H as (urls & _ & [= <-]). simpl.
    by rewrite lookup_assign_prop_ne.
Qed.

Lemma resolveSource_other byHash st k k' info st' :
  k' ≠ k → resolveSource byHash st (k', info) = Ok st' →
  about st' k = about st k.
Proof.
  clear Path_resolve.
  intros Hne. unfold resolveSource. intros H.
  apply bind_Ok in H as (c & _ & H). apply bind_Ok in H as (e & _ & H).
  destruct (truthy c).
  - apply bind_Ok in H as (h & _ & H). destruct (negb _).
    + injection H as <-. unfold about. simpl. by rewrite lookup_assign_prop_ne.
    + by eapply fileOrMissing_other.
  - assert (∀ st0, about (markQueried st0 k') k = about st0 k) as Hq.
    { intros st0. unfold about. simpl. do 4 f_equal.
      apply bool_decide_ext. rewrite elem_of_cons. intuition congruence. }
    destruct (byHash_get _ _) as [pc|];
      apply (fileOrMissing_other _ k) in H; try done; rewrite H.
    + rewrite <- (Hq st). unfold about. simpl. by rewrite lookup_assign_prop_ne.
    + apply Hq.
Qed.

Lemma foldM_resolve_other byHash l st st' k :
  k ∉ l.*1 → foldM (resolveSource byHash) st l = Ok st' →
  about st' k = about st k.
Proof.
  revert st. induction l as [|[k' v] l IH]; intros st Hk H; simpl in *.
  - by injection H as <-.
  - apply bind_Ok in H as (st1 & H1 & H).
    apply not_elem_of_cons in Hk as [Hne Hk].
    rewrite (IH _ Hk H). eapply resolveSource_other; [|done]. done.
Qed.

Lemma resolveSource_mismatch byHash st k info c expected :
  getProp (Some info) "content" = Ok (Some (JStr c)) → c ≠ EmptyString →
  getProp (Some info) "keccak256" = Ok expected →
  loose_eq (keccak256 c) expected = false →
  resolveSource byHash st (k, info)
  = Ok (markInvalid st k (mkInvalid expected (keccak256 c) mismatch_msg)).
Proof.
  intros Hc Hne He Hl. unfold resolveSource. rewrite Hc, He. simpl.
  rewrite bool_decide_true by done. simpl. by rewrite Hl.
Qed.

(** C3 (amended). A source declared under a path other than
    [__proto__], with a non-empty inline content whose keccak256 hash is
    not the declared one, is recorded as invalid, with the declared and
    the calculated hash; it is neither found nor missing, no provided
    path is recorded for it, and the index is not asked about it. *)
Theorem inline_mismatch_is_invalid (metadata : option JSON)
    (byHash : gmap string PathContent) (r : Rearranged)
    (sources : option JSON) (sourcePath : string) (info : JSON)
    (c : string) (expected : option JSON) :
  rearrangeSources metadata byHash = Ok r →
  getProp metadata "sources" = Ok sources →
  (sourcePath, info) ∈ entries sources →
  sourcePath ≠ "__proto__" →
  getProp (Some info) "content" = Ok (Some (JStr c)) → c ≠ EmptyString →
  getProp (Some info) "keccak256" = Ok expected →
  loose_eq (keccak256 c) expected = false →
  invalidSources r !! sourcePath
    = Some (mkInvalid expected (keccak256 c) mismatch_msg) ∧
  foundSources r !! sourcePath = None ∧
  missingSources r !! sourcePath = None ∧
  metadata2provided r !! sourcePath = None ∧
  sourcePath ∉ queried r.
Proof.
  intros H Hs Hin Hown Hc Hne He Hl. unfold rearrangeSources in H.
  rewrite Hs in H. simpl in H.
  assert (NoDup (entries sources).*1) as ND.
  { destruct sources; simpl; [apply uniq_NoDup|constructor]. }
  apply list_elem_of_split in Hin as (l1 & l2 & Heq).
  rewrite Heq in H, ND. clear Heq.
  rewrite fmap_app, fmap_cons in ND. simpl in ND.
  apply NoDup_app in ND as (_ & ND1 & ND2).
  apply NoDup_cons in ND2 as [ND2 _].
  assert (∀ st st', foldM (resolveSource byHash) st (l1 ++ (sourcePath, info) :: l2) = Ok st' →
     ∃ st1, foldM (resolveSource byHash) st l1 = Ok st1 ∧
            foldM (resolveSource byHash) st1 ((sourcePath, info) :: l2) = Ok st')
    as Hsplit.
  { clear. induction l1 as [|a l1 IH]; intros st st' H; simpl in *; [eauto|].
    apply bind_Ok in H as (s1 & -> & H). simpl. by apply IH. }
  apply Hsplit in H as (st1 & H1 & H2). cbn [foldM] in H2.
  apply bind_Ok in H2 as (st2 & Hstep & H2).
  rewrite (resolveSource_mismatch _ _ _ _ c expected) in Hstep by done.
  injection Hstep as <-.
  apply (foldM_resolve_other _ _ _ _ sourcePath) in H1;
    [|intros ?; eapply ND1; [done|by left]].
  apply (foldM_resolve_other _ _ _ _ sourcePath) in H2; [|done].
  unfold about in H1, H2. cbn in H1, H2.
  rewrite lookup_assign_prop_eq in H2 by done. rewrite !lookup_empty in H1.
  injection H1 as F1 M1 I1 P1 Q1. injection H2 as F2 M2 I2 P2 Q2.
  rewrite F2, M2, I2, P2, F1, M1, P1. repeat split; try done.
  intros Hq. apply (bool_decide_pack _) in Hq. rewrite Q2, Q1 in Hq.
  exact Hq.
Qed.

Lemma storeByHash_flat files :
  storeByHash files = foldl index_variation ∅ (files ≫= generateVariations).
Proof.
  unfold storeByHash. generalize (∅ : gmap string PathContent).
  induction files as [|pc files IH]; intros m; [done|].
  cbn [foldl]. rewrite IH. change ((pc :: files) ≫= generateVariations)
    with (generateVariations pc ++ (files ≫= generateVariations)).
  by rewrite foldl_app.
Qed.

Lemma foldl_index_lookup (vs : list PathContent) m h :
  foldl index_variation m vs !! h
  = match last (filter (λ v, keccak256 (content v) = h) vs) with
    | Some v => Some v
    | None => m !! h
    end.
Proof.
  revert m. induction vs as [|v vs IH] using rev_ind; intros m; [done|].
  rewrite foldl_app, filter_app. cbn [foldl]. unfold index_variation at 1.
  rewrite filter_cons, filter_nil. case_decide as Hh.
  - rewrite last_snoc. subst h. by rewrite lookup_insert_eq.
  - rewrite app_nil_r, lookup_insert_ne by done. apply IH.
Qed.


(** ** Running the whole service *)





(** C9. Two runs of [checkFiles] on the same sequence of buffers agree,
    whatever the names of the staging directories: both return the same
    checked contracts and the same unused paths, or both throw. *)
Theorem checkFiles_deterministic (stamp1 stamp2 : nat → string)
    (files : list PathBuffer) (unused : option (list (option string))) :
  agree (checkFiles stamp1 files unused) (checkFiles stamp2 files unused).
Proof.
  unfold checkFiles. apply agree_bind, traverseAndUnzipFiles_stamp.
Qed.

(** C6. Widening keeps every verified source as it is, changes nothing
    else of the contract but the sources, and widening the result again
    with the same files returns the same contract. *)
Theorem useAllSources_keeps_verified (stamp stamp' : nat → string)
    (contract contract' : CheckedContract) (files : list PathBuffer) :
  useAllSources stamp contract files = Ok contract' →
  (∀ sourcePath verified,
     solidity contract !! sourcePath = Some verified →
     solidity contract' !! sourcePath = Some verified)
  ∧ metadata contract' = metadata contract
  ∧ missing contract' = missing contract
  ∧ invalid contract' = invalid contract
  ∧ useAllSources stamp' contract' files = Ok contract'.
Proof.
  unfold useAllSources. intros H.
  pose proof (traverseAndUnzipFiles_stamp stamp stamp' files) as Hs.
  destruct (traverseAndUnzipFiles stamp files) as [unzipped|]; [|done].
  destruct (traverseAndUnzipFiles stamp' files) as [unzipped'|]; [|done].
  cbn in Hs. subst unzipped'. cbn [mbind result_bind] in *.
  destruct (splitFiles _) as [split|]; [|done].
  cbn [mbind result_bind] in *. injection H as <-. cbn.
  repeat split.
  - intros p v Hp. by apply lookup_union_Some_l.
  - by rewrite <- (assoc_L (∪)), (idemp_L (∪)).
Qed.




(** ** Reading paths *)

Lemma existsSync_Some fs p node : fs p = Some node → existsSync fs p = true.
Proof. unfold existsSync. by intros ->. Qed.

Lemma existsSync_None fs p : fs p = None → existsSync fs p = false.
Proof. unfold existsSync. by intros ->. Qed.

(** What the loop leaves in the collector. *)
Lemma collectPaths_collector fs paths files ignoring :
  (collectPaths fs paths files ignoring).2
  = (λ ignored,
       ignored ++ filter (λ p, ¬ existsSync fs p) (reached fs paths))
    <$> ignoring.
Proof.
  revert files ignoring. induction paths as [|p paths IH]; intros files ig.
  { destruct ig; cbn; by rewrite ?app_nil_r. }
  cbn [collectPaths reached]. rewrite filter_cons.
  destruct (fs p) as [node|] eqn:Hp.
  - rewrite decide_False
      by (rewrite (existsSync_Some _ _ _ Hp); intros Hn; by apply Hn).
    cbn [traversePathRecursively].
    destruct (visit p node) as [found|e]; cbn [isOk].
    + apply IH.
    + destruct ig; cbn; by rewrite ?app_nil_r.
  - rewrite decide_True by (by rewrite (existsSync_None _ _ Hp); intros ?).
    rewrite IH. destruct ig; cbn; [|done]. by rewrite <- app_assoc.
Qed.

(** What the loop reads does not depend on the paths that do not exist
    nor on the collector. *)
Lemma collectPaths_files fs paths files ignoring :
  (collectPaths fs paths files ignoring).1
  = (collectPaths fs (filter (λ p, existsSync fs p) paths) files None).1.
Proof.
  revert files ignoring. induction paths as [|p paths IH]; intros files ig.
  { done. }
  rewrite filter_cons. cbn [collectPaths].
  destruct (fs p) as [node|] eqn:Hp.
  - rewrite decide_True by (by rewrite (existsSync_Some _ _ _ Hp)).
    cbn [collectPaths]. rewrite Hp.
    destruct (traversePathRecursively p (Some node)); [apply IH|done].
  - rewrite decide_False by (by rewrite (existsSync_None _ _ Hp); intros ?).
    apply IH.
Qed.

Lemma reached_all fs paths :
  Forall (λ p, ∀ node, fs p = Some node → isOk (visit p node) = true) paths →
  reached fs paths = paths.
Proof.
  induction 1 as [|p paths Hp _ IH]; [done|]. cbn [reached]. f_equal.
  destruct (fs p) as [node|]; [|done]. by rewrite (Hp node).
Qed.

(** C5 (amended). A path that does not exist is skipped: what the call
    returns or throws is what it returns or throws without the path,
    with or without a collector. With a collector, the paths that do
    not exist among those the loop gets to are appended to it, in
    order, also when the call throws; the loop gets to every path
    unless the traversal of one of them throws. *)
Theorem checkPaths_skips_missing (stamp : nat → string)
    (fs : string → option (Node Buffer)) (paths : list string) :
  (∀ ignoring,
     (checkPaths stamp fs paths ignoring).1
     = (checkPaths stamp fs (filter (λ p, existsSync fs p) paths) None).1)
  ∧ (checkPaths stamp fs paths None).2 = None
  ∧ (∀ ignoring,
       (checkPaths stamp fs paths (Some ignoring)).2
       = Some (ignoring
               ++ filter (λ p, ¬ existsSync fs p) (reached fs paths)))
  ∧ (Forall (λ p, ∀ node, fs p = Some node → isOk (visit p node) = true)
            paths →
     reached fs paths = paths).
Proof.
  unfold checkPaths. cbn [fst snd]. split; [|split; [|split]].
  - intros ignoring. by rewrite collectPaths_files.
  - by rewrite collectPaths_collector.
  - intros ignoring. by rewrite collectPaths_collector.
  - apply reached_all.
Qed.

(** ** Recognising metadata *)

Lemma pretty_N_char_digit (x : N) : is_digit (pretty_N_char x) = true.
Proof. unfold pretty_N_char. by repeat case_match. Qed.

Lemma pretty_N_go_digit (x : N) (s : string) :
  starts_with_digit s → starts_with_digit (pretty_N_go x s).
Proof.
  revert s. induction (N.lt_wf_0 x) as [x _ IH]. intros s Hs.
  destruct (decide (x = 0)%N) as [->|Hx]; [done|].
  rewrite pretty_N_go_step by lia. apply IH.
  - apply N.div_lt; lia.
  - apply pretty_N_char_digit.
Qed.

Lemma pretty_nat_digit (n : nat) : starts_with_digit (pretty n).
Proof.
  unfold pretty, pretty_nat, pretty, pretty_N. case_decide; [done|].
  rewrite pretty_N_go_step by lia. apply pretty_N_go_digit, pretty_N_char_digit.
Qed.

(** An index is not a name: arrays and strings have no property of a
    name that does not start with a digit. *)
Lemma assoc_indexed (k : string) (l : list JSON) :
  ¬ starts_with_digit k → assoc k (indexed l) = None.
Proof.
  intros Hk. unfold indexed.
  cut (∀ g : nat → nat, assoc k (imap (λ i v, (pretty (g i), v)) l) = None).
  { intros H. apply (H id). }
  induction l as [|v l IH]; intros g; [done|].
  cbn [imap assoc]. rewrite decide_False.
  - apply (IH (g ∘ S)).
  - intros ->. apply Hk, pretty_nat_digit.
Qed.

Lemma isMetadata_string (s : string) : isMetadata (Some (JStr s)) = Ok false.
Proof.
  unfold isMetadata, getProp. cbn [props_of mbind result_bind].
  by rewrite assoc_indexed by (cbn; done).
Qed.

Lemma isMetadata_object (obj : JSON) :
  isMetadata (Some obj) = Ok true → ∃ props, obj = JObj props.
Proof.
  unfold isMetadata, getProp. destruct obj as [| | |s|items|props]; try done.
  - cbn [props_of mbind result_bind]. by rewrite assoc_indexed by (cbn; done).
  - cbn [props_of mbind result_bind]. by rewrite assoc_indexed by (cbn; done).
  - eauto.
Qed.

Lemma parse_string (s : string) :
  parse (JStr s) = match JSON_parse s with
                   | Some obj => Ok obj
                   | None => Throw SyntaxError
                   end.
Proof. done. Qed.

Lemma parse_object (props : list (string * JSON)) :
  parse (JObj props) = Throw SyntaxError.
Proof. done. Qed.

(** A string that holds the text of a metadata document is unwrapped
    once. *)
Lemma extract_double_encoded (text inner : string) (obj : JSON) :
  JSON_parse text = Some (JStr inner) →
  JSON_parse inner = Some obj →
  isMetadata (Some obj) = Ok true →
  extractMetadataFromString (JStr text) = Some obj.
Proof.
  intros H1 H2 Hm. unfold extractMetadataFromString.
  rewrite parse_string, H1. cbn [mbind result_bind].
  rewrite isMetadata_string. cbn [mbind result_bind].
  rewrite parse_string, H2. cbn [mbind result_bind]. by rewrite Hm.
Qed.

(** An object without the two fields is no metadata, directly or
    unwrapped. *)
Lemma extract_other_object (text inner : string) (props : list (string * JSON)) :
  JSON_parse text = Some (JObj props)
  ∨ (JSON_parse text = Some (JStr inner)
     ∧ JSON_parse inner = Some (JObj props)) →
  isMetadata (Some (JObj props)) = Ok false →
  extractMetadataFromString (JStr text) = None.
Proof.
  intros [H1|[H1 H2]] Hm; unfold extractMetadataFromString;
    rewrite parse_string, H1; cbn [mbind result_bind].
  - rewrite Hm. cbn [mbind result_bind]. by rewrite parse_object.
  - rewrite isMetadata_string. cbn [mbind result_bind].
    rewrite parse_string, H2. cbn [mbind result_bind]. by rewrite Hm.
Qed.

(** C8 (amended). A file that holds, as a JSON string, the text of an
    object with the language Solidity and a truthy compiler is a
    metadata document after one unwrapping, and the classifier, unless
    it sees the build report marker, files it under the metadata
    documents or the malformed ones. A file that parses, directly or
    after one unwrapping, to an object without these fields is no
    metadata document by itself; the classifier files it under the
    sources when it holds neither the build report marker nor a nested
    metadata string. *)
Theorem classification_of_json_files (st : Split) (file : PathContent)
    (inner : string) (obj : JSON) (props : list (string * JSON)) :
  (JSON_parse (content file) = Some (JStr inner) →
   JSON_parse inner = Some obj →
   isMetadata (Some obj) = Ok true →
   extractMetadataFromString (JStr (content file)) = Some obj
   ∧ (contains HARDHAT_OUTPUT_FORMAT (content file) = false →
      classify st file
      = Ok (mkSplit (metadataFiles st ++ [Some obj]) (sourceFiles st)
              (malformedMetadataFiles st))
      ∨ classify st file
        = Ok (mkSplit (metadataFiles st) (sourceFiles st)
                (malformedMetadataFiles st ++ [path file]))))
  ∧ (JSON_parse (content file) = Some (JObj props)
     ∨ (JSON_parse (content file) = Some (JStr inner)
        ∧ JSON_parse inner = Some (JObj props)) →
     isMetadata (Some (JObj props)) = Ok false →
     extractMetadataFromString (JStr (content file)) = None
     ∧ (contains HARDHAT_OUTPUT_FORMAT (content file) = false →
        (∀ matchRes, match_nested (content file) = Some matchRes →
                     extractMetadataFromString (JStr matchRes) = None) →
        classify st file
        = Ok (mkSplit (metadataFiles st) (sourceFiles st ++ [file])
                (malformedMetadataFiles st)))).
Proof.
  split.
  - intros H1 H2 Hm.
    pose proof (extract_double_encoded _ _ _ H1 H2 Hm) as He.
    split; [done|]. intros Hh.
    destruct (isMetadata_object obj Hm) as [ps ->].
    unfold classify. rewrite Hh. unfold findMetadata. rewrite He.
    cbn [truthy]. destruct (checkTarget _); auto.
  - intros Hp Hm.
    pose proof (extract_other_object _ _ _ Hp Hm) as He.
    split; [done|]. intros Hh Hn.
    unfold classify. rewrite Hh. unfold findMetadata. rewrite He.
    cbn [truthy]. destruct (match_nested _) as [m|]; [|done].
    by rewrite (Hn m).
Qed.

(** ** The compilation target *)

Lemma assertObjectSize_one (target : option JSON) :
  assertObjectSize target 1 = Ok ()
  ↔ ∃ t, target = Some t ∧ length (keys t) = 1.
Proof.
  unfold assertObjectSize. split.
  - destruct (truthy target) eqn:Ht; [|done]. cbn [negb].
    case_decide as Hs; [done|]. intros _.
    destruct target as [t|]; [|done]. exists t. split; [done|].
    cbn [default] in Hs. by destruct (decide (length (keys t) = 1)).
  - intros (t & -> & Hl).
    assert (truthy (Some t) = true) as ->.
    { destruct t as [| | |s| |]; try done.
      destruct s; [done|]. done. }
    cbn [negb default]. by rewrite decide_False by (intros ?; done).
Qed.

Lemma checkTarget_single (metadata : option JSON) :
  checkTarget metadata = Ok () ↔ single_target metadata.
Proof.
  unfold checkTarget, single_target. split.
  - intros H. apply bind_Ok in H as (settings & Hs & H).
    apply bind_Ok in H as (target & Ht & H).
    apply assertObjectSize_one in H as (t & -> & Hl). eauto.
  - intros (settings & t & -> & Ht & Hl). cbn [mbind result_bind].
    rewrite Ht. cbn [mbind result_bind]. apply assertObjectSize_one. eauto.
Qed.

Lemma isOk_checkTarget (metadata : option JSON) :
  isOk (checkTarget metadata) = true ↔ single_target metadata.
Proof.
  rewrite <- checkTarget_single.
  destruct (checkTarget metadata) as [[]|]; cbn; split; done.
Qed.

Lemma classify_grows (st st' : Split) (file : PathContent) :
  classify st file = Ok st' →
  metadataFiles st ⊆ metadataFiles st'
  ∧ malformedMetadataFiles st ⊆ malformedMetadataFiles st'.
Proof.
  unfold classify. intros H.
  assert (∀ A (l k : list A), l ⊆ l ++ k) as Hsub
    by (intros A l k x Hx; apply elem_of_app; by left).
  destruct (contains _ _).
  - apply bind_Ok in H as (hardhat & _ & [= <-]). cbn. auto.
  - destruct (truthy _); [destruct (checkTarget _)|];
      injection H as <-; cbn; auto.
Qed.

Lemma foldM_classify_grows (files : list PathContent) (st st' : Split) :
  foldM classify st files = Ok st' →
  metadataFiles st ⊆ metadataFiles st'
  ∧ malformedMetadataFiles st ⊆ malformedMetadataFiles st'.
Proof.
  revert st. induction files as [|file files IH]; intros st H.
  - by injection H as <-.
  - cbn [foldM] in H. apply bind_Ok in H as (st1 & H1 & H).
    apply classify_grows in H1 as [? ?]. apply IH in H as [? ?].
    split; by etrans.
Qed.

Lemma classify_own_metadata (st st' : Split) (file : PathContent) :
  no_build_report file = true →
  truthy (findMetadata (content file)) = true →
  classify st file = Ok st' →
  if isOk (checkTarget (findMetadata (content file)))
  then findMetadata (content file) ∈ metadataFiles st'
  else path file ∈ malformedMetadataFiles st'.
Proof.
  unfold no_build_report, classify. intros Hh%negb_true_iff Ht. rewrite Hh, Ht.
  destruct (checkTarget _); intros [= <-]; cbn;
    apply elem_of_app; right; apply list_elem_of_here.
Qed.

Lemma foldM_classify_own_metadata (files : list PathContent) (st st' : Split)
    (file : PathContent) :
  file ∈ files →
  no_build_report file = true →
  truthy (findMetadata (content file)) = true →
  foldM classify st files = Ok st' →
  if isOk (checkTarget (findMetadata (content file)))
  then findMetadata (content file) ∈ metadataFiles st'
  else path file ∈ malformedMetadataFiles st'.
Proof.
  intros Hin Hn Ht. revert st. induction files as [|f files IH]; intros st H.
  - by apply elem_of_nil in Hin.
  - cbn [foldM] in H. apply bind_Ok in H as (st1 & H1 & H).
    apply elem_of_cons in Hin as [<-|Hin].
    + apply (classify_own_metadata _ _ _ Hn Ht) in H1.
      apply foldM_classify_grows in H as [Hm Hb].
      destruct (isOk _); [by apply Hm|by apply Hb].
    + by apply (IH Hin st1).
Qed.

(** C4 (amended). Take a file of the batch that is no build report and
    in which the classifier finds a metadata document. When the
    classification returns, that document is among the metadata
    documents and has exactly one compilation target. When the document
    has another number of targets, the classification throws; the error
    thrown at the end of the loop lists the paths of the offending
    files, the path of this file among them, or gives their number when
    one of them has no path. *)
Theorem splitFiles_compilationTarget (files : list PathContent)
    (file : PathContent) :
  file ∈ files →
  no_build_report file = true →
  truthy (findMetadata (content file)) = true →
  (∀ mds srcs,
     splitFiles files = Ok (mds, srcs) →
     single_target (findMetadata (content file))
     ∧ findMetadata (content file) ∈ mds)
  ∧ (¬ single_target (findMetadata (content file)) →
     ∃ e, splitFiles files = Throw e
          ∧ ∀ st, foldM classify (mkSplit [] [] []) files = Ok st →
                  path file ∈ malformedMetadataFiles st
                  ∧ e = Error ("Malformed settings.compilationTarget in: "
                               +:+ responsible (malformedMetadataFiles st))).
Proof.
  intros Hin Hn Ht.
  pose proof (λ st', foldM_classify_own_metadata files (mkSplit [] [] []) st'
                       file Hin Hn Ht) as Hown.
  unfold splitFiles. destruct (foldM classify _ files) as [st|e].
  - specialize (Hown st eq_refl). cbn [mbind result_bind].
    destruct (isOk _) eqn:Hok.
    + apply isOk_checkTarget in Hok. split.
      * intros mds srcs H. split; [done|].
        destruct (malformedMetadataFiles st); [|done].
        destruct (metadataFiles st); [done|]. by injection H as <- _.
      * done.
    + assert (¬ single_target (findMetadata (content file))) as Hns.
      { intros Hs%isOk_checkTarget. congruence. }
      destruct (malformedMetadataFiles st) as [|p l] eqn:Hl;
        [by apply elem_of_nil in Hown|].
      split; [done|]. intros _. eexists. split; [done|].
      intros st0 [= <-]. rewrite Hl. done.
  - cbn [mbind result_bind]. split; [done|]. intros _. exists e.
    split; [done|]. done.
Qed.


(** * More about the resolver *)

Lemma foldM_app {A S : Type} (body : S → A → result S) (s s' : S)
    (l1 l2 : list A) :
  foldM body s (l1 ++ l2) = Ok s' →
  ∃ s1, foldM body s l1 = Ok s1 ∧ foldM body s1 l2 = Ok s'.
Proof.
  revert s. induction l1 as [|a l1 IH]; intros s H; [by exists s|].
  cbn [app foldM] in *. apply bind_Ok in H as (s1 & -> & H).
  cbn [mbind result_bind]. by apply IH.
Qed.

Lemma entries_NoDup (sources : option JSON) : NoDup (entries sources).*1.
Proof. destruct sources; cbn; [apply uniq_NoDup|constructor]. Qed.

(** None of the four objects gets the own property [__proto__]. *)
Lemma resolveSource_own byHash st entry st' :
  resolveSource byHash st entry = Ok st' →
  foundSources st' !! "__proto__" = foundSources st !! "__proto__"
  ∧ missingSources st' !! "__proto__" = missingSources st !! "__proto__"
  ∧ invalidSources st' !! "__proto__" = invalidSources st !! "__proto__"
  ∧ metadata2provided st' !! "__proto__"
    = metadata2provided st !! "__proto__".
Proof.
  destruct entry as [k info]. unfold resolveSource, fileOrMissing. intros H.
  apply bind_Ok in H as (c & _ & H). apply bind_Ok in H as (e & _ & H).
  destruct (truthy c) eqn:Ht.
  - apply bind_Ok in H as (h & _ & H). destruct (negb _).
    + injection H as <-. cbn. by rewrite lookup_assign_prop_proto.
    + destruct c as [[| | |text| |]|]; try done.
      injection H as <-. cbn. by rewrite lookup_assign_prop_proto.
  - destruct (byHash_get byHash e) as [pc|]; cbn [truthy] in H.
    + destruct (bool_decide _).
      * injection H as <-. cbn. by rewrite !lookup_assign_prop_proto.
      * apply bind_Ok in H as (u & _ & [= <-]). cbn.
        by rewrite !lookup_assign_prop_proto.
    + apply bind_Ok in H as (u & _ & [= <-]). cbn.
      by rewrite lookup_assign_prop_proto.
Qed.

Lemma rearrangeSources_own metadata byHash r :
  rearrangeSources metadata byHash = Ok r →
  foundSources r !! "__proto__" = None
  ∧ missingSources r !! "__proto__" = None
  ∧ invalidSources r !! "__proto__" = None
  ∧ metadata2provided r !! "__proto__" = None.
Proof.
  unfold rearrangeSources. intros H. apply bind_Ok in H as (sources & _ & H).
  revert H. generalize (entries sources).
  assert (foundSources emptyRearranged !! "__proto__" = None
          ∧ missingSources emptyRearranged !! "__proto__" = None
          ∧ invalidSources emptyRearranged !! "__proto__" = None
          ∧ metadata2provided emptyRearranged !! "__proto__" = None) as Hst
    by done.
  revert Hst. generalize emptyRearranged. intros st Hst l. revert st Hst.
  induction l as [|entry l IH]; intros st Hst H.
  - by injection H as <-.
  - cbn [foldM] in H. apply bind_Ok in H as (st1 & Hstep & H).
    apply (IH st1); [|done].
    apply resolveSource_own in Hstep as (-> & -> & -> & ->). done.
Qed.

(** What the resolver holds about a declared source is what the turn of
    the loop for that source leaves, starting from nothing. *)
Lemma rearrangeSources_entry metadata byHash r sources k info :
  rearrangeSources metadata byHash = Ok r →
  getProp metadata "sources" = Ok sources →
  (k, info) ∈ entries sources →
  ∃ st st',
    about st k = (None, None, None, None, false)
    ∧ resolveSource byHash st (k, info) = Ok st'
    ∧ about r k = about st' k.
Proof.
  intros H Hs Hin. unfold rearrangeSources in H. rewrite Hs in H.
  cbn [mbind result_bind] in H.
  pose proof (entries_NoDup sources) as ND.
  apply list_elem_of_split in Hin as (l1 & l2 & Heq).
  rewrite Heq in H, ND. clear Heq.
  rewrite fmap_app, fmap_cons in ND. cbn [fst] in ND.
  apply NoDup_app in ND as (_ & ND1 & ND2).
  apply NoDup_cons in ND2 as [ND2 _].
  apply foldM_app in H as (st & H1 & H2). cbn [foldM] in H2.
  apply bind_Ok in H2 as (st' & Hstep & H2).
  exists st, st'. split; [|split; [done|]].
  - apply (foldM_resolve_other _ _ _ _ k) in H1;
      [|intros ?; eapply ND1; [done|by left]].
    rewrite H1. unfold about. cbn. by rewrite !lookup_empty.
  - by apply (foldM_resolve_other _ _ _ _ k) in H2.
Qed.

(** A path that the metadata does not declare is in none of the maps. *)
Lemma rearrangeSources_undeclared metadata byHash r k :
  rearrangeSources metadata byHash = Ok r →
  k ∉ sourcePaths metadata →
  about r k = (None, None, None, None, false).
Proof.
  unfold rearrangeSources, sourcePaths. intros H Hk.
  apply bind_Ok in H as (sources & Hs & H). rewrite Hs in Hk.
  apply (foldM_resolve_other _ _ _ _ k) in H; [|done].
  rewrite H. unfold about. cbn. by rewrite !lookup_empty.
Qed.

Lemma about_markFound st k c :
  k ≠ "__proto__" →
  about (markFound st k c) k
  = (Some c, missingSources st !! k, invalidSources st !! k,
     metadata2provided st !! k, bool_decide (k ∈ queried st)).
Proof. intros Hk. unfold about. cbn. by rewrite lookup_assign_prop_eq. Qed.

Lemma about_markMissing st k m :
  k ≠ "__proto__" →
  about (markMissing st k m) k
  = (foundSources st !! k, Some m, invalidSources st !! k,
     metadata2provided st !! k, bool_decide (k ∈ queried st)).
Proof. intros Hk. unfold about. cbn. by rewrite lookup_assign_prop_eq. Qed.

Lemma about_queried_provided st k p :
  k ≠ "__proto__" →
  about st k = (None, None, None, None, false) →
  about (markProvided (markQueried st k) k p) k
  = (None, None, None, Some p, true).
Proof.
  intros Hk. unfold about. cbn. intros [= -> -> -> _ _].
  rewrite lookup_assign_prop_eq by done. do 4 f_equal.
  apply bool_decide_eq_true. apply list_elem_of_here.
Qed.

Lemma about_queried st k :
  about st k = (None, None, None, None, false) →
  about (markQueried st k) k = (None, None, None, None, true).
Proof.
  unfold about. cbn. intros [= -> -> -> -> _]. do 4 f_equal.
  apply bool_decide_eq_true. apply list_elem_of_here.
Qed.

(** The five ways a turn of the loop can end for a source about which
    nothing is held yet. *)
Lemma resolveSource_cases byHash st k info st' fileContent expected urls :
  k ≠ "__proto__" →
  about st k = (None, None, None, None, false) →
  getProp (Some info) "content" = Ok fileContent →
  getProp (Some info) "keccak256" = Ok expected →
  getProp (Some info) "urls" = Ok urls →
  resolveSource byHash st (k, info) = Ok st' →
  (∃ c, fileContent = Some (JStr c) ∧ c ≠ EmptyString
        ∧ loose_eq (keccak256 c) expected = false
        ∧ about st' k
          = (None, None,
             Some (mkInvalid expected (keccak256 c) mismatch_msg), None, false))
  ∨ (∃ c, fileContent = Some (JStr c) ∧ c ≠ EmptyString
          ∧ loose_eq (keccak256 c) expected = true
          ∧ about st' k = (Some c, None, None, None, false))
  ∨ (∃ pathContent,
       truthy fileContent = false
       ∧ byHash_get byHash expected = Some pathContent
       ∧ content pathContent ≠ EmptyString
       ∧ about st' k
         = (Some (content pathContent), None, None,
            Some (path pathContent), true))
  ∨ (∃ pathContent,
       truthy fileContent = false
       ∧ byHash_get byHash expected = Some pathContent
       ∧ content pathContent = EmptyString
       ∧ about st' k
         = (None, Some (mkMissing expected urls), None,
            Some (path pathContent), true))
  ∨ (truthy fileContent = false
     ∧ byHash_get byHash expected = None
     ∧ about st' k
       = (None, Some (mkMissing expected urls), None, None, true)).
Proof.
  intros Hown Hst Hc He Hu. unfold resolveSource. rewrite Hc, He.
  unfold about in Hst. injection Hst as Hf Hm Hi Hp Hq.
  assert (bool_decide (k ∈ k :: queried st) = true) as Hq'
    by (apply bool_decide_eq_true, list_elem_of_here).
  cbn [mbind result_bind]. destruct (truthy fileContent) eqn:Ht.
  - destruct fileContent as [[| | |c| |]|]; try done.
    cbn [keccak256_any mbind result_bind].
    assert (c ≠ EmptyString) as Hne by (by apply bool_decide_eq_true in Ht).
    destruct (loose_eq _ _) eqn:Hl; cbn [negb].
    + intros H. right. left. exists c. repeat split; try done.
      unfold fileOrMissing in H. rewrite Ht in H. injection H as <-.
      unfold about. cbn. by rewrite lookup_assign_prop_eq by done; rewrite Hm, Hi, Hp, Hq.
    + intros [= <-]. left. exists c. repeat split; try done.
      unfold about. cbn. by rewrite lookup_assign_prop_eq by done; rewrite Hf, Hm, Hp, Hq.
  - destruct (byHash_get byHash expected) as [pc|] eqn:Hget.
    + unfold fileOrMissing. cbn [truthy].
      destruct (decide (content pc = EmptyString)) as [Hempty|Hfull].
      * rewrite bool_decide_false by (intros ?; done). rewrite Hu.
        intros [= <-]. do 3 right. left. exists pc. repeat split; try done.
        unfold about. cbn. by rewrite !lookup_assign_prop_eq by done; rewrite Hf, Hi, Hq'.
      * rewrite bool_decide_true by done. intros [= <-].
        do 2 right. left. exists pc. repeat split; try done.
        unfold about. cbn. by rewrite !lookup_assign_prop_eq by done; rewrite Hm, Hi, Hq'.
    + unfold fileOrMissing. rewrite Ht, Hu. intros [= <-].
      do 4 right. repeat split; try done.
      unfold about. cbn. by rewrite lookup_assign_prop_eq by done; rewrite Hf, Hi, Hp, Hq'.
Qed.

(** Reading the three fields of a declared source. *)
Lemma getProp_fields (info : JSON) st byHash k st' :
  resolveSource byHash st (k, info) = Ok st' →
  ∃ fileContent expected urls,
    getProp (Some info) "content" = Ok fileContent
    ∧ getProp (Some info) "keccak256" = Ok expected
    ∧ getProp (Some info) "urls" = Ok urls.
Proof.
  unfold resolveSource. intros H. apply bind_Ok in H as (c & Hc & H).
  destruct info; try done; by eexists _, _, _.
Qed.

Lemma about_spec st k f m i p q :
  about st k = (f, m, i, p, q) →
  foundSources st !! k = f ∧ missingSources st !! k = m
  ∧ invalidSources st !! k = i ∧ metadata2provided st !! k = p
  ∧ (k ∈ queried st ↔ q = true).
Proof.
  unfold about. intros [= <- <- <- <- <-]. repeat split; try done.
  - apply bool_decide_eq_true_2.
  - apply bool_decide_eq_true_1.
Qed.

(** The outcome of a run for one declared source, by the cases of the
    loop body. *)
Lemma rearrangeSources_verdict metadata byHash r sources k info :
  rearrangeSources metadata byHash = Ok r →
  getProp metadata "sources" = Ok sources →
  (k, info) ∈ entries sources →
  k ≠ "__proto__" →
  ∃ fileContent expected urls,
    getProp (Some info) "content" = Ok fileContent
    ∧ getProp (Some info) "keccak256" = Ok expected
    ∧ getProp (Some info) "urls" = Ok urls
    ∧ ((∃ c, fileContent = Some (JStr c) ∧ c ≠ EmptyString
             ∧ loose_eq (keccak256 c) expected = false
             ∧ about r k
               = (None, None,
                  Some (mkInvalid expected (keccak256 c) mismatch_msg),
                  None, false))
       ∨ (∃ c, fileContent = Some (JStr c) ∧ c ≠ EmptyString
               ∧ loose_eq (keccak256 c) expected = true
               ∧ about r k = (Some c, None, None, None, false))
       ∨ (∃ pathContent,
            truthy fileContent = false
            ∧ byHash_get byHash expected = Some pathContent
            ∧ content pathContent ≠ EmptyString
            ∧ about r k
              = (Some (content pathContent), None, None,
                 Some (path pathContent), true))
       ∨ (∃ pathContent,
            truthy fileContent = false
            ∧ byHash_get byHash expected = Some pathContent
            ∧ content pathContent = EmptyString
            ∧ about r k
              = (None, Some (mkMissing expected urls), None,
                 Some (path pathContent), true))
       ∨ (truthy fileContent = false
          ∧ byHash_get byHash expected = None
          ∧ about r k
            = (None, Some (mkMissing expected urls), None, None, true))).
Proof.
  intros H Hs Hin Hown.
  destruct (rearrangeSources_entry _ _ _ _ _ _ H Hs Hin)
    as (st & st' & Hst & Hstep & ->).
  destruct (getProp_fields _ _ _ _ _ Hstep) as (c & e & u & Hc & He & Hu).
  exists c, e, u. repeat (split; [done|]).
  by apply (resolveSource_cases byHash st k info st').
Qed.

(** X1. A source declared under a path other than [__proto__] whose
    non-empty inline content has the declared hash is found with that
    content; the index is not asked and no provided path is recorded. *)
Theorem inline_match_is_found (metadata : option JSON)
    (byHash : gmap string PathContent) (r : Rearranged)
    (sources : option JSON) (sourcePath : string) (info : JSON)
    (c : string) (expected : option JSON) :
  rearrangeSources metadata byHash = Ok r →
  getProp metadata "sources" = Ok sources →
  (sourcePath, info) ∈ entries sources →
  sourcePath ≠ "__proto__" →
  getProp (Some info) "content" = Ok (Some (JStr c)) → c ≠ EmptyString →
  getProp (Some info) "keccak256" = Ok expected →
  loose_eq (keccak256 c) expected = true →
  foundSources r !! sourcePath = Some c
  ∧ missingSources r !! sourcePath = None
  ∧ invalidSources r !! sourcePath = None
  ∧ metadata2provided r !! sourcePath = None
  ∧ sourcePath ∉ queried r.
Proof.
  intros H Hs Hin Hown Hc Hne He Hl.
  destruct (rearrangeSources_verdict _ _ _ _ _ _ H Hs Hin Hown)
    as (c' & e' & u & Hc' & He' & _ & Hcases).
  rewrite Hc in Hc'. rewrite He in He'. injection Hc' as <-. injection He' as <-.
  assert (truthy (Some (JStr c)) = true) as Ht by (by apply bool_decide_eq_true).
  destruct Hcases as [(c0 & [= <-] & _ & Hl' & _)|[(c0 & [= <-] & _ & _ & Ha)
    |[(pc & Ht' & _)|[(pc & Ht' & _)|(Ht' & _)]]]]; try congruence.
  apply about_spec in Ha as (-> & -> & -> & -> & Hq). repeat split.
  intros Hin'. by apply Hq in Hin'.
Qed.

(** X2. A source declared under a path other than [__proto__], without
    inline content, whose declared hash is
    a key of the index takes the file stored there: the path of that
    file is recorded as provided, and the source is found with the
    content of the file, unless that content is empty, in which case the
    source is recorded as missing all the same. *)
Theorem index_hit_is_found (metadata : option JSON)
    (byHash : gmap string PathContent) (r : Rearranged)
    (sources : option JSON) (sourcePath : string) (info : JSON)
    (fileContent urls : option JSON) (h : string) (pathContent : PathContent) :
  rearrangeSources metadata byHash = Ok r →
  getProp metadata "sources" = Ok sources →
  (sourcePath, info) ∈ entries sources →
  sourcePath ≠ "__proto__" →
  getProp (Some info) "content" = Ok fileContent →
  truthy fileContent = false →
  getProp (Some info) "keccak256" = Ok (Some (JStr h)) →
  getProp (Some info) "urls" = Ok urls →
  byHash !! h = Some pathContent →
  metadata2provided r !! sourcePath = Some (path pathContent)
  ∧ sourcePath ∈ queried r
  ∧ invalidSources r !! sourcePath = None
  ∧ (content pathContent ≠ EmptyString →
     foundSources r !! sourcePath = Some (content pathContent)
     ∧ missingSources r !! sourcePath = None)
  ∧ (content pathContent = EmptyString →
     foundSources r !! sourcePath = None
     ∧ missingSources r !! sourcePath
       = Some (mkMissing (Some (JStr h)) urls)).
Proof.
  intros H Hs Hin Hown Hc Ht He Hu Hget.
  destruct (rearrangeSources_verdict _ _ _ _ _ _ H Hs Hin Hown)
    as (c' & e' & u & Hc' & He' & Hu' & Hcases).
  rewrite Hc in Hc'. rewrite He in He'. rewrite Hu in Hu'.
  injection Hc' as <-. injection He' as <-. injection Hu' as <-.
  cbn [byHash_get] in Hcases. rewrite Hget in Hcases.
  destruct Hcases as [(c0 & -> & Hne & _)|[(c0 & -> & Hne & _)
    |[(pc & _ & [= <-] & Hfull & Ha)|[(pc & _ & [= <-] & Hempty & Ha)
    |(_ & ? & _)]]]]; try done.
  - by apply bool_decide_eq_false in Ht.
  - by apply bool_decide_eq_false in Ht.
  - apply about_spec in Ha as (-> & -> & -> & -> & Hq).
    repeat split; try done. by apply Hq.
  - apply about_spec in Ha as (-> & -> & -> & -> & Hq).
    repeat split; try done. by apply Hq.
Qed.

(** X3. A source declared under a path other than [__proto__], without
    inline content, whose declared hash is not in the index is recorded
    as missing, with the declared hash and the urls of the metadata; it
    is neither found nor invalid. *)
Theorem index_miss_is_missing (metadata : option JSON)
    (byHash : gmap string PathContent) (r : Rearranged)
    (sources : option JSON) (sourcePath : string) (info : JSON)
    (fileContent expected urls : option JSON) :
  rearrangeSources metadata byHash = Ok r →
  getProp metadata "sources" = Ok sources →
  (sourcePath, info) ∈ entries sources →
  sourcePath ≠ "__proto__" →
  getProp (Some info) "content" = Ok fileContent →
  truthy fileContent = false →
  getProp (Some info) "keccak256" = Ok expected →
  getProp (Some info) "urls" = Ok urls →
  byHash_get byHash expected = None →
  missingSources r !! sourcePath = Some (mkMissing expected urls)
  ∧ foundSources r !! sourcePath = None
  ∧ invalidSources r !! sourcePath = None
  ∧ metadata2provided r !! sourcePath = None
  ∧ sourcePath ∈ queried r.
Proof.
  intros H Hs Hin Hown Hc Ht He Hu Hget.
  destruct (rearrangeSources_verdict _ _ _ _ _ _ H Hs Hin Hown)
    as (c' & e' & u & Hc' & He' & Hu' & Hcases).
  rewrite Hc in Hc'. rewrite He in He'. rewrite Hu in Hu'.
  injection Hc' as <-. injection He' as <-. injection Hu' as <-.
  rewrite Hget in Hcases.
  destruct Hcases as [(c0 & -> & Hne & _)|[(c0 & -> & Hne & _)
    |[(pc & _ & ? & _)|[(pc & _ & ? & _)|(_ & _ & Ha)]]]]; try done.
  - by apply bool_decide_eq_false in Ht.
  - by apply bool_decide_eq_false in Ht.
  - apply about_spec in Ha as (-> & -> & -> & -> & Hq).
    repeat split; try done. by apply Hq.
Qed.



Lemma entries_key (sources : option JSON) (k : string) :
  k ∈ (entries sources).*1 → ∃ info, (k, info) ∈ entries sources.
Proof.
  intros Hk. apply list_elem_of_fmap in Hk as ([k' info] & -> & Hin). eauto.
Qed.

(** X4. Every provided path that the resolver records is the path of a
    file of the index, stored under the hash that the metadata declares
    for a source without inline content; the resolver has asked the
    index for that source. *)
Theorem provided_paths_come_from_index (metadata : option JSON)
    (byHash : gmap string PathContent) (r : Rearranged)
    (sourcePath : string) (provided : option string) :
  rearrangeSources metadata byHash = Ok r →
  metadata2provided r !! sourcePath = Some provided →
  ∃ sources info fileContent h pathContent,
    getProp metadata "sources" = Ok sources
    ∧ (sourcePath, info) ∈ entries sources
    ∧ getProp (Some info) "content" = Ok fileContent
    ∧ truthy fileContent = false
    ∧ getProp (Some info) "keccak256" = Ok (Some (JStr h))
    ∧ byHash !! h = Some pathContent
    ∧ path pathContent = provided
    ∧ sourcePath ∈ queried r.
Proof.
  intros H Hp.
  assert (sourcePath ≠ "__proto__") as Hown.
  { intros ->. apply rearrangeSources_own in H as (_ & _ & _ & Hnone).
    congruence. }
  destruct (decide (sourcePath ∈ sourcePaths metadata)) as [Hin|Hout].
  - unfold sourcePaths in Hin.
    destruct (getProp metadata "sources") as [sources|] eqn:Hs;
      [|by apply elem_of_nil in Hin].
    apply entries_key in Hin as [info Hin].
    destruct (rearrangeSources_verdict _ _ _ _ _ _ H Hs Hin Hown)
      as (c & e & u & Hc & He & Hu & Hcases).
    assert (∀ pc f m q,
              byHash_get byHash e = Some pc →
              about r sourcePath = (f, m, None, Some (path pc), q) →
              q = true →
              ∃ h, e = Some (JStr h) ∧ byHash !! h = Some pc
                   ∧ path pc = provided ∧ sourcePath ∈ queried r) as Hhit.
    { intros pc f m q Hget Ha ->.
      apply about_spec in Ha as (_ & _ & _ & Hp' & Hq).
      rewrite Hp in Hp'. injection Hp' as <-.
      destruct e as [[| | |h| |]|]; try done. exists h.
      repeat split; try done. by apply Hq. }
    destruct Hcases as [(c0 & _ & _ & _ & Ha)|[(c0 & _ & _ & _ & Ha)
      |[(pc & Ht & Hget & _ & Ha)|[(pc & Ht & Hget & _ & Ha)|(_ & _ & Ha)]]]].
    + apply about_spec in Ha as (_ & _ & _ & Hp' & _). congruence.
    + apply about_spec in Ha as (_ & _ & _ & Hp' & _). congruence.
    + destruct (Hhit _ _ _ _ Hget Ha eq_refl) as (h & -> & ? & ? & ?).
      by exists sources, info, c, h, pc.
    + destruct (Hhit _ _ _ _ Hget Ha eq_refl) as (h & -> & ? & ? & ?).
      by exists sources, info, c, h, pc.
    + apply about_spec in Ha as (_ & _ & _ & Hp' & _). congruence.
  - apply (rearrangeSources_undeclared _ _ _ _ H) in Hout.
    apply about_spec in Hout as (_ & _ & _ & Hp' & _). congruence.
Qed.

(** * More about the hash index *)

Lemma generateVariations_path (pathContent variation : PathContent) :
  variation ∈ generateVariations pathContent →
  path variation = path pathContent.
Proof.
  unfold generateVariations. intros Hv.
  apply list_elem_of_fmap in Hv as (c & -> & _). done.
Qed.

Lemma storeByHash_lookup (files : list PathContent) (h : string) :
  storeByHash files !! h
  = last (filter (λ variation, keccak256 (content variation) = h)
                 (files ≫= generateVariations)).
Proof.
  rewrite storeByHash_flat, foldl_index_lookup, lookup_empty.
  by destruct (last _).
Qed.

(** X5. Whatever the index holds under a hash is a variation of one of
    the files it was built from, has that hash and carries the path of
    that file; the index of no files is empty. *)
Theorem storeByHash_sound (files : list PathContent) (h : string)
    (stored : PathContent) :
  storeByHash [] = ∅
  ∧ (storeByHash files !! h = Some stored →
     keccak256 (content stored) = h
     ∧ ∃ pathContent,
         pathContent ∈ files
         ∧ stored ∈ generateVariations pathContent
         ∧ path stored = path pathContent).
Proof.
  split; [done|]. rewrite storeByHash_lookup. intros Hl.
  apply last_Some_elem_of, list_elem_of_filter in Hl as [Hh Hin].
  split; [done|]. apply list_elem_of_bind in Hin as (pc & Hv & Hpc).
  exists pc. split; [done|]. split; [done|]. by apply generateVariations_path.
Qed.

(** X6. When the metadata declares, for a source without inline
    content under a path other than [__proto__], the hash of any of the
    18 variations of a submitted file that is not empty, the resolver
    takes a variation of a submitted file with that hash from the
    index: it records the path of that file as provided and, unless the
    variation is empty, finds the source with the content of the
    variation. *)
Theorem declared_variation_is_resolved (metadata : option JSON)
    (files : list PathContent) (r : Rearranged) (sources : option JSON)
    (sourcePath : string) (info : JSON) (fileContent : option JSON)
    (pathContent variation : PathContent) :
  rearrangeSources metadata (storeByHash files) = Ok r →
  getProp metadata "sources" = Ok sources →
  (sourcePath, info) ∈ entries sources →
  sourcePath ≠ "__proto__" →
  getProp (Some info) "content" = Ok fileContent →
  truthy fileContent = false →
  getProp (Some info) "keccak256"
  = Ok (Some (JStr (keccak256 (content variation)))) →
  pathContent ∈ files →
  variation ∈ generateVariations pathContent →
  content variation ≠ EmptyString →
  ∃ stored submitted,
    submitted ∈ files
    ∧ stored ∈ generateVariations submitted
    ∧ keccak256 (content stored) = keccak256 (content variation)
    ∧ metadata2provided r !! sourcePath = Some (path submitted)
    ∧ (content stored ≠ EmptyString →
       foundSources r !! sourcePath = Some (content stored)).
Proof.
  intros H Hs Hin Hown Hc Ht He Hpc Hv _.
  assert (∃ stored, storeByHash files !! keccak256 (content variation)
                    = Some stored) as [stored Hget].
  { rewrite storeByHash_lookup.
    destruct (last _) as [w|] eqn:Hw; [by exists w|].
    apply last_None in Hw.
    assert (variation ∈ filter
              (λ w, keccak256 (content w) = keccak256 (content variation))
              (files ≫= generateVariations)) as Hf.
    { apply list_elem_of_filter. split; [done|].
      apply list_elem_of_bind. eauto. }
    rewrite Hw in Hf. by apply elem_of_nil in Hf. }
  pose proof Hget as Hstored. rewrite storeByHash_lookup in Hstored.
  apply last_Some_elem_of, list_elem_of_filter in Hstored as [Hh Hmem].
  apply list_elem_of_bind in Hmem as (submitted & Hsv & Hsub).
  exists stored, submitted. repeat (split; [done|]).
  destruct (rearrangeSources_verdict _ _ _ _ _ _ H Hs Hin Hown)
    as (c' & e' & u & Hc' & He' & _ & Hcases).
  rewrite Hc in Hc'. rewrite He in He'. injection Hc' as <-. injection He' as <-.
  cbn [byHash_get] in Hcases. rewrite Hget in Hcases.
  rewrite <- (generateVariations_path _ _ Hsv).
  destruct Hcases as [(c0 & -> & Hne & _)|[(c0 & -> & Hne & _)
    |[(pc & _ & [= <-] & Hfull & Ha)|[(pc & _ & [= <-] & Hempty & Ha)
    |(_ & ? & _)]]]]; try done.
  - by apply bool_decide_eq_false in Ht.
  - by apply bool_decide_eq_false in Ht.
  - apply about_spec in Ha as (-> & _ & _ & -> & _). done.
  - apply about_spec in Ha as (_ & _ & _ & -> & _). done.
Qed.

(** * The variators *)

Lemma toLF_toCRLF_cancel (s : string) :
  occurs CR s = false → toLF (toCRLF s) = s.
Proof.
  induction s as [|c s IH]; [done|]. cbn [occurs].
  intros [Hc Hs]%orb_false_elim. apply bool_decide_eq_false in Hc.
  cbn [toCRLF]. destruct (decide (c = LF)) as [->|Hlf].
  - cbn. by rewrite IH.
  - rewrite decide_False by done. cbn [toLF].
    rewrite decide_False by done. by rewrite IH.
Qed.

(** X7. A text without carriage returns comes back unchanged when its
    line feeds are turned into CR LF and these back into line feeds. *)
Theorem toLF_toCRLF (s : string) :
  occurs CR s = false → toLF (toCRLF s) = s.
Proof. apply toLF_toCRLF_cancel. Qed.

Lemma toCRLF_head (s : string) :
  match toCRLF s with
  | String c _ => c ≠ LF
  | EmptyString => True
  end.
Proof.
  destruct s as [|c s]; [done|]. cbn [toCRLF].
  destruct (decide (c = LF)); [done|].
  destruct (decide (c = CR)) as [->|]; [|done].
  destruct s as [|d s]; [done|]. by destruct (decide (d = LF)).
Qed.

(** X8. Turning line ends into CR LF twice is the same as doing it
    once. *)
Theorem toCRLF_idempotent (s : string) : toCRLF (toCRLF s) = toCRLF s.
Proof.
  cut (∀ n s, String.length s ≤ n → toCRLF (toCRLF s) = toCRLF s).
  { intros H. by apply (H (String.length s)). }
  clear s. induction n as [|n IH]; intros [|c s] Hn; try done.
  { cbn in Hn. lia. }
  cbn in Hn. cbn [toCRLF]. destruct (decide (c = LF)) as [->|Hlf].
  - cbn. by rewrite IH by lia.
  - destruct (decide (c = CR)) as [->|Hcr].
    + destruct s as [|d s]; [done|].
      destruct (decide (d = LF)) as [->|Hd].
      * cbn. cbn in Hn. by rewrite IH by lia.
      * pose proof (toCRLF_head (String d s)) as Hh.
        assert (toCRLF (String CR (toCRLF (String d s)))
                = String CR (toCRLF (toCRLF (String d s)))) as ->.
        { destruct (toCRLF (String d s)) as [|e t]; [done|].
          cbn [toCRLF]. rewrite decide_False by done.
          rewrite decide_True by done. by rewrite decide_False by done. }
        by rewrite IH by lia.
    + cbn [toCRLF]. rewrite decide_False by done.
      rewrite decide_False by done. by rewrite IH by lia.
Qed.

Lemma trimEnd_cons (c : ascii) (s : string) :
  trimEnd (String c s)
  = match trimEnd s with
    | EmptyString => if is_white c then EmptyString else String c EmptyString
    | t => String c t
    end.
Proof. done. Qed.

Lemma trimEnd_empty_white (s : string) :
  trimEnd s = EmptyString ↔ all_white s = true.
Proof.
  induction s as [|c s IH]; [done|]. cbn [trimEnd all_white].
  destruct (trimEnd s) as [|d t] eqn:Ht.
  - destruct (is_white c); cbn; [|done].
    split; [intros _; by apply IH|done].
  - split; [done|]. intros [_ Hs]%andb_prop. by apply IH in Hs.
Qed.

(** X9. [trimEnd] cuts a run of white space off the end and nothing
    else: the text is the trimmed text followed by white space only,
    the trimmed text does not end in white space, and trimming it again
    changes nothing. *)
Theorem trimEnd_spec (s : string) :
  (∃ rest, s = trimEnd s +:+ rest ∧ all_white rest = true)
  ∧ (∀ c, last_char (trimEnd s) = Some c → is_white c = false)
  ∧ trimEnd (trimEnd s) = trimEnd s.
Proof.
  induction s as [|c s (IH1 & IH2 & IH3)].
  { split; [by exists EmptyString|]. done. }
  cbn [trimEnd]. destruct (trimEnd s) as [|d t] eqn:Ht.
  - apply trimEnd_empty_white in Ht. destruct (is_white c) eqn:Hc.
    + split; [|done]. exists (String c s). split; [done|].
      cbn. by rewrite Hc, Ht.
    + split; [|split].
      * exists s. split; [done|]. done.
      * cbn. by intros c' [= <-].
      * cbn. by rewrite Hc.
  - split; [|split].
    + destruct IH1 as (rest & Hs & Hw). exists rest. split; [|done].
      rewrite Hs at 1. done.
    + intros c' Hl. apply IH2. exact Hl.
    + rewrite (trimEnd_cons c (String d t)). by rewrite IH3.
Qed.

(** * More about the classifier *)

Lemma isMetadata_fields (obj : JSON) :
  isMetadata (Some obj) = Ok true →
  ∃ props compiler,
    obj = JObj props
    ∧ assoc "language" props = Some (JStr "Solidity")
    ∧ assoc "compiler" props = Some compiler
    ∧ truthy (Some compiler) = true.
Proof.
  intros H. destruct (isMetadata_object obj H) as [props ->].
  unfold isMetadata, getProp in H. cbn [props_of mbind result_bind] in H.
  destruct (assoc "language" props) as [[| | |l| |]|] eqn:Hl; try done.
  destruct (decide (l = "Solidity")) as [->|]; [|done].
  injection H as H. destruct (assoc "compiler" props) as [compiler|] eqn:Hc;
    [|done].
  by exists props, compiler.
Qed.

(** X10. What [extractMetadataFromString] returns, when it returns
    something, is an object with the language Solidity and a truthy
    compiler. *)
Theorem extractMetadataFromString_sound (file obj : JSON) :
  extractMetadataFromString file = Some obj →
  ∃ props compiler,
    obj = JObj props
    ∧ assoc "language" props = Some (JStr "Solidity")
    ∧ assoc "compiler" props = Some compiler
    ∧ truthy (Some compiler) = true.
Proof.
  unfold extractMetadataFromString. intros H.
  apply isMetadata_fields.
  destruct (parse file) as [o1|]; [|done]. cbn [mbind result_bind] in H.
  destruct (isMetadata (Some o1)) as [[]|] eqn:H1; [|
    cbn [mbind result_bind] in H|done].
  - cbn [mbind result_bind] in H. by injection H as <-.
  - destruct (parse o1) as [o2|]; [|done]. cbn [mbind result_bind] in H.
    destruct (isMetadata (Some o2)) as [[]|] eqn:H2; try done.
    cbn [mbind result_bind] in H. by injection H as <-.
Qed.

(** X11. [extractMetadataFromString] unwraps one level of string and no
    more: a text that is still a JSON string after one unwrapping is no
    metadata, whatever that string holds. *)
Theorem extractMetadataFromString_two_levels (text inner innermost : string) :
  JSON_parse text = Some (JStr inner) →
  JSON_parse inner = Some (JStr innermost) →
  extractMetadataFromString (JStr text) = None.
Proof.
  intros H1 H2. unfold extractMetadataFromString.
  rewrite parse_string, H1. cbn [mbind result_bind].
  rewrite isMetadata_string. cbn [mbind result_bind].
  rewrite parse_string, H2. cbn [mbind result_bind].
  by rewrite isMetadata_string.
Qed.

Lemma classify_direct (st : Split) (file : PathContent) :
  no_build_report file = true →
  classify st file
  = Ok (if has_metadata file then
          if target_ok file
          then mkSplit (metadataFiles st ++ [findMetadata (content file)])
                 (sourceFiles st) (malformedMetadataFiles st)
          else mkSplit (metadataFiles st) (sourceFiles st)
                 (malformedMetadataFiles st ++ [path file])
        else mkSplit (metadataFiles st) (sourceFiles st ++ [file])
               (malformedMetadataFiles st)).
Proof.
  unfold no_build_report, classify, has_metadata, target_ok.
  intros Hh%negb_true_iff. rewrite Hh.
  destruct (truthy _); [|done]. by destruct (checkTarget _).
Qed.

Lemma foldM_classify_direct (files : list PathContent) (st : Split) :
  forallb no_build_report files = true →
  foldM classify st files
  = Ok (mkSplit
          (metadataFiles st
           ++ ((λ file, findMetadata (content file))
                 <$> filter (λ file, has_metadata file ∧ target_ok file) files))
          (sourceFiles st ++ filter (λ file, ¬ has_metadata file) files)
          (malformedMetadataFiles st
           ++ (path <$> filter (λ file, has_metadata file ∧ ¬ target_ok file)
                               files))).
Proof.
  revert st. induction files as [|file files IH]; intros st Hn.
  - cbn. rewrite !app_nil_r. by destruct st.
  - cbn [forallb] in Hn. apply andb_prop in Hn as [Hfile Hfiles].
    cbn [foldM]. rewrite classify_direct by done.
    cbn [mbind result_bind]. rewrite IH by done. rewrite !filter_cons.
    destruct (has_metadata file) eqn:Hm; [destruct (target_ok file) eqn:Ht|];
      cbn [metadataFiles sourceFiles malformedMetadataFiles];
      repeat (rewrite decide_True by (cbn; tauto)
              || rewrite decide_False by (cbn; tauto));
      by rewrite ?fmap_cons, <- ?app_assoc.
Qed.

Lemma filter_length_split {A : Type} (P : A → bool) (l : list A) :
  length (filter (λ x, P x) l) + length (filter (λ x, ¬ P x) l) = length l.
Proof.
  induction l as [|x l IH]; [done|]. rewrite !filter_cons.
  destruct (P x).
  - rewrite decide_True by done.
    rewrite decide_False by (intros H; by apply H). cbn [length]. lia.
  - rewrite decide_False by (by intros ?).
    rewrite decide_True by (by intros ?). cbn [length]. lia.
Qed.

(** X12. In a batch without build reports that the classification
    accepts, no file is lost and none is counted twice: the sources are
    the files in which no metadata document was found, in their order,
    and the metadata documents are those found in the other files, in
    their order. *)
Theorem splitFiles_partition (files : list PathContent)
    (mds : list (option JSON)) (srcs : list PathContent) :
  forallb no_build_report files = true →
  splitFiles files = Ok (mds, srcs) →
  srcs = filter (λ file, ¬ has_metadata file) files
  ∧ mds = (λ file, findMetadata (content file))
            <$> filter (λ file, has_metadata file) files
  ∧ length mds + length srcs = length files.
Proof.
  intros Hn. unfold splitFiles. rewrite foldM_classify_direct by done.
  cbn [mbind result_bind metadataFiles sourceFiles malformedMetadataFiles app].
  destruct (path <$> _) eqn:Hbad; [|done].
  apply fmap_nil_inv in Hbad.
  assert (filter (λ file, has_metadata file ∧ target_ok file) files
          = filter (λ file, has_metadata file) files) as ->.
  { clear Hn. induction files as [|f files IH]; [done|].
    rewrite filter_cons in Hbad. rewrite !filter_cons.
    destruct (has_metadata f) eqn:Hm, (target_ok f) eqn:Ht;
      repeat (rewrite decide_True in * by (cbn; tauto)
              || rewrite decide_False in * by (cbn; tauto));
      try done; by rewrite IH. }
  destruct (_ <$> _) eqn:Hmds; [done|]. intros [= <- <-].
  split; [done|]. split; [done|].
  rewrite <- Hmds, length_fmap. apply filter_length_split.
Qed.

Lemma foldM_app_eq {A S : Type} (body : S → A → result S) (s : S)
    (l1 l2 : list A) :
  foldM body s (l1 ++ l2) = (s1 ← foldM body s l1; foldM body s1 l2).
Proof.
  revert s. induction l1 as [|a l1 IH]; intros s; [done|].
  cbn [app foldM]. destruct (body s a); cbn [mbind result_bind]; [apply IH|done].
Qed.

(** X13. A file with the build report marker is read as a build report
    and its errors are not caught: when its text is no JSON the
    classification throws a SyntaxError, and when it is an object
    without [input] a TypeError, whatever else the batch holds. *)
Theorem build_report_errors_propagate (before after : list PathContent)
    (file : PathContent) (st : Split) :
  foldM classify (mkSplit [] [] []) before = Ok st →
  contains HARDHAT_OUTPUT_FORMAT (content file) = true →
  (JSON_parse (content file) = None →
   splitFiles (before ++ file :: after) = Throw SyntaxError)
  ∧ (∀ props,
       JSON_parse (content file) = Some (JObj props) →
       assoc "input" props = None →
       splitFiles (before ++ file :: after) = Throw TypeError).
Proof.
  intros Hbefore Hmark.
  assert (∀ e, classify st file = Throw e →
               splitFiles (before ++ file :: after) = Throw e) as Hthrow.
  { intros e Hstep. unfold splitFiles. rewrite foldM_app_eq, Hbefore.
    cbn [mbind result_bind foldM]. by rewrite Hstep. }
  split.
  - intros Hparse. apply Hthrow. unfold classify. rewrite Hmark.
    unfold extractHardhatMetadataAndSources. rewrite parse_string.
    by rewrite Hparse.
  - intros props Hparse Hinput. apply Hthrow. unfold classify. rewrite Hmark.
    unfold extractHardhatMetadataAndSources. rewrite parse_string.
    rewrite Hparse. cbn [mbind result_bind getProp props_of].
    by rewrite Hinput.
Qed.

Lemma extract_isMetadata (file obj : JSON) :
  extractMetadataFromString file = Some obj → isMetadata (Some obj) = Ok true.
Proof.
  unfold extractMetadataFromString. intros H.
  destruct (parse file) as [o1|]; [|done]. cbn [mbind result_bind] in H.
  destruct (isMetadata (Some o1)) as [[]|] eqn:H1; [|
    cbn [mbind result_bind] in H|done].
  - cbn [mbind result_bind] in H. by injection H as <-.
  - destruct (parse o1) as [o2|]; [|done]. cbn [mbind result_bind] in H.
    destruct (isMetadata (Some o2)) as [[]|] eqn:H2; try done.
    cbn [mbind result_bind] in H. by injection H as <-.
Qed.

Lemma foldM_Forall {A S : Type} (P : S → Prop) (body : S → A → result S)
    (l : list A) (s s' : S) :
  (∀ s a s', P s → body s a = Ok s' → P s') →
  P s → foldM body s l = Ok s' → P s'.
Proof.
  intros Hbody. revert s. induction l as [|a l IH]; intros s Hs H.
  - by injection H as <-.
  - cbn [foldM] in H. apply bind_Ok in H as (s1 & H1 & H). eauto.
Qed.

Lemma foldM_hardhat_sources (l : list (string * JSON))
    (acc res : list PathContent) :
  foldM (λ (acc : list PathContent) (entry : string * JSON),
           c ← getProp (Some entry.2) "content";
           if truthy c then
             match c with
             | Some (JStr text) =>
                 Ok (acc ++ [mkPathContent (Some entry.1) text])
             | _ => Throw TypeError
             end
           else Ok acc)
        acc l = Ok res →
  res = acc ++ omap source_of l.
Proof.
  revert acc. induction l as [|[key info] l IH]; intros acc H.
  - injection H as <-. by rewrite app_nil_r.
  - cbn [foldM] in H. apply bind_Ok in H as (acc1 & Hstep & H).
    apply IH in H. rewrite H. clear H IH. cbn [omap list_omap].
    cbn [fst snd] in Hstep. apply bind_Ok in Hstep as (c & Hc & Hstep).
    assert (assoc "content" (props_of info) = c) as Hassoc
      by (destruct info; cbn in Hc |- *; congruence).
    assert (source_of (key, info)
            = match c with
              | Some (JStr text) =>
                  if decide (text = EmptyString) then None
                  else Some (mkPathContent (Some key) text)
              | _ => None
              end) as ->
      by (unfold source_of; cbn [fst snd]; by rewrite Hassoc).
    clear Hassoc Hc.
    destruct (truthy c) eqn:Ht.
    + destruct c as [[| | |text| |]|]; try done. injection Hstep as <-.
      apply bool_decide_eq_true in Ht. rewrite decide_False by done.
      by rewrite <- app_assoc.
    + injection Hstep as <-.
      destruct c as [[| | |text| |]|]; try done.
      apply bool_decide_eq_false in Ht.
      rewrite decide_True; [done|]. by destruct (decide (text = EmptyString)).
Qed.

(** X14. From a build report in which the content of every source is a
    string or is falsy, the sources that come out are the entries of
    [input.sources] with a content that is not empty, in order, each
    with its key as path and its content; every metadata entry that
    comes out is a metadata document, or null. *)
Theorem extractHardhat_outputs (hardhatFile : PathContent)
    (hardhatJson : JSON) (input sourcesObject : option JSON)
    (mds : list (option JSON)) (srcs : list PathContent) :
  parse (JStr (content hardhatFile)) = Ok hardhatJson →
  getProp (Some hardhatJson) "input" = Ok input →
  getProp input "sources" = Ok sourcesObject →
  typed_contents sourcesObject →
  extractHardhatMetadataAndSources hardhatFile = Ok (mds, srcs) →
  srcs = omap source_of (entries sourcesObject)
  ∧ Forall (λ metadata,
              ∀ obj, metadata = Some obj → isMetadata (Some obj) = Ok true)
           mds.
Proof.
  intros Hjson Hinput Hsources _.
  unfold extractHardhatMetadataAndSources. rewrite Hjson.
  cbn [mbind result_bind]. rewrite Hinput. cbn [mbind result_bind].
  rewrite Hsources. cbn [mbind result_bind]. intros H.
  apply bind_Ok in H as (hardhatSourceFiles & Hsrc & H).
  apply bind_Ok in H as (output & _ & H).
  apply bind_Ok in H as (contractsObject & _ & H).
  apply bind_Ok in H as (hardhatMetadataFiles & Hmd & H).
  injection H as <- <-. split.
  - by apply foldM_hardhat_sources in Hsrc.
  - revert Hmd. apply foldM_Forall; [|constructor].
    intros acc byPath acc' Hacc. apply foldM_Forall; [|done].
    intros acc0 contract acc0' Hacc0 Hstep.
    apply bind_Ok in Hstep as (m & _ & Hstep).
    destruct m as [text|]; [|by injection Hstep as <-].
    destruct (truthy (Some text)); [|by injection Hstep as <-].
    injection Hstep as <-. apply Forall_app. split; [done|].
    constructor; [|constructor]. intros obj. apply extract_isMetadata.
Qed.

Lemma foldM_checkMetadata_null byHash acc (mds : list (option JSON)) :
  None ∈ mds → isOk (foldM (checkMetadata byHash) acc mds) = false.
Proof.
  revert acc. induction mds as [|md mds IH]; intros acc Hin.
  - by apply elem_of_nil in Hin.
  - cbn [foldM]. apply elem_of_cons in Hin as [<-|Hin]; [done|].
    destruct (checkMetadata byHash acc md) eqn:Hstep; cbn [mbind result_bind];
      [by apply IH|done].
Qed.

(** X15. A null among the metadata documents, which a build report
    leaves for a contract whose metadata string is no metadata
    document, makes [checkFiles] throw: no contract of the batch is
    returned. When the null is the first document, what is thrown is
    the TypeError of reading [sources] from it. *)
Theorem checkFiles_null_metadata (stamp : nat → string)
    (files unzipped : list PathBuffer) (unused : option (list (option string)))
    (mds : list (option JSON)) (srcs : list PathContent) :
  traverseAndUnzipFiles stamp files = Ok unzipped →
  splitFiles (parsedFiles unzipped) = Ok (mds, srcs) →
  None ∈ mds →
  isOk (checkFiles stamp files unused) = false
  ∧ (∀ rest, mds = None :: rest →
             checkFiles stamp files unused = Throw TypeError).
Proof.
  intros Hunzip Hsplit Hnull. unfold checkFiles. rewrite Hunzip.
  cbn [mbind result_bind]. rewrite Hsplit. cbn [mbind result_bind fst snd].
  split.
  - pose proof (foldM_checkMetadata_null (storeByHash srcs) ([], []) mds Hnull)
      as Hloop.
    by destruct (foldM _ _ mds).
  - by intros rest ->.
Qed.

(** * Archives and directories *)

Lemma segments_TDir {A : Type} (children : list (string * Tree A)) :
  segments (TDir children)
  = children ≫= λ e, (λ f, (e.1 :: f.1, f.2)) <$> segments e.2.
Proof.
  cbn [segments].
  induction children as [|[name child] children IH]; [done|].
  rewrite IH. done.
Qed.

Lemma walk_segments {A : Type} (path : string) (t : Tree A) :
  walk path t = (λ f, (foldl Path_join path f.1, f.2)) <$> segments t.
Proof.
  revert path. induction t as [a|children IH|] using Tree_forall_ind;
    intros path; [done| |done].
  rewrite walk_TDir, segments_TDir. unfold walk_each.
  induction children as [|[name child] children IHc]; [done|].
  apply Forall_cons in IH as [IH1 IH]. cbn [mbind list_bind fst snd] in *.
  rewrite fmap_app, <- IHc by done. f_equal.
  rewrite IH1, <- list_fmap_compose. done.
Qed.

(** Induction on the nodes of the file system, with the hypothesis on
    every entry that exists. *)
Lemma Node_forall_ind {A : Type} (P : Node A → Prop) :
  (∀ a, P (NFile a)) →
  (∀ children,
     Forall (λ e, match e.2 with Some c => P c | None => True end) children →
     P (NDir children)) →
  P NOther →
  ∀ n, P n.
Proof.
  intros Hfile Hdir Hother.
  fix go 1. intros [a|children|]; [apply Hfile| |apply Hother].
  apply Hdir. induction children as [|[name [child|]] children IH];
    constructor; [apply go|apply IH|exact I|apply IH].
Qed.

(** The traversal returns the regular files when every entry exists,
    and throws at the first entry that does not. *)
Lemma visit_cases {A : Type} (path : string) (n : Node A) :
  if intact n
  then visit path n
       = Ok ((λ f, (foldl Path_join path f.1, f.2)) <$> node_segments n)
  else ∃ names, visit path n = Throw (nonexistent (foldl Path_join path names)).
Proof.
  revert path. induction n as [a|children IH|] using Node_forall_ind;
    intros path; [done| |done].
  cbn [intact visit node_segments].
  induction children as [|[name child] children IHc]; [done|].
  apply Forall_cons in IH as [IH1 IH]. specialize (IHc IH). cbn [snd] in IH1.
  destruct child as [c|].
  - specialize (IH1 (Path_join path name)).
    destruct (intact c).
    + rewrite IH1. cbn [andb mbind result_bind].
      match type of IHc with
      | if ?b then _ else _ => destruct b
      end.
      * rewrite IHc. cbn [mbind result_bind]. f_equal.
        rewrite fmap_app, <- list_fmap_compose. done.
      * destruct IHc as [names ->]. by exists names.
    + cbn [andb]. destruct IH1 as [names ->]. by exists (name :: names).
  - cbn [andb]. by exists [name].
Qed.


Lemma foldl_Path_join (path : string) (names : list string) :
  foldl Path_join path names
  = path +:+ foldr (λ name rest, "/" +:+ name +:+ rest) EmptyString names.
Proof.
  revert path. induction names as [|name names IH]; intros path.
  - cbn. by rewrite append_nil_r.
  - cbn [foldl foldr]. rewrite IH. unfold Path_join.
    by rewrite !append_assoc.
Qed.

Lemma concat_slashes (name : string) (names : list string) :
  name +:+ foldr (λ name rest, "/" +:+ name +:+ rest) EmptyString names
  = String.concat "/" (name :: names).
Proof.
  revert name. induction names as [|next names IH]; intros name.
  - cbn. apply append_nil_r.
  - cbn [foldr]. rewrite IH. done.
Qed.

(** X17. The members of an archive get their paths within the archive,
    the names joined by slashes: nothing of the staging directory is
    left in them, whatever its name. *)
Theorem unzip_relative_paths (stamp : string)
    (children : list (string * Tree Buffer)) :
  unzip stamp (Some children)
  = Ok ((λ f, mkPathBuffer (Some (String.concat "/" f.1)) f.2)
        <$> segments (TDir children)).
Proof.
  rewrite unzip_members. unfold members. f_equal.
  rewrite walk_segments, <- list_fmap_compose.
  apply list_fmap_ext. intros i [names b] _. cbn [compose fst snd].
  f_equal. f_equal. rewrite foldl_Path_join.
  destruct names as [|name names]; [done|].
  cbn [foldr]. change (slice 1 (String "/" ?s)) with s.
  apply concat_slashes.
Qed.

Lemma walk_weight_members (w : Buffer → nat) children :
  sum_list_with (λ file, w (buffer file)) (members children)
  = tree_weight w (TDir children).
Proof.
  unfold members.
  rewrite <- (walk_weight w EmptyString (TDir children)).
  induction (walk EmptyString (TDir children)) as [|f l IH]; [done|].
  cbn. by rewrite <- IH.
Qed.

Lemma unzipLoop_Ok fuel stamp count queue unzipped :
  unzipLoop fuel stamp count queue = Some (Ok unzipped) →
  Forall (λ file, isZip (buffer file) = false) unzipped
  ∧ filter (λ file, isZip (buffer file) = false) queue `prefix_of` unzipped
  ∧ length unzipped = sum_list_with (λ file, plain_leaves (buffer file)) queue.
Proof.
  revert count queue unzipped. induction fuel as [|fuel IH];
    intros count queue unzipped H; [done|].
  destruct queue as [|[p b] rest].
  { injection H as <-. split; [constructor|]. split; [done|done]. }
  cbn [unzipLoop buffer] in H. rewrite filter_cons. cbn [buffer].
  destruct b as [text|[children|]|e].
  - destruct (unzipLoop fuel stamp count rest) as [[r|]|] eqn:Hr; try done.
    cbn in H. injection H as <-. apply IH in Hr as (Hplain & Hpre & Hlen).
    rewrite decide_True by done. split; [by constructor|].
    split; [by apply prefix_cons|]. cbn. by rewrite Hlen.
  - rewrite unzip_members in H. apply IH in H as (Hplain & Hpre & Hlen).
    rewrite decide_False by done. split; [done|]. split.
    + rewrite filter_app in Hpre. etrans; [|exact Hpre]. by apply prefix_app_r.
    + rewrite Hlen, sum_list_with_app, walk_weight_members.
      cbn [sum_list_with buffer plain_leaves]. lia.
  - done.
  - done.
Qed.

Lemma traverseAndUnzipFiles_loop stamp files :
  ∃ r, unzipLoop (S (queue_weight files)) stamp 0 files = Some r
       ∧ traverseAndUnzipFiles stamp files = r.
Proof.
  unfold traverseAndUnzipFiles.
  destruct (unzipLoop_enough (S (queue_weight files)) stamp 0 files) as [r Hr];
    [lia|]. exists r. by rewrite Hr.
Qed.

(** X18. What [traverseAndUnzipFiles] returns holds no archive: it
    starts with the files of the input that are no archives, in their
    order, and it has one entry for every buffer that is no archive, in
    the input or in an archive at any depth. *)
Theorem traverseAndUnzipFiles_flat (stamp : nat → string)
    (files unzipped : list PathBuffer) :
  traverseAndUnzipFiles stamp files = Ok unzipped →
  Forall (λ file, isZip (buffer file) = false) unzipped
  ∧ filter (λ file, isZip (buffer file) = false) files `prefix_of` unzipped
  ∧ length unzipped = sum_list_with (λ file, plain_leaves (buffer file)) files.
Proof.
  destruct (traverseAndUnzipFiles_loop stamp files) as (r & Hr & ->).
  intros ->. by apply unzipLoop_Ok in Hr.
Qed.

Lemma unzipLoop_plain fuel stamp count queue :
  Forall (λ file, isZip (buffer file) = false) queue →
  length queue < fuel →
  unzipLoop fuel stamp count queue = Some (Ok queue).
Proof.
  revert queue. induction fuel as [|fuel IH]; intros queue Hq Hlen; [lia|].
  destruct queue as [|[p b] rest]; [done|].
  apply Forall_cons in Hq as [Hb Hrest]. cbn [unzipLoop buffer] in *.
  destruct b as [text| |]; [|done..].
  rewrite IH by (done || (cbn in Hlen; lia)). done.
Qed.

(** X19. Files among which there is no archive come back as they
    are. *)
Theorem traverseAndUnzipFiles_no_archive (stamp : nat → string)
    (files : list PathBuffer) :
  Forall (λ file, isZip (buffer file) = false) files →
  traverseAndUnzipFiles stamp files = Ok files.
Proof.
  intros Hplain. unfold traverseAndUnzipFiles.
  rewrite unzipLoop_plain; [done|done|].
  unfold queue_weight. clear Hplain.
  induction files as [|[p b] files IH]; cbn; [lia|].
  pose proof (buffer_weight_pos b). lia.
Qed.

Lemma walk_collect {B : Type} (g : Buffer → list B) path (t : Tree Buffer) :
  walk path t ≫= (λ f, g f.2) = tree_collect g t.
Proof.
  revert path. induction t as [a|children IH|] using Tree_forall_ind;
    intros path; [cbn; by rewrite app_nil_r| |done].
  rewrite walk_TDir. unfold walk_each. cbn [tree_collect].
  induction children as [|[name child] children IHc]; [done|].
  apply Forall_cons in IH as [IH1 IH]. cbn [mbind list_bind fst snd] in *.
  rewrite bind_app, IH1, IHc by done. done.
Qed.

Lemma members_faults children :
  members children ≫= (λ file, faults (buffer file))
  = tree_collect faults (TDir children).
Proof.
  unfold members.
  rewrite <- (walk_collect faults EmptyString (TDir children)).
  induction (walk EmptyString (TDir children)) as [|f l IH]; [done|].
  cbn. by rewrite <- IH.
Qed.

Lemma unzipLoop_faults fuel stamp count queue r :
  unzipLoop fuel stamp count queue = Some r →
  (isOk r = true ↔ queue ≫= (λ file, faults (buffer file)) = [])
  ∧ ∀ e, r = Throw e →
      (None ∈ queue ≫= (λ file, faults (buffer file))
       ∧ ∃ opened, e = nonexistent ("tmp-unzipped-" +:+ stamp opened))
      ∨ Some e ∈ queue ≫= (λ file, faults (buffer file)).
Proof.
  revert count queue r. induction fuel as [|fuel IH];
    intros count queue r H; [done|].
  destruct queue as [|[p b] rest].
  { injection H as <-. split; [done|]. intros e. discriminate. }
  cbn [unzipLoop buffer] in H.
  change ((mkPathBuffer p b :: rest) ≫= (λ file, faults (buffer file)))
    with (faults b ++ (rest ≫= (λ file, faults (buffer file)))).
  destruct b as [text|[children|]|e0].
  - destruct (unzipLoop fuel stamp count rest) as [r'|] eqn:Hr; [|done].
    cbn in H. injection H as <-. apply IH in Hr as [Hok Hthrow].
    cbn [faults app]. split.
    + rewrite <- Hok. by destruct r'.
    + intros e He. apply Hthrow. by destruct r'; [|injection He as ->].
  - rewrite unzip_members in H. apply IH in H as [Hok Hthrow].
    rewrite bind_app, members_faults in Hok, Hthrow. cbn [faults].
    split.
    + rewrite Hok. split; intros [H1 H2]%app_eq_nil; by rewrite H1, H2.
    + intros e He. destruct (Hthrow e He) as [[Hin Hop]|Hin].
      * left. split; [|done]. apply elem_of_app.
        apply elem_of_app in Hin. tauto.
      * right. apply elem_of_app. apply elem_of_app in Hin. tauto.
  - rewrite unzip_nothing in H. injection H as <-. cbn [faults]. split.
    + done.
    + intros e [= <-]. left. split; [apply list_elem_of_here|].
      by exists count.
  - injection H as <-. cbn [faults]. split; [done|].
    intros e [= <-]. right. apply list_elem_of_here.
Qed.

(** X20. [traverseAndUnzipFiles] returns exactly when every archive of
    the input, at any depth, extracts to something. What it throws
    otherwise is the error of the library for a damaged archive of the
    input, or the error for a nonexistent path that names the staging
    directory of an archive without entries. *)
Theorem traverseAndUnzipFiles_error (stamp : nat → string)
    (files : list PathBuffer) :
  (isOk (traverseAndUnzipFiles stamp files) = true
   ↔ files ≫= (λ file, faults (buffer file)) = [])
  ∧ ∀ e, traverseAndUnzipFiles stamp files = Throw e →
      (None ∈ files ≫= (λ file, faults (buffer file))
       ∧ ∃ opened, e = nonexistent ("tmp-unzipped-" +:+ stamp opened))
      ∨ Some e ∈ files ≫= (λ file, faults (buffer file)).
Proof.
  destruct (traverseAndUnzipFiles_loop stamp files) as (r & Hr & ->).
  by apply unzipLoop_faults in Hr.
Qed.

(** * Paths, unused files and widening *)

Lemma collectPaths_nothing fs paths files ignoring :
  Forall (λ p, ∀ node, fs p = Some node →
                       intact node = true ∧ node_segments node = []) paths →
  (collectPaths fs paths files ignoring).1 = Ok files.
Proof.
  intros Hnone. revert ignoring.
  induction Hnone as [|p paths Hp _ IH]; intros ig; [done|].
  cbn [collectPaths]. destruct (fs p) as [node|] eqn:Hfs; [|apply IH].
  destruct (Hp node eq_refl) as [Hintact Hfiles].
  pose proof (visit_cases p node) as Hv. rewrite Hintact, Hfiles in Hv.
  cbn [traversePathRecursively]. rewrite Hv. cbn [map fmap list_fmap].
  rewrite app_nil_r. apply IH.
Qed.

(** X21. When there is no regular file at or below any of the paths,
    because none exists or the directories are empty, and no entry
    below them is missing, [checkPaths] throws the error that no
    metadata file was found, with or without a collector. *)
Theorem checkPaths_nothing_to_read (stamp : nat → string)
    (fs : string → option (Node Buffer)) (paths : list string)
    (ignoring : option (list string)) :
  Forall (λ p, ∀ node, fs p = Some node →
                       intact node = true ∧ node_segments node = []) paths →
  (checkPaths stamp fs paths ignoring).1 = Throw (Error not_found_msg).
Proof.
  intros Hnone. unfold checkPaths. cbn [fst].
  by rewrite collectPaths_nothing.
Qed.

Lemma checkMetadata_used byHash acc metadata acc' :
  checkMetadata byHash acc metadata = Ok acc' →
  ∃ r, rearrangeSources metadata byHash = Ok r
       ∧ acc'.2 = acc.2 ++ (map_to_list (metadata2provided r)).*2.
Proof.
  unfold checkMetadata. intros H. apply bind_Ok in H as (r & Hr & H).
  injection H as <-. by exists r.
Qed.

Lemma foldM_checkMetadata_used byHash mds acc res :
  foldM (checkMetadata byHash) acc mds = Ok res →
  ∀ file, file ∈ res.2 ↔ file ∈ acc.2 ∨ used_by byHash mds file.
Proof.
  revert acc. induction mds as [|md mds IH]; intros acc H file.
  - injection H as <-. split; [by left|].
    intros [?|(? & ? & ? & Hin & _)]; [done|]. by apply elem_of_nil in Hin.
  - cbn [foldM] in H. apply bind_Ok in H as (acc1 & Hstep & H).
    apply checkMetadata_used in Hstep as (r & Hr & Hused).
    rewrite (IH _ H file), Hused, elem_of_app, list_elem_of_fmap.
    split.
    + intros [[?|([k p] & -> & Hkp)]|(m & r' & k & Hin & Hr' & Hk)].
      * by left.
      * right. exists md, r, k. split; [by left|]. split; [done|].
        by apply elem_of_map_to_list in Hkp.
      * right. exists m, r', k. split; [by right|done].
    + intros [?|(m & r' & k & Hin & Hr' & Hk)]; [by left; left|].
      apply elem_of_cons in Hin as [->|Hin].
      * left; right. exists (k, file). split; [done|].
        apply elem_of_map_to_list. congruence.
      * right. by exists m, r', k.
Qed.

(** X22. With a collector, [checkFiles] appends to it the paths of the
    source files that no metadata document of the batch resolved a
    source to, in the order of the files. *)
Theorem checkFiles_unused (stamp : nat → string)
    (files unzipped : list PathBuffer) (unused : list (option string))
    (mds : list (option JSON)) (srcs : list PathContent)
    (checked : list CheckedContract) (unused' : option (list (option string))) :
  traverseAndUnzipFiles stamp files = Ok unzipped →
  splitFiles (parsedFiles unzipped) = Ok (mds, srcs) →
  checkFiles stamp files (Some unused) = Ok (checked, unused') →
  ∃ usedFiles : list (option string),
    unused' = Some (unused ++ filter (λ file, file ∉ usedFiles) (path <$> srcs))
    ∧ ∀ file, file ∈ usedFiles ↔ used_by (storeByHash srcs) mds file.
Proof.
  intros Hunzip Hsplit. unfold checkFiles. rewrite Hunzip.
  cbn [mbind result_bind]. rewrite Hsplit. cbn [mbind result_bind fst snd].
  intros H. apply bind_Ok in H as ([checked0 usedFiles] & Hloop & H).
  injection H as <- <-. exists usedFiles. split; [done|].
  intros file. rewrite (foldM_checkMetadata_used _ _ _ _ Hloop file).
  cbn [snd]. split; [|by right].
  intros [Hin|?]; [|done]. by apply elem_of_nil in Hin.
Qed.

Lemma pathContentArrayToStringMap_fold (l : list (nat * PathContent))
    (m : gmap string string) (k : string) :
  foldl (λ (stringMapResult : gmap string string) (e : nat * PathContent),
           let '(i, elem) := e in
           if truthy_path (path elem)
           then assign_prop (default EmptyString (path elem)) (content elem)
                  stringMapResult
           else assign_prop ("path-" +:+ pretty i) (content elem)
                  stringMapResult)
        m l !! k
  = if decide (k = "__proto__") then m !! k
    else match last (filter (λ e, stringMap_key e.1 e.2 = k) l) with
         | Some e => Some (content e.2)
         | None => m !! k
         end.
Proof.
  revert m. induction l as [|[i elem] l IH] using rev_ind; intros m.
  { by destruct (decide _). }
  rewrite foldl_app, filter_app. cbn [foldl].
  match goal with
  | |- (if _ then assign_prop ?k1 _ ?acc else assign_prop ?k2 _ ?acc) !! _ = _ =>
      assert ((if truthy_path (path elem) then assign_prop k1 (content elem) acc
               else assign_prop k2 (content elem) acc)
              = assign_prop (stringMap_key i elem) (content elem) acc) as ->
        by (unfold stringMap_key; by destruct (truthy_path (path elem)))
  end.
  specialize (IH m). destruct (decide (k = "__proto__")) as [->|Hown].
  { by rewrite lookup_assign_prop_proto. }
  rewrite filter_cons, filter_nil. cbn [fst snd]. case_decide as Hk.
  - rewrite last_snoc. subst k. by rewrite lookup_assign_prop_eq.
  - rewrite app_nil_r, lookup_assign_prop_ne by done. apply IH.
Qed.

(** X23. [pathContentArrayToStringMap] files every element under its
    path, or under [path-i] when it has none and stands at index [i];
    a key holds the content of the last element filed under it, there
    are no other keys, and nothing is filed under [__proto__]. *)
Theorem pathContentArrayToStringMap_lookup (pathContentArr : list PathContent)
    (k : string) :
  pathContentArrayToStringMap pathContentArr !! k
  = if decide (k = "__proto__") then None
    else (λ e : nat * PathContent, content e.2)
         <$> last (filter (λ e, stringMap_key e.1 e.2 = k)
                          (imap pair pathContentArr)).
Proof.
  unfold pathContentArrayToStringMap.
  rewrite pathContentArrayToStringMap_fold.
  destruct (decide _); [done|]. by destruct (last _).
Qed.

Lemma pathContentArrayToStringMap_Some (srcs : list PathContent) k v :
  pathContentArrayToStringMap srcs !! k = Some v →
  ∃ i file, srcs !! i = Some file ∧ stringMap_key i file = k
            ∧ content file = v.
Proof.
  unfold pathContentArrayToStringMap.
  rewrite pathContentArrayToStringMap_fold.
  destruct (decide _); [done|].
  destruct (last _) as [[i file]|] eqn:Hl; [|done].
  intros [= <-]. apply last_Some_elem_of, list_elem_of_filter in Hl as [Hk Hin].
  apply elem_of_lookup_imap_1 in Hin as (j & y & [= -> ->] & Hj).
  by exists j, y.
Qed.

Lemma pathContentArrayToStringMap_is_Some (srcs : list PathContent) i file :
  srcs !! i = Some file →
  stringMap_key i file ≠ "__proto__" →
  is_Some (pathContentArrayToStringMap srcs !! stringMap_key i file).
Proof.
  intros Hi Hown. unfold pathContentArrayToStringMap.
  rewrite pathContentArrayToStringMap_fold. rewrite decide_False by done.
  destruct (last _) as [e|] eqn:Hl; [by eexists|].
  exfalso. apply (elem_of_lookup_imap_2 pair) in Hi.
  assert ((i, file) ∈ filter (λ e, stringMap_key e.1 e.2 = stringMap_key i file)
                        (imap pair srcs)) as Hin
    by (by apply list_elem_of_filter).
  destruct (filter _ _) as [|x l] eqn:Hf; [by apply elem_of_nil in Hin|].
  assert (is_Some (last (x :: l))) as [? Hsome] by (by apply last_is_Some).
  congruence.
Qed.

(** Widening leaves the sources of a contract without the key
    [__proto__]. *)
Lemma useAllSources_own (stamp : nat → string)
    (contract contract' : CheckedContract) (files : list PathBuffer) :
  solidity contract !! "__proto__" = None →
  useAllSources stamp contract files = Ok contract' →
  solidity contract' !! "__proto__" = None.
Proof.
  intros Hown. unfold useAllSources. intros H.
  apply bind_Ok in H as (unzipped & _ & H).
  apply bind_Ok in H as (split & _ & [= <-]). cbn [solidity].
  apply lookup_union_None. split; [done|].
  unfold pathContentArrayToStringMap.
  by rewrite pathContentArrayToStringMap_fold, decide_True.
Qed.

(** X24. Widening adds the source files of the batch to the sources of
    the contract: each of them whose key is not [__proto__] is filed
    under its key, a key that the contract does not have yet gets the
    content of a source file of the batch, and no other keys appear. *)
Theorem useAllSources_adds_sources (stamp : nat → string)
    (contract contract' : CheckedContract) (files unzipped : list PathBuffer)
    (mds : list (option JSON)) (srcs : list PathContent) :
  traverseAndUnzipFiles stamp files = Ok unzipped →
  splitFiles (parsedFiles unzipped) = Ok (mds, srcs) →
  useAllSources stamp contract files = Ok contract' →
  (∀ i file, srcs !! i = Some file →
             stringMap_key i file ≠ "__proto__" →
             is_Some (solidity contract' !! stringMap_key i file))
  ∧ (∀ k v, solidity contract !! k = None →
            solidity contract' !! k = Some v →
            ∃ i file, srcs !! i = Some file ∧ stringMap_key i file = k
                      ∧ content file = v).
Proof.
  intros Hunzip Hsplit. unfold useAllSources. rewrite Hunzip.
  cbn [mbind result_bind]. rewrite Hsplit. cbn [mbind result_bind snd].
  intros [= <-]. cbn [solidity]. split.
  - intros i file Hi Hown.
    destruct (pathContentArrayToStringMap_is_Some srcs i file Hi Hown)
      as [v Hv].
    destruct (solidity contract !! stringMap_key i file) as [w|] eqn:Hw.
    + exists w. by apply lookup_union_Some_l.
    + exists v. by rewrite lookup_union_r.
  - intros k v Hnone. rewrite lookup_union_r by done.
    apply pathContentArrayToStringMap_Some.
Qed.

(** * What the variations make up for *)

Lemma trimEnd_app_white (s w : string) :
  all_white w = true → trimEnd (s +:+ w) = trimEnd s.
Proof.
  intros Hw. induction s as [|c s IH].
  - by apply trimEnd_empty_white.
  - change (String c s +:+ w) with (String c (s +:+ w)).
    by rewrite !trimEnd_cons, IH.
Qed.

(** X25. The variations make up for line ends and for white space at
    the end: a text without carriage returns is among the variations of
    its copy with CR LF line ends, and a text that ends in no white
    space, in one line feed or in one CR LF is among the variations of
    any copy that differs from it in the white space at the end. *)
Theorem variations_cover (p : option string) (original : string) :
  (occurs CR original = false →
   original
   ∈ content <$> generateVariations (mkPathContent p (toCRLF original)))
  ∧ (∀ w ending,
       all_white w = true →
       trimEnd original = original →
       ending ∈ [EmptyString; str LF; str CR +:+ str LF] →
       original +:+ ending
       ∈ content <$> generateVariations (mkPathContent p (original +:+ w))).
Proof.
  split.
  - intros Hcr. apply list_elem_of_fmap. exists (mkPathContent p original).
    split; [done|]. unfold generateVariations. apply list_elem_of_fmap.
    exists original. split; [done|].
    cbn -[toCRLF toLF trimEnd]. rewrite toLF_toCRLF_cancel by done.
    do 12 apply list_elem_of_further. apply list_elem_of_here.
  - intros w ending Hw Htrim Hending.
    apply list_elem_of_fmap. exists (mkPathContent p (original +:+ ending)).
    split; [done|]. unfold generateVariations. apply list_elem_of_fmap.
    exists (original +:+ ending). split; [done|].
    cbn -[toCRLF toLF trimEnd]. rewrite trimEnd_app_white, Htrim by done.
    apply elem_of_cons in Hending as [->|Hending].
    { rewrite append_nil_r. apply list_elem_of_further, list_elem_of_here. }
    apply elem_of_cons in Hending as [->|Hending].
    { do 2 apply list_elem_of_further. apply list_elem_of_here. }
    apply elem_of_cons in Hending as [->|Hending].
    { do 3 apply list_elem_of_further. rewrite append_assoc.
      apply list_elem_of_here. }
    by apply elem_of_nil in Hending.
Qed.
End Validation.

(** ** Sample inputs

    The inputs on which the statements below are run. The platform
    parameters are instantiated with the hash above, with an error for
    what it rejects, with the decimal text of a number for [String(n)]
    (the samples hold no number that prints otherwise) and with a
    comparison of strings and numbers that never holds (the samples
    compare none). *)
Module Sample.

Definition number_text (lexeme : string) : string := lexeme.
Definition rejects (v : JSON) : exn := Error "keccak256: the input is no string".
Definition never_equal (s : string) (v : JSON) : bool := false.
Definition resolve (path : string) : string := "/work/" +:+ path.
Definition stamp (k : nat) : string := "1652274174745-" +:+ pretty k.

(** A metadata document with three sources: [A.sol] with its content
    and the hash of that content, [B.sol] without content, [C.sol] with
    a content that does not have the declared hash. *)
Definition metadata_text : string :=
  dq "{'compiler':{'version':'0.8.0'},'language':'Solidity','settings':{'compilationTarget':{'A.sol':'A'}},'sources':{'A.sol':{'content':'contract A {}','keccak256':'0x713073fa3404d26d3eb1ada031e6b51a3a0c135d0ee7c72ec87e0e77e004cf8c'},'B.sol':{'keccak256':'0x01','urls':['bzz-raw://b']},'C.sol':{'content':'contract C {}','keccak256':'0x02'}},'version':1}".

(** A metadata document whose only source has an empty content and
    declares the hash of the text [contract A {}]. *)
Definition empty_content_text : string :=
  dq "{'compiler':{'version':'0.8.0'},'language':'Solidity','settings':{'compilationTarget':{'A.sol':'A'}},'sources':{'A.sol':{'content':'','keccak256':'0x713073fa3404d26d3eb1ada031e6b51a3a0c135d0ee7c72ec87e0e77e004cf8c'}},'version':1}".

Definition A_sol : PathContent := mkPathContent (Some "A.sol") "contract A {}".

(** A metadata document without sources. *)
Definition bare_metadata_text : string :=
  dq "{'compiler':{'version':'0.8.0'},'language':'Solidity','settings':{'compilationTarget':{'A.sol':'A'}},'sources':{},'version':1}".

(** A metadata document with two compilation targets. *)
Definition two_targets_text : string :=
  dq "{'compiler':{'version':'0.8.0'},'language':'Solidity','settings':{'compilationTarget':{'A.sol':'A','B.sol':'B'}},'sources':{},'version':1}".

(** The bare metadata document, encoded as a JSON string. *)
Definition double_encoded_text : string :=
  dq "'{\'compiler\':{\'version\':\'0.8.0\'},\'language\':\'Solidity\',\'settings\':{\'compilationTarget\':{\'A.sol\':\'A\'}},\'sources\':{},\'version\':1}'".

(** A build artifact that holds the bare metadata document as a string. *)
Definition artifact_text : string :=
  dq "{'contractName':'A','metadata':'{\'compiler\':{\'version\':\'0.8.0\'},\'language\':\'Solidity\',\'settings\':{\'compilationTarget\':{\'A.sol\':\'A\'}},\'sources\':{},\'version\':1}'}".

(** An object that is no metadata document and holds none. *)
Definition abi_text : string := dq "{'contractName':'A','abi':[]}".

(** A build report whose only contract carries the metadata document
    with two compilation targets. *)
Definition build_report_text : string :=
  dq "{'_format':'hh-sol-build-info-1','input':{'sources':{'A.sol':{'content':'contract A {}'}}},'output':{'contracts':{'A.sol':{'A':{'metadata':'{\'compiler\':{\'version\':\'0.8.0\'},\'language\':\'Solidity\',\'settings\':{\'compilationTarget\':{\'A.sol\':\'A\',\'B.sol\':\'B\'}},\'sources\':{},\'version\':1}'}}}}}".

Definition file (name text : string) : PathBuffer :=
  mkPathBuffer (Some name) (Plain text).

(** A file system with a file, [metadata.json], a directory,
    [project], that holds a source and a link to nowhere, and a
    directory without entries, [empty]. *)
Definition fs (path : string) : option (Node Buffer) :=
  if decide (path = "metadata.json")
  then Some (NFile (Plain bare_metadata_text))
  else if decide (path = "project")
  then Some (NDir [("A.sol", Some (NFile (Plain "contract A {}")));
                   ("link", None)])
  else if decide (path = "empty") then Some (NDir [])
  else None.

(** A metadata document whose only source is declared under the path
    [__proto__]. *)
Definition proto_text : string :=
  dq "{'compiler':{'version':'0.8.0'},'language':'Solidity','settings':{'compilationTarget':{'A.sol':'A'}},'sources':{'__proto__':{'keccak256':'0x01','urls':['bzz-raw://a']}},'version':1}".


(** A contract with one verified source. *)
Definition contract : CheckedContract :=
  mkCheckedContract (JSON_parse bare_metadata_text)
    {[ "A.sol" := "contract A {}" ]} ∅ ∅.

(** The bare metadata document, encoded as a JSON string twice. *)
Definition triple_encoded_text : string :=
  dq "'\'{\\\'compiler\\\':{\\\'version\\\':\\\'0.8.0\\\'},\\\'language\\\':\\\'Solidity\\\',\\\'settings\\\':{\\\'compilationTarget\\\':{\\\'A.sol\\\':\\\'A\\\'}},\\\'sources\\\':{},\\\'version\\\':1}\''".

(** A metadata document whose only source carries its content and the
    hash of that content. *)
Definition inline_text : string :=
  dq "{'compiler':{'version':'0.8.0'},'language':'Solidity','settings':{'compilationTarget':{'A.sol':'A'}},'sources':{'A.sol':{'content':'contract A {}','keccak256':'0x713073fa3404d26d3eb1ada031e6b51a3a0c135d0ee7c72ec87e0e77e004cf8c'}},'version':1}".

(** A metadata document whose only source carries no content: it
    declares the hash of the text [contract A {}] followed by a line
    feed. *)
Definition declared_text : string :=
  dq "{'compiler':{'version':'0.8.0'},'language':'Solidity','settings':{'compilationTarget':{'A.sol':'A'}},'sources':{'A.sol':{'keccak256':'0x883c1af8f1ad6d7cdfb8aaed151eebcdd940c8dae0a659cb38054c7ec32ce890','urls':['bzz-raw://a']}},'version':1}".

Definition A_lf_hash : string :=
  "0x883c1af8f1ad6d7cdfb8aaed151eebcdd940c8dae0a659cb38054c7ec32ce890".

(** The source with a line feed at the end, and its copy with CR LF. *)
Definition A_lf : PathContent :=
  mkPathContent (Some "contracts/A.sol") ("contract A {}" +:+ str LF).
Definition A_crlf : PathContent :=
  mkPathContent (Some "contracts/A.sol")
    ("contract A {}" +:+ str CR +:+ str LF).

(** An index that holds the source with the line feed under its hash. *)
Definition index : gmap string PathContent := {[ A_lf_hash := A_lf ]}.

(** A build report whose only contract carries the text of an empty
    object as its metadata. *)
Definition broken_report_text : string :=
  dq "{'_format':'hh-sol-build-info-1','input':{'sources':{'A.sol':{'content':'contract A {}'}}},'output':{'contracts':{'A.sol':{'A':{'metadata':'{}'}}}}}".

(** A build report without [input]. *)
Definition report_without_input_text : string :=
  dq "{'_format':'hh-sol-build-info-1'}".

(** An upload: an archive with a source in a directory and a metadata
    file. *)
Definition upload : PathBuffer :=
  mkPathBuffer (Some "upload.zip")
    (Zip (Some [("contracts", TDir [("A.sol", TFile (Plain "contract A {}"))]);
                ("metadata.json", TFile (Plain bare_metadata_text))])).


End Sample.


(** * The statements on the sample inputs *)

(** The partition of the three sources of the sample document. *)
Lemma rearrangeSources_partition_sample :
  ∃ r, rearrangeSources Keccak.keccak256 Sample.rejects Sample.number_text
         Sample.never_equal (JSON_parse Sample.metadata_text) ∅ = Ok r
       ∧ dom (foundSources r) = {[ "A.sol" ]}
       ∧ dom (missingSources r) = {[ "B.sol" ]}
       ∧ dom (invalidSources r) = {[ "C.sol" ]}
       ∧ size (foundSources r) + size (missingSources r)
         + size (invalidSources r)
         = length (own_paths (sourcePaths (JSON_parse Sample.metadata_text))).
Proof.
  assert (∃ r, rearrangeSources Keccak.keccak256 Sample.rejects
                 Sample.number_text Sample.never_equal
                 (JSON_parse Sample.metadata_text) ∅ = Ok r)
    as [r Hr] by (vm_compute; eexists; reflexivity).
  exists r. split; [exact Hr|].
  pose proof (rearrangeSources_partition _ _ _ _ _ _ _ Hr)
    as (_ & _ & _ & _ & Hn).
  split; [|split; [|split; [|exact Hn]]];
    vm_compute in Hr; injection Hr as <-; vm_compute; reflexivity.
Defined.

(** C1. A document that declares a source under the path [__proto__]:
    the resolver returns, the document declares one source path, and
    the path is in none of the three maps, which are all empty. *)
Lemma proto_source_is_in_no_map :
  sourcePaths (JSON_parse Sample.proto_text) = ["__proto__"]
  ∧ ∃ r, rearrangeSources Keccak.keccak256 Sample.rejects Sample.number_text
           Sample.never_equal (JSON_parse Sample.proto_text) ∅ = Ok r
         ∧ foundSources r = ∅
         ∧ missingSources r = ∅
         ∧ invalidSources r = ∅
         ∧ "__proto__" ∈ queried r.
Proof.
  split; [vm_compute; reflexivity|].
  assert (∃ r, rearrangeSources Keccak.keccak256 Sample.rejects
                 Sample.number_text Sample.never_equal
                 (JSON_parse Sample.proto_text) ∅ = Ok r)
    as [r Hr] by (vm_compute; eexists; reflexivity).
  exists r. split; [exact Hr|].
  vm_compute in Hr. injection Hr as <-.
  split; [reflexivity|]. split; [reflexivity|]. split; [reflexivity|].
  apply list_elem_of_here.
Qed.

(** The third source of the sample document holds a content that does
    not have the declared hash: it is invalid, and nothing else. *)
Lemma inline_mismatch_is_invalid_sample :
  ∃ r, rearrangeSources Keccak.keccak256 Sample.rejects Sample.number_text Sample.never_equal
         (JSON_parse Sample.metadata_text) ∅ = Ok r
       ∧ invalidSources r !! "C.sol"
         = Some (mkInvalid (Some (JStr "0x02"))
                   (Keccak.keccak256 "contract C {}") mismatch_msg)
       ∧ foundSources r !! "C.sol" = None
       ∧ missingSources r !! "C.sol" = None
       ∧ metadata2provided r !! "C.sol" = None
       ∧ "C.sol" ∉ queried r.
Proof.
  assert (∃ r, rearrangeSources Keccak.keccak256 Sample.rejects Sample.number_text
                 Sample.never_equal (JSON_parse Sample.metadata_text) ∅ = Ok r)
    as [r Hr] by (vm_compute; eexists; reflexivity).
  exists r. split; [exact Hr|].
  eapply (inline_mismatch_is_invalid _ _ _ _ _ _ _ _ "C.sol" _ "contract C {}"
            (Some (JStr "0x02")) Hr).
  - vm_compute. reflexivity.
  - vm_compute. do 2 apply list_elem_of_further. apply list_elem_of_here.
  - discriminate.
  - reflexivity.
  - discriminate.
  - reflexivity.
  - vm_compute. reflexivity.
Defined.

(** C3, as stated, fails for an empty inline content: the resolver
    takes the source as one without content, looks the declared hash up
    in the index and files the source under the found ones. *)
Lemma empty_inline_content_is_looked_up :
  let declared := Keccak.keccak256 "contract A {}" in
  let info := JObj [("content", JStr EmptyString); ("keccak256", JStr declared)] in
  let sources := Some (JObj [("A.sol", info)]) in
  getProp (JSON_parse Sample.empty_content_text) "sources" = Ok sources
  ∧ ("A.sol", info) ∈ entries sources
  ∧ getProp (Some info) "content" = Ok (Some (JStr EmptyString))
  ∧ getProp (Some info) "keccak256" = Ok (Some (JStr declared))
  ∧ Keccak.keccak256 EmptyString ≠ declared
  ∧ ∃ r,
      rearrangeSources Keccak.keccak256 Sample.rejects Sample.number_text Sample.never_equal
        (JSON_parse Sample.empty_content_text) {[ declared := Sample.A_sol ]}
      = Ok r
      ∧ invalidSources r !! "A.sol" = None
      ∧ foundSources r !! "A.sol" = Some "contract A {}"
      ∧ "A.sol" ∈ queried r.
Proof.
  intros declared info sources.
  split; [vm_compute; reflexivity|].
  split; [apply list_elem_of_here|].
  split; [reflexivity|]. split; [reflexivity|].
  split; [vm_compute; discriminate|].
  assert (∃ r, rearrangeSources Keccak.keccak256 Sample.rejects Sample.number_text
                 Sample.never_equal (JSON_parse Sample.empty_content_text)
                 {[ declared := Sample.A_sol ]} = Ok r)
    as [r Hr] by (vm_compute; eexists; reflexivity).
  exists r. split; [exact Hr|].
  vm_compute in Hr. injection Hr as <-.
  split; [reflexivity|]. split; [reflexivity|]. apply list_elem_of_here.
Qed.

(** Two files, the second a metadata document with two compilation
    targets: the error names the second. *)
Lemma splitFiles_compilationTarget_sample :
  let bad := mkPathContent (Some "bad.json") Sample.two_targets_text in
  let files :=
    [mkPathContent (Some "metadata.json") Sample.bare_metadata_text; bad] in
  no_build_report bad = true
  ∧ truthy (findMetadata Sample.number_text (content bad)) = true
  ∧ ∃ e, splitFiles Sample.number_text files = Throw e
         ∧ e = Error "Malformed settings.compilationTarget in: bad.json".
Proof.
  intros bad files. split; [reflexivity|]. split; [vm_compute; reflexivity|].
  destruct (splitFiles_compilationTarget Sample.number_text files bad)
    as [_ H].
  - apply list_elem_of_further, list_elem_of_here.
  - reflexivity.
  - vm_compute. reflexivity.
  - destruct H as (e & He & Hst).
    + intros Hs. apply (isOk_checkTarget Sample.number_text) in Hs.
      vm_compute in Hs. discriminate.
    + exists e. split; [exact He|].
      destruct (foldM (classify Sample.number_text) (mkSplit [] [] []) files)
        as [st|e'] eqn:Hf; [|vm_compute in Hf; discriminate].
      destruct (Hst st eq_refl) as [_ ->].
      vm_compute in Hf. injection Hf as <-. vm_compute. reflexivity.
Defined.

(** C4, as stated, fails for an offending file without a path, or with
    an empty one: the error counts the files and names none. *)
Lemma malformed_file_without_path_is_not_named :
  splitFiles Sample.number_text [mkPathContent None Sample.two_targets_text]
  = Throw (Error "Malformed settings.compilationTarget in: 1 metadata files")
  ∧ splitFiles Sample.number_text
      [mkPathContent (Some "bad.json") Sample.two_targets_text;
       mkPathContent (Some EmptyString) Sample.two_targets_text]
    = Throw (Error "Malformed settings.compilationTarget in: 2 metadata files").
Proof. split; vm_compute; reflexivity. Qed.

(** A metadata document that comes out of a build report is accepted
    with two compilation targets: [splitFiles] does not check it. *)
Lemma build_report_target_is_not_checked :
  splitFiles Sample.number_text
    [mkPathContent (Some "build-info/1.json") Sample.build_report_text]
  = Ok ([JSON_parse Sample.two_targets_text], [Sample.A_sol])
  ∧ ¬ single_target (JSON_parse Sample.two_targets_text).
Proof.
  split; [vm_compute; reflexivity|].
  intros Hs. apply (isOk_checkTarget Sample.number_text) in Hs.
      vm_compute in Hs. discriminate.
Qed.

(** C5, as stated, fails: a path that does not exist, given without a
    collector, is passed over and the call returns the contract of the
    other path. *)
Lemma missing_path_is_skipped :
  Sample.fs "nowhere" = None
  ∧ ∃ checked,
      checkPaths Keccak.keccak256 Sample.rejects Sample.number_text
        Sample.never_equal Sample.resolve Sample.stamp Sample.fs
        ["nowhere"; "metadata.json"] None
      = (Ok [checked], None).
Proof. split; [reflexivity|]. vm_compute. eexists. reflexivity. Qed.

(** Two paths of which neither exists, with a collector: the call
    throws for want of a metadata file, and both paths are in the
    collector all the same. *)
Lemma checkPaths_skips_missing_sample :
  (checkPaths Keccak.keccak256 Sample.rejects Sample.number_text
     Sample.never_equal Sample.resolve Sample.stamp Sample.fs
     ["nowhere"; "nothing"] (Some ["before"])).2
  = Some ["before"; "nowhere"; "nothing"]
  ∧ (checkPaths Keccak.keccak256 Sample.rejects Sample.number_text
       Sample.never_equal Sample.resolve Sample.stamp Sample.fs
       ["nowhere"; "nothing"] (Some ["before"])).1
    = Throw (Error not_found_msg).
Proof.
  destruct (checkPaths_skips_missing Keccak.keccak256 Sample.rejects
              Sample.number_text Sample.never_equal Sample.resolve
              Sample.stamp Sample.fs ["nowhere"; "nothing"])
    as (_ & _ & Hcollector & Hreached).
  split; [|vm_compute; reflexivity].
  rewrite Hcollector, Hreached; [reflexivity|].
  repeat constructor; intros node; vm_compute; discriminate.
Defined.

(** A directory with a link to nowhere between two paths that do not
    exist: the traversal throws at the link, and the collector holds the
    first path only. *)
Lemma dangling_link_ends_the_loop :
  checkPaths Keccak.keccak256 Sample.rejects Sample.number_text
    Sample.never_equal Sample.resolve Sample.stamp Sample.fs
    ["nowhere"; "project"; "nothing"] (Some [])
  = (Throw (nonexistent "project/link"), Some ["nowhere"]).
Proof. vm_compute. reflexivity. Qed.

(** Widening the sample contract with a metadata file and two sources:
    the verified [A.sol] stays, [B.sol] comes in, and a second widening
    changes nothing. *)
Lemma useAllSources_keeps_verified_sample :
  let files := [Sample.file "metadata.json" Sample.bare_metadata_text;
                Sample.file "A.sol" "contract A { uint x; }";
                Sample.file "B.sol" "contract B {}"] in
  ∃ widened,
    useAllSources Sample.number_text Sample.stamp Sample.contract files
    = Ok widened
    ∧ solidity widened !! "A.sol" = Some "contract A {}"
    ∧ solidity widened !! "B.sol" = Some "contract B {}"
    ∧ useAllSources Sample.number_text Sample.stamp widened files = Ok widened.
Proof.
  intros files.
  assert (∃ widened, useAllSources Sample.number_text Sample.stamp
                       Sample.contract files = Ok widened)
    as [widened Hw] by (vm_compute; eexists; reflexivity).
  exists widened. split; [exact Hw|].
  destruct (useAllSources_keeps_verified Sample.number_text Sample.stamp
              Sample.stamp _ _ _ Hw) as (Hkeep & _ & _ & _ & Hagain).
  split; [apply Hkeep; reflexivity|]. split; [|exact Hagain].
  vm_compute in Hw. injection Hw as <-. reflexivity.
Defined.



(** The bare document, encoded twice, is a metadata document; the
    object with an interface description only is a source. *)
Lemma classification_of_json_files_sample :
  let st := mkSplit [] [] [] in
  let encoded := mkPathContent (Some "A.json") Sample.double_encoded_text in
  let other := mkPathContent (Some "abi.json") Sample.abi_text in
  extractMetadataFromString Sample.number_text
    (JStr Sample.double_encoded_text)
  = JSON_parse Sample.bare_metadata_text
  ∧ classify Sample.number_text st other = Ok (mkSplit [] [other] []).
Proof.
  intros st encoded other. split.
  - destruct (JSON_parse Sample.bare_metadata_text) as [obj|] eqn:Hobj;
      [|vm_compute in Hobj; discriminate].
    destruct (classification_of_json_files Sample.number_text st encoded
                Sample.bare_metadata_text obj []) as [H _].
    apply H; [vm_compute; reflexivity|exact Hobj|].
    vm_compute in Hobj. injection Hobj as <-. reflexivity.
  - destruct (classification_of_json_files Sample.number_text st other
                EmptyString JNull
                [("contractName", JStr "A"); ("abi", JArr [])]) as [_ H].
    apply H; [left; vm_compute; reflexivity|reflexivity|reflexivity|].
    intros matchRes Hm. vm_compute in Hm. discriminate.
Defined.

(** C8, as stated, fails for a build artifact: it parses to an object
    without the two fields, and the classifier takes the metadata string
    nested in it, so the file counts as a metadata document and not as a
    source. *)
Lemma object_with_nested_metadata_is_metadata :
  (∃ nested,
     JSON_parse Sample.artifact_text
     = Some (JObj [("contractName", JStr "A"); ("metadata", JStr nested)])
     ∧ isMetadata
         (Some (JObj [("contractName", JStr "A"); ("metadata", JStr nested)]))
       = Ok false)
  ∧ contains HARDHAT_OUTPUT_FORMAT Sample.artifact_text = false
  ∧ splitFiles Sample.number_text
      [mkPathContent (Some "A.json") Sample.artifact_text]
    = Ok ([JSON_parse Sample.bare_metadata_text], []).
Proof.
  split; [|split; vm_compute; reflexivity].
  assert (∃ v, JSON_parse Sample.artifact_text = Some v) as [v Hv]
    by (vm_compute; eexists; reflexivity).
  rewrite Hv. vm_compute in Hv. injection Hv as <-.
  eexists. split; reflexivity.
Qed.


(** An archive with a directory: the members keep their paths below the
    staging directory; an archive without entries leaves no staging
    directory, and the traversal throws. *)
Lemma archive_members_sample :
  traverseAndUnzipFiles Sample.stamp
    [mkPathBuffer (Some "upload.zip")
       (Zip (Some [("contracts",
                    TDir [("A.sol", TFile (Plain "contract A {}"))]);
                   ("metadata.json",
                    TFile (Plain Sample.bare_metadata_text))]))]
  = Ok [Sample.file "contracts/A.sol" "contract A {}";
        Sample.file "metadata.json" Sample.bare_metadata_text]
  ∧ traverseAndUnzipFiles Sample.stamp
      [mkPathBuffer (Some "empty.zip") (Zip None)]
    = Throw (Error "Encountered a nonexistent path: tmp-unzipped-1652274174745-0").
Proof. split; vm_compute; reflexivity. Qed.

(** ** The resolver on sample documents *)

(** The only source of the document carries its content and the hash of
    that content: it is found. *)
Lemma inline_match_is_found_sample :
  ∃ r, rearrangeSources Keccak.keccak256 Sample.rejects Sample.number_text Sample.never_equal
         (JSON_parse Sample.inline_text) ∅ = Ok r
       ∧ foundSources r !! "A.sol" = Some "contract A {}"
       ∧ missingSources r !! "A.sol" = None
       ∧ invalidSources r !! "A.sol" = None
       ∧ metadata2provided r !! "A.sol" = None
       ∧ "A.sol" ∉ queried r.
Proof.
  assert (∃ r, rearrangeSources Keccak.keccak256 Sample.rejects Sample.number_text
                 Sample.never_equal (JSON_parse Sample.inline_text) ∅ = Ok r)
    as [r Hr] by (vm_compute; eexists; reflexivity).
  exists r. split; [exact Hr|].
  eapply (inline_match_is_found _ _ _ _ _ _ _ _ "A.sol" _ "contract A {}" _ Hr).
  - vm_compute. reflexivity.
  - vm_compute. apply list_elem_of_here.
  - discriminate.
  - reflexivity.
  - discriminate.
  - reflexivity.
  - vm_compute. reflexivity.
Defined.

(** The only source of the document carries no content, and the index
    holds a file under the declared hash: the source is found with the
    content and the path of that file. *)
Lemma index_hit_is_found_sample :
  ∃ r, rearrangeSources Keccak.keccak256 Sample.rejects Sample.number_text Sample.never_equal
         (JSON_parse Sample.declared_text) Sample.index = Ok r
       ∧ metadata2provided r !! "A.sol" = Some (Some "contracts/A.sol")
       ∧ "A.sol" ∈ queried r
       ∧ foundSources r !! "A.sol" = Some (content Sample.A_lf)
       ∧ missingSources r !! "A.sol" = None.
Proof.
  assert (∃ r, rearrangeSources Keccak.keccak256 Sample.rejects Sample.number_text
                 Sample.never_equal (JSON_parse Sample.declared_text)
                 Sample.index = Ok r)
    as [r Hr] by (vm_compute; eexists; reflexivity).
  exists r. split; [exact Hr|].
  epose proof (index_hit_is_found _ _ _ _ _ _ _ _ "A.sol" _ _ _
                 Sample.A_lf_hash Sample.A_lf Hr) as H.
  edestruct H as (Hp & Hq & _ & Hfound & _).
  - vm_compute. reflexivity.
  - vm_compute. apply list_elem_of_here.
  - discriminate.
  - reflexivity.
  - reflexivity.
  - reflexivity.
  - reflexivity.
  - vm_compute. reflexivity.
  - split; [exact Hp|]. split; [exact Hq|]. apply Hfound. discriminate.
Defined.

(** The same document over an empty index: the source is missing, with
    the declared hash and the declared urls. *)
Lemma index_miss_is_missing_sample :
  ∃ r, rearrangeSources Keccak.keccak256 Sample.rejects Sample.number_text Sample.never_equal
         (JSON_parse Sample.declared_text) ∅ = Ok r
       ∧ missingSources r !! "A.sol"
         = Some (mkMissing (Some (JStr Sample.A_lf_hash))
                   (Some (JArr [JStr "bzz-raw://a"])))
       ∧ foundSources r !! "A.sol" = None
       ∧ invalidSources r !! "A.sol" = None
       ∧ metadata2provided r !! "A.sol" = None
       ∧ "A.sol" ∈ queried r.
Proof.
  assert (∃ r, rearrangeSources Keccak.keccak256 Sample.rejects Sample.number_text
                 Sample.never_equal (JSON_parse Sample.declared_text) ∅ = Ok r)
    as [r Hr] by (vm_compute; eexists; reflexivity).
  exists r. split; [exact Hr|].
  eapply (index_miss_is_missing _ _ _ _ _ _ _ _ "A.sol" _ _ _ _ Hr).
  - vm_compute. reflexivity.
  - vm_compute. apply list_elem_of_here.
  - discriminate.
  - reflexivity.
  - reflexivity.
  - reflexivity.
  - reflexivity.
  - reflexivity.
Defined.

(** The provided path of the sample source leads back to the file in
    the index. *)
Lemma provided_paths_come_from_index_sample :
  ∃ r, rearrangeSources Keccak.keccak256 Sample.rejects Sample.number_text Sample.never_equal
         (JSON_parse Sample.declared_text) Sample.index = Ok r
       ∧ ∃ h pathContent,
           Sample.index !! h = Some pathContent
           ∧ path pathContent = Some "contracts/A.sol".
Proof.
  assert (∃ r, rearrangeSources Keccak.keccak256 Sample.rejects Sample.number_text
                 Sample.never_equal (JSON_parse Sample.declared_text)
                 Sample.index = Ok r)
    as [r Hr] by (vm_compute; eexists; reflexivity).
  exists r. split; [exact Hr|].
  destruct (provided_paths_come_from_index _ _ _ _ _ _ r "A.sol"
              (Some "contracts/A.sol") Hr)
    as (? & ? & ? & h & pathContent & _ & _ & _ & _ & _ & Hidx & Hpath & _).
  - vm_compute in Hr. injection Hr as <-. vm_compute. reflexivity.
  - exists h, pathContent. split; [exact Hidx|exact Hpath].
Defined.

(** ** The index of a sample file *)

(** The index of the copy with CR LF holds, under the hash of the text
    with a line feed, a variation of that copy. *)
Lemma storeByHash_sound_sample :
  ∃ stored,
    storeByHash Keccak.keccak256 [Sample.A_crlf] !! Sample.A_lf_hash
    = Some stored
    ∧ Keccak.keccak256 (content stored) = Sample.A_lf_hash
    ∧ ∃ pathContent,
        pathContent ∈ [Sample.A_crlf]
        ∧ stored ∈ generateVariations pathContent
        ∧ path stored = path pathContent.
Proof.
  assert (∃ stored,
            storeByHash Keccak.keccak256 [Sample.A_crlf] !! Sample.A_lf_hash
            = Some stored)
    as [stored Hs] by (vm_compute; eexists; reflexivity).
  exists stored. split; [exact Hs|].
  exact (proj2 (storeByHash_sound Keccak.keccak256 [Sample.A_crlf]
                  Sample.A_lf_hash stored) Hs).
Defined.

(** The document declares the hash of the text with a line feed, and
    the copy with CR LF is submitted: the source is found. *)
Lemma declared_variation_is_resolved_sample :
  ∃ r, rearrangeSources Keccak.keccak256 Sample.rejects Sample.number_text Sample.never_equal
         (JSON_parse Sample.declared_text)
         (storeByHash Keccak.keccak256 [Sample.A_crlf]) = Ok r
       ∧ ∃ stored submitted,
           submitted ∈ [Sample.A_crlf]
           ∧ stored ∈ generateVariations submitted
           ∧ Keccak.keccak256 (content stored)
             = Keccak.keccak256 (content Sample.A_lf)
           ∧ metadata2provided r !! "A.sol" = Some (path submitted)
           ∧ (content stored ≠ EmptyString →
              foundSources r !! "A.sol" = Some (content stored)).
Proof.
  assert (∃ r, rearrangeSources Keccak.keccak256 Sample.rejects Sample.number_text
                 Sample.never_equal (JSON_parse Sample.declared_text)
                 (storeByHash Keccak.keccak256 [Sample.A_crlf]) = Ok r)
    as [r Hr] by (vm_compute; eexists; reflexivity).
  exists r. split; [exact Hr|].
  eapply (declared_variation_is_resolved _ _ _ _ _ _ _ _ "A.sol" _ _
            Sample.A_crlf Sample.A_lf Hr).
  - vm_compute. reflexivity.
  - vm_compute. apply list_elem_of_here.
  - discriminate.
  - reflexivity.
  - reflexivity.
  - vm_compute. reflexivity.
  - apply list_elem_of_here.
  - vm_compute. do 12 apply list_elem_of_further. apply list_elem_of_here.
  - discriminate.
Defined.

(** ** Line ends and white space *)

Lemma toLF_toCRLF_sample :
  occurs CR ("contract A {" +:+ str LF +:+ "}" +:+ str LF) = false
  ∧ toLF (toCRLF ("contract A {" +:+ str LF +:+ "}" +:+ str LF))
    = "contract A {" +:+ str LF +:+ "}" +:+ str LF.
Proof.
  split; [reflexivity|]. apply toLF_toCRLF. reflexivity.
Defined.

(** ** The classifier on sample files *)

(** The document that is encoded as a JSON string is read at the second
    attempt, and it has the two marks of a metadata document. *)
Lemma extractMetadataFromString_sound_sample :
  ∃ obj props compiler,
    extractMetadataFromString Sample.number_text
      (JStr Sample.double_encoded_text) = Some obj
    ∧ obj = JObj props
    ∧ assoc "language" props = Some (JStr "Solidity")
    ∧ assoc "compiler" props = Some compiler
    ∧ truthy (Some compiler) = true.
Proof.
  assert (∃ obj, extractMetadataFromString Sample.number_text
                   (JStr Sample.double_encoded_text) = Some obj)
    as [obj Hobj] by (vm_compute; eexists; reflexivity).
  destruct (extractMetadataFromString_sound _ _ _ Hobj)
    as (props & compiler & H).
  exists obj, props, compiler. split; [exact Hobj|exact H].
Defined.

(** The document that is encoded as a JSON string twice is not read. *)
Lemma extractMetadataFromString_two_levels_sample :
  JSON_parse Sample.triple_encoded_text = Some (JStr Sample.double_encoded_text)
  ∧ extractMetadataFromString Sample.number_text
      (JStr Sample.triple_encoded_text) = None.
Proof.
  assert (JSON_parse Sample.triple_encoded_text
          = Some (JStr Sample.double_encoded_text)) as H1
    by (vm_compute; reflexivity).
  assert (∃ innermost, JSON_parse Sample.double_encoded_text
                       = Some (JStr innermost)) as [innermost H2]
    by (vm_compute; eexists; reflexivity).
  split; [exact H1|].
  exact (extractMetadataFromString_two_levels Sample.number_text _ _ _ H1 H2).
Defined.

(** A metadata file and a source: one document and one source file. *)
Lemma splitFiles_partition_sample :
  ∃ mds srcs,
    splitFiles Sample.number_text
      [mkPathContent (Some "metadata.json") Sample.bare_metadata_text;
       Sample.A_sol] = Ok (mds, srcs)
    ∧ srcs = [Sample.A_sol]
    ∧ length mds + length srcs = 2.
Proof.
  assert (∃ mds srcs,
            splitFiles Sample.number_text
              [mkPathContent (Some "metadata.json") Sample.bare_metadata_text;
               Sample.A_sol] = Ok (mds, srcs))
    as (mds & srcs & Hs) by (vm_compute; do 2 eexists; reflexivity).
  exists mds, srcs. split; [exact Hs|].
  assert (forallb no_build_report
            [mkPathContent (Some "metadata.json") Sample.bare_metadata_text;
             Sample.A_sol] = true) as Hplain by (vm_compute; reflexivity).
  destruct (splitFiles_partition Sample.number_text _ mds srcs Hplain Hs)
    as (Hsrcs & _ & Hlen).
  split; [|exact Hlen].
  vm_compute in Hs. injection Hs as _ <-. reflexivity.
Defined.

(** A file that holds the marker of a build report and is no JSON, and
    one that is an object without [input]. *)
Lemma build_report_errors_propagate_sample :
  splitFiles Sample.number_text
    [Sample.A_sol;
     mkPathContent (Some "build-info.json")
       (HARDHAT_OUTPUT_FORMAT +:+ " is the format")]
  = Throw SyntaxError
  ∧ splitFiles Sample.number_text
      [Sample.A_sol;
       mkPathContent (Some "build-info.json") Sample.report_without_input_text]
    = Throw TypeError.
Proof.
  split.
  - apply (build_report_errors_propagate Sample.number_text [Sample.A_sol] []
             (mkPathContent (Some "build-info.json")
                (HARDHAT_OUTPUT_FORMAT +:+ " is the format"))
             (mkSplit [] [Sample.A_sol] [])); vm_compute; reflexivity.
  - assert (∃ props, JSON_parse Sample.report_without_input_text
                     = Some (JObj props) ∧ assoc "input" props = None)
      as (props & Hp & Hi) by (vm_compute; eexists; split; reflexivity).
    apply (proj2 (build_report_errors_propagate Sample.number_text
                    [Sample.A_sol] []
                    (mkPathContent (Some "build-info.json")
                       Sample.report_without_input_text)
                    (mkSplit [] [Sample.A_sol] [])
                    ltac:(vm_compute; reflexivity)
                    ltac:(vm_compute; reflexivity)) props Hp Hi).
Defined.

(** The sample build report gives one source and one document. *)
Lemma extractHardhat_outputs_sample :
  ∃ mds srcs,
    extractHardhatMetadataAndSources Sample.number_text
      (mkPathContent (Some "build-info.json") Sample.build_report_text)
    = Ok (mds, srcs)
    ∧ srcs = [Sample.A_sol]
    ∧ Forall (λ metadata,
                ∀ obj, metadata = Some obj →
                       isMetadata (Some obj) = Ok true) mds.
Proof.
  assert (∃ mds srcs,
            extractHardhatMetadataAndSources Sample.number_text
              (mkPathContent (Some "build-info.json") Sample.build_report_text)
            = Ok (mds, srcs))
    as (mds & srcs & Hs) by (vm_compute; do 2 eexists; reflexivity).
  exists mds, srcs. split; [exact Hs|].
  assert (∃ hardhatJson,
            parse Sample.number_text (JStr Sample.build_report_text)
            = Ok hardhatJson
            ∧ ∃ input,
                getProp (Some hardhatJson) "input" = Ok input
                ∧ ∃ sourcesObject,
                    getProp input "sources" = Ok sourcesObject
                    ∧ typed_contents sourcesObject
                    ∧ omap source_of (entries sourcesObject) = [Sample.A_sol])
    as (hardhatJson & Hjson & input & Hinput & sourcesObject & Hsources
        & Htyped & Hfiles).
  { eexists. split; [vm_compute; reflexivity|].
    eexists. split; [vm_compute; reflexivity|].
    eexists. split; [vm_compute; reflexivity|].
    split; [|vm_compute; reflexivity].
    unfold typed_contents.
    match goal with
    | |- Forall _ (entries ?o) =>
        assert (entries o
                = [("A.sol", JObj [("content", JStr "contract A {}")])]) as ->
          by (vm_compute; reflexivity)
    end.
    constructor; [exact I|constructor]. }
  destruct (extractHardhat_outputs Sample.number_text
              (mkPathContent (Some "build-info.json") Sample.build_report_text)
              _ _ _ _ _ Hjson Hinput Hsources Htyped Hs) as [Hsrcs Hmds].
  split; [|exact Hmds]. by rewrite Hsrcs.
Defined.

(** A build report whose contract carries the text of an empty object
    as its metadata: the classifier lets a null through, and the check
    of the batch throws a TypeError. *)
Lemma checkFiles_null_metadata_sample :
  ∃ mds srcs,
    splitFiles Sample.number_text
      [mkPathContent (Some "build-info.json") Sample.broken_report_text]
    = Ok (mds, srcs)
    ∧ mds = [None]
    ∧ isOk (checkFiles Keccak.keccak256 Sample.rejects Sample.number_text
              Sample.never_equal Sample.stamp
              [Sample.file "build-info.json" Sample.broken_report_text] None)
      = false
    ∧ checkFiles Keccak.keccak256 Sample.rejects Sample.number_text
        Sample.never_equal Sample.stamp
        [Sample.file "build-info.json" Sample.broken_report_text] None
      = Throw TypeError.
Proof.
  assert (∃ mds srcs,
            splitFiles Sample.number_text
              [mkPathContent (Some "build-info.json") Sample.broken_report_text]
            = Ok (mds, srcs))
    as (mds & srcs & Hs) by (vm_compute; do 2 eexists; reflexivity).
  exists mds, srcs. split; [exact Hs|].
  assert (mds = [None]) as Hmds
    by (vm_compute in Hs; injection Hs as <- _; reflexivity).
  split; [exact Hmds|].
  assert (None ∈ mds) as Hnull by (rewrite Hmds; apply list_elem_of_here).
  destruct (checkFiles_null_metadata Keccak.keccak256 Sample.rejects
              Sample.number_text Sample.never_equal Sample.stamp
              [Sample.file "build-info.json" Sample.broken_report_text]
              [Sample.file "build-info.json" Sample.broken_report_text]
              None mds srcs eq_refl Hs Hnull) as [Hthrows Hfirst].
  split; [exact Hthrows|]. exact (Hfirst [] Hmds).
Defined.

(** ** Directories and archives *)


(** The sample upload comes back as its two members. *)
Lemma traverseAndUnzipFiles_flat_sample :
  ∃ unzipped,
    traverseAndUnzipFiles Sample.stamp
      [Sample.upload; Sample.file "B.sol" "contract B {}"] = Ok unzipped
    ∧ Forall (λ file, isZip (buffer file) = false) unzipped
    ∧ [Sample.file "B.sol" "contract B {}"] `prefix_of` unzipped
    ∧ length unzipped = 3.
Proof.
  assert (∃ unzipped,
            traverseAndUnzipFiles Sample.stamp
              [Sample.upload; Sample.file "B.sol" "contract B {}"]
            = Ok unzipped)
    as [unzipped Hu] by (vm_compute; eexists; reflexivity).
  exists unzipped. split; [exact Hu|].
  exact (traverseAndUnzipFiles_flat _ _ _ Hu).
Defined.

Lemma traverseAndUnzipFiles_no_archive_sample :
  traverseAndUnzipFiles Sample.stamp
    [Sample.file "metadata.json" Sample.bare_metadata_text;
     Sample.file "A.sol" "contract A {}"]
  = Ok [Sample.file "metadata.json" Sample.bare_metadata_text;
        Sample.file "A.sol" "contract A {}"].
Proof.
  apply traverseAndUnzipFiles_no_archive.
  repeat constructor.
Defined.

(** The sample upload extracts. An archive without entries after it:
    the error names the second staging directory. A damaged archive
    after it: the error is the one of the library. *)
Lemma traverseAndUnzipFiles_error_sample :
  isOk (traverseAndUnzipFiles Sample.stamp [Sample.upload]) = true
  ∧ traverseAndUnzipFiles Sample.stamp
      [Sample.upload; mkPathBuffer (Some "empty.zip") (Zip None)]
    = Throw (nonexistent "tmp-unzipped-1652274174745-1")
  ∧ traverseAndUnzipFiles Sample.stamp
      [Sample.upload;
       mkPathBuffer (Some "bad.zip") (Damaged (Error "CRC32 checksum failed"))]
    = Throw (Error "CRC32 checksum failed").
Proof.
  split; [|split].
  - apply (proj1 (traverseAndUnzipFiles_error Sample.stamp [Sample.upload])).
    reflexivity.
  - vm_compute. reflexivity.
  - destruct (traverseAndUnzipFiles Sample.stamp
                [Sample.upload;
                 mkPathBuffer (Some "bad.zip")
                   (Damaged (Error "CRC32 checksum failed"))])
      as [unzipped|e] eqn:He; [vm_compute in He; discriminate|].
    destruct (proj2 (traverseAndUnzipFiles_error _ _) e He)
      as [[Hin _]|Hin]; vm_compute in Hin;
      apply list_elem_of_singleton in Hin; congruence.
Defined.

(** ** Batches *)

(** A directory without entries and a path that does not exist. *)
Lemma checkPaths_nothing_to_read_sample :
  (checkPaths Keccak.keccak256 Sample.rejects Sample.number_text
     Sample.never_equal Sample.resolve Sample.stamp Sample.fs
     ["empty"; "build"] (Some [])).1
  = Throw (Error not_found_msg).
Proof.
  apply checkPaths_nothing_to_read.
  constructor; [|constructor; [|constructor]].
  - intros node Hnode. vm_compute in Hnode. injection Hnode as <-.
    split; reflexivity.
  - intros node Hnode. vm_compute in Hnode. discriminate.
Defined.

(** A metadata file without sources and a source file, with an empty
    collector: the path of the source file is collected. *)
Lemma checkFiles_unused_sample :
  ∃ checked,
    checkFiles Keccak.keccak256 Sample.rejects Sample.number_text Sample.never_equal
      Sample.stamp
      [Sample.file "metadata.json" Sample.bare_metadata_text;
       Sample.file "B.sol" "contract B {}"] (Some [])
    = Ok (checked, Some [Some "B.sol"])
    ∧ ∃ usedFiles : list (option string),
        Some [Some "B.sol"]
        = Some ([] ++ filter (λ file, file ∉ usedFiles) [Some "B.sol"]).
Proof.
  assert (∃ checked,
            checkFiles Keccak.keccak256 Sample.rejects Sample.number_text Sample.never_equal
              Sample.stamp
              [Sample.file "metadata.json" Sample.bare_metadata_text;
               Sample.file "B.sol" "contract B {}"] (Some [])
            = Ok (checked, Some [Some "B.sol"]))
    as [checked Hc] by (vm_compute; eexists; reflexivity).
  exists checked. split; [exact Hc|].
  assert (∃ mds,
            splitFiles Sample.number_text
              (parsedFiles
                 [Sample.file "metadata.json" Sample.bare_metadata_text;
                  Sample.file "B.sol" "contract B {}"])
            = Ok (mds, [mkPathContent (Some "B.sol") "contract B {}"]))
    as [mds Hs] by (vm_compute; eexists; reflexivity).
  assert (traverseAndUnzipFiles Sample.stamp
            [Sample.file "metadata.json" Sample.bare_metadata_text;
             Sample.file "B.sol" "contract B {}"]
          = Ok [Sample.file "metadata.json" Sample.bare_metadata_text;
                Sample.file "B.sol" "contract B {}"]) as Hu
    by (vm_compute; reflexivity).
  destruct (checkFiles_unused Keccak.keccak256 Sample.rejects
              Sample.number_text Sample.never_equal Sample.stamp _ _ [] mds _
              checked _ Hu Hs Hc) as (usedFiles & Hunused & _).
  exists usedFiles. exact Hunused.
Defined.

(** Widening the sample contract with a batch that holds a second
    source: the source is added under its path. *)
Lemma useAllSources_adds_sources_sample :
  ∃ contract',
    useAllSources Sample.number_text Sample.stamp Sample.contract
      [Sample.file "metadata.json" Sample.bare_metadata_text;
       Sample.file "B.sol" "contract B {}"] = Ok contract'
    ∧ is_Some (solidity contract'
               !! stringMap_key 0 (mkPathContent (Some "B.sol") "contract B {}")).
Proof.
  assert (∃ contract',
            useAllSources Sample.number_text Sample.stamp Sample.contract
              [Sample.file "metadata.json" Sample.bare_metadata_text;
               Sample.file "B.sol" "contract B {}"] = Ok contract')
    as [contract' Hc] by (vm_compute; eexists; reflexivity).
  exists contract'. split; [exact Hc|].
  assert (∃ mds,
            splitFiles Sample.number_text
              (parsedFiles
                 [Sample.file "metadata.json" Sample.bare_metadata_text;
                  Sample.file "B.sol" "contract B {}"])
            = Ok (mds, [mkPathContent (Some "B.sol") "contract B {}"]))
    as [mds Hs] by (vm_compute; eexists; reflexivity).
  assert (traverseAndUnzipFiles Sample.stamp
            [Sample.file "metadata.json" Sample.bare_metadata_text;
             Sample.file "B.sol" "contract B {}"]
          = Ok [Sample.file "metadata.json" Sample.bare_metadata_text;
                Sample.file "B.sol" "contract B {}"]) as Hu
    by (vm_compute; reflexivity).
  apply (proj1 (useAllSources_adds_sources Sample.number_text Sample.stamp
                  _ _ _ _ mds _ Hu Hs Hc) 0).
  - reflexivity.
  - intros Hkey. vm_compute in Hkey. discriminate.
Defined.

(** A source of two lines and its copies with CR LF line ends and with
    blank lines at the end. *)
Lemma variations_cover_sample :
  "contract A {" +:+ str LF +:+ "}"
  ∈ content
    <$> generateVariations
          (mkPathContent (Some "A.sol")
             (toCRLF ("contract A {" +:+ str LF +:+ "}")))
  ∧ ("contract A {" +:+ str LF +:+ "}") +:+ str LF
    ∈ content
      <$> generateVariations
            (mkPathContent (Some "A.sol")
               (("contract A {" +:+ str LF +:+ "}")
                +:+ str LF +:+ " " +:+ str LF)).
Proof.
  split.
  - apply (proj1 (variations_cover (Some "A.sol")
                    ("contract A {" +:+ str LF +:+ "}"))).
    reflexivity.
  - apply (proj2 (variations_cover (Some "A.sol")
                    ("contract A {" +:+ str LF +:+ "}"))
             (str LF +:+ " " +:+ str LF) (str LF)).
    + reflexivity.
    + reflexivity.
    + apply list_elem_of_further, list_elem_of_here.
Defined.
